(** * Safe transaction hasher: hashing engine and call-data decoder

    A shallow embedding of [EthersSafeTransactionHasher],
    [ViemSafeTransactionHasher] and [TransactionDataDecoder], together with
    the parts of the [ethers] and [viem] packages they call (keccak256, the
    fixed-width ABI coders, hex and UTF-8 helpers). *)

From Stdlib.Strings Require Import String Ascii Byte.
From Stdlib Require Import ZArith List Bool Lia DecimalString.
Import ListNotations.
Open Scope Z_scope.

(** ** Bytes *)

Definition Z_of_byte (b : byte) : Z := Z.of_N (Byte.to_N b).

Definition byte_of_Z (z : Z) : byte :=
  match Byte.of_N (Z.to_N (z mod 256)) with
  | Some b => b
  | None => x00
  end.

(** ** Keccak-256 (the pre-standard padding used by Ethereum) *)

Module Keccak.

Definition mask64 : Z := 0xFFFFFFFFFFFFFFFF.

Definition rotl64 (x n : Z) : Z :=
  Z.land (Z.lor (Z.shiftl x n) (Z.shiftr x (64 - n))) mask64.

Definition not64 (x : Z) : Z := Z.lxor x mask64.

Definition RC : list Z :=
  [ 0x0000000000000001; 0x0000000000008082; 0x800000000000808A;
    0x8000000080008000; 0x000000000000808B; 0x0000000080000001;
    0x8000000080008081; 0x8000000000008009; 0x000000000000008A;
    0x0000000000000088; 0x0000000080008009; 0x000000008000000A;
    0x000000008000808B; 0x800000000000008B; 0x8000000000008089;
    0x8000000000008003; 0x8000000000008002; 0x8000000000000080;
    0x000000000000800A; 0x800000008000000A; 0x8000000080008081;
    0x8000000000008080; 0x0000000080000001; 0x8000000080008008 ].

(** Rotation offsets, indexed by the lane index [x + 5 * y]. *)
Definition rho_offsets : list Z :=
  [ 0; 1; 62; 28; 27;   36; 44; 6; 55; 20;   3; 10; 43; 25; 39;
    41; 45; 15; 21; 8;   18; 2; 61; 56; 14 ].

(** The state is the list of the 25 lanes, lane [(x, y)] at [x + 5 * y]. *)
Definition state := list Z.

Definition lane (st : state) (i : nat) : Z := nth i st 0.

Definition lanes : list nat := seq 0 25.

Definition theta (st : state) : state :=
  let C x := Z.lxor (lane st x) (Z.lxor (lane st (x + 5))
               (Z.lxor (lane st (x + 10)) (Z.lxor (lane st (x + 15))
                  (lane st (x + 20))))) in
  let D x := Z.lxor (C ((x + 4) mod 5)%nat) (rotl64 (C ((x + 1) mod 5)%nat) 1) in
  map (fun i => Z.lxor (lane st i) (D (i mod 5)%nat)) lanes.

(** rho and pi together: lane [(x, y)], rotated, moves to [(y, 2x + 3y)];
    read from the destination [(X, Y)], the source is [(X + 3Y, X)]. *)
Definition rho_pi (st : state) : state :=
  map (fun j =>
         let X := (j mod 5)%nat in
         let Y := (j / 5)%nat in
         let src := (((X + 3 * Y) mod 5) + 5 * X)%nat in
         rotl64 (lane st src) (nth src rho_offsets 0)) lanes.

Definition chi (st : state) : state :=
  map (fun i =>
         let x := (i mod 5)%nat in
         let row := (5 * (i / 5))%nat in
         Z.lxor (lane st i)
           (Z.land (not64 (lane st (row + (x + 1) mod 5)))
                   (lane st (row + (x + 2) mod 5)))) lanes.

Definition iota (rc : Z) (st : state) : state :=
  match st with
  | [] => []
  | a :: rest => Z.lxor a rc :: rest
  end.

Definition round (st : state) (rc : Z) : state :=
  iota rc (chi (rho_pi (theta st))).

Definition keccak_f (st : state) : state := fold_left round RC st.

(** Little-endian lanes. *)
Definition lane_of_bytes (bs : list byte) : Z :=
  fold_right (fun b acc => Z_of_byte b + 256 * acc) 0 bs.

Definition bytes_of_lane (w : Z) : list byte :=
  map (fun k => byte_of_Z (Z.shiftr w (8 * Z.of_nat k))) (seq 0 8).

Definition rate : nat := 136.

Definition pad (m : list byte) : list byte :=
  let padlen := (rate - (length m mod rate))%nat in
  match padlen with
  | 1%nat => m ++ [x81]
  | _ => m ++ x01 :: repeat x00 (padlen - 2) ++ [x80]
  end.

Definition xor_block (st : state) (block : list byte) : state :=
  map (fun i =>
         if (i <? 17)%nat
         then Z.lxor (lane st i)
                (lane_of_bytes (firstn 8 (skipn (8 * i) block)))
         else lane st i) lanes.

Fixpoint absorb (fuel : nat) (st : state) (m : list byte) : state :=
  match fuel with
  | O => st
  | S fuel' =>
      match m with
      | [] => st
      | _ => absorb fuel' (keccak_f (xor_block st (firstn rate m)))
               (skipn rate m)
      end
  end.

Definition squeeze (st : state) : list byte :=
  bytes_of_lane (lane st 0) ++ bytes_of_lane (lane st 1)
    ++ bytes_of_lane (lane st 2) ++ bytes_of_lane (lane st 3).

Definition keccak256 (m : list byte) : list byte :=
  let p := pad m in
  squeeze (absorb (length p) (repeat 0 25) p).

End Keccak.

(** ** JavaScript strings

    A string is its sequence of UTF-16 code units.  [js] injects a literal
    (its bytes, which for the ASCII literals of the source are its code
    units). *)

Definition jsstring := list Z.

Definition js (s : string) : jsstring := map Z_of_byte (list_byte_of_string s).

Fixpoint jseqb (a b : jsstring) : bool :=
  match a, b with
  | [], [] => true
  | x :: a', y :: b' => (x =? y) && jseqb a' b'
  | _, _ => false
  end.

Fixpoint startsWith (s prefix : jsstring) {struct prefix} : bool :=
  match prefix, s with
  | [], _ => true
  | p :: prefix', c :: s' => (c =? p) && startsWith s' prefix'
  | _ :: _, [] => false
  end.

(** [toLowerCase] and [toUpperCase], on the ASCII letters: the strings they
    are applied to here consist of hexadecimal digits and the letter x. *)
Definition lowerChar (c : Z) : Z := if (65 <=? c) && (c <=? 90) then c + 32 else c.
Definition upperChar (c : Z) : Z := if (97 <=? c) && (c <=? 122) then c - 32 else c.
Definition toLowerCase (s : jsstring) : jsstring := map lowerChar s.
Definition toUpperCase (s : jsstring) : jsstring := map upperChar s.

Definition isLeadSurrogate (c : Z) : bool := (0xd800 <=? c) && (c <=? 0xdbff).
Definition isTrailSurrogate (c : Z) : bool := (0xdc00 <=? c) && (c <=? 0xdfff).

(** The UTF-8 bytes of a code point. *)
Definition utf8OfCodePoint (cp : Z) : list byte :=
  if cp <? 0x80 then [byte_of_Z cp]
  else if cp <? 0x800 then
    [byte_of_Z (Z.lor 0xc0 (Z.shiftr cp 6));
     byte_of_Z (Z.lor 0x80 (Z.land cp 0x3f))]
  else if cp <? 0x10000 then
    [byte_of_Z (Z.lor 0xe0 (Z.shiftr cp 12));
     byte_of_Z (Z.lor 0x80 (Z.land (Z.shiftr cp 6) 0x3f));
     byte_of_Z (Z.lor 0x80 (Z.land cp 0x3f))]
  else
    [byte_of_Z (Z.lor 0xf0 (Z.shiftr cp 18));
     byte_of_Z (Z.lor 0x80 (Z.land (Z.shiftr cp 12) 0x3f));
     byte_of_Z (Z.lor 0x80 (Z.land (Z.shiftr cp 6) 0x3f));
     byte_of_Z (Z.lor 0x80 (Z.land cp 0x3f))].

(** [new TextEncoder().encode(s)]: the UTF-8 bytes of the text, a surrogate
    without its pair encoded as U+FFFD. *)
Fixpoint TextEncoder_encode (s : jsstring) : list byte :=
  match s with
  | [] => []
  | c :: rest =>
      if isLeadSurrogate c then
        match rest with
        | d :: rest' =>
            if isTrailSurrogate d
            then utf8OfCodePoint
                   (0x10000 + Z.shiftl (c - 0xd800) 10 + (d - 0xdc00))
                   ++ TextEncoder_encode rest'
            else utf8OfCodePoint 0xfffd ++ TextEncoder_encode rest
        | [] => utf8OfCodePoint 0xfffd
        end
      else if isTrailSurrogate c
      then utf8OfCodePoint 0xfffd ++ TextEncoder_encode rest
      else utf8OfCodePoint c ++ TextEncoder_encode rest
  end.

(** The white space and line terminators that [String.prototype.trim] strips. *)
Definition isWhiteSpace (c : Z) : bool :=
  ((9 <=? c) && (c <=? 13)) || (c =? 32) || (c =? 160) || (c =? 5760)
  || ((8192 <=? c) && (c <=? 8202)) || (c =? 8232) || (c =? 8233)
  || (c =? 8239) || (c =? 8287) || (c =? 12288) || (c =? 65279).

Fixpoint trimStart (s : jsstring) : jsstring :=
  match s with
  | c :: s' => if isWhiteSpace c then trimStart s' else s
  | [] => []
  end.

Definition trimEnd (s : jsstring) : jsstring := rev (trimStart (rev s)).

Definition trim (s : jsstring) : jsstring := trimEnd (trimStart s).

(** [s.replace(/\0/g, "")] *)
Definition removeNul (s : jsstring) : jsstring := filter (fun c => negb (c =? 0)) s.

(** [parts.join(sep)] *)
Fixpoint join (sep : jsstring) (parts : list jsstring) : jsstring :=
  match parts with
  | [] => []
  | [p] => p
  | p :: rest => p ++ sep ++ join sep rest
  end.

(** [s.replace("0x", "")]: the first occurrence only. *)
Fixpoint replace0x (s : jsstring) : jsstring :=
  match s with
  | [] => []
  | c :: rest =>
      if startsWith s (js "0x") then skipn 1 rest else c :: replace0x rest
  end.

Definition padStart (n : nat) (fill : Z) (s : jsstring) : jsstring :=
  repeat fill (n - length s) ++ s.

Definition padEnd (n : nat) (fill : Z) (s : jsstring) : jsstring :=
  s ++ repeat fill (n - length s).

(** ** Hexadecimal text *)

Definition hexDigitValue (c : Z) : option Z :=
  if (48 <=? c) && (c <=? 57) then Some (c - 48)
  else if (97 <=? c) && (c <=? 102) then Some (c - 87)
  else if (65 <=? c) && (c <=? 70) then Some (c - 55)
  else None.

Definition isHexDigit (c : Z) : bool :=
  match hexDigitValue c with Some _ => true | None => false end.

Definition hexDigit (n : Z) : Z := if n <? 10 then 48 + n else 87 + n.

(** [n.toString(16)], for a bigint that is not negative. *)
Fixpoint toString16_from (fuel : nat) (n : Z) (acc : jsstring) : jsstring :=
  match fuel with
  | O => acc
  | S fuel' =>
      let acc' := hexDigit (n mod 16) :: acc in
      if n <? 16 then acc' else toString16_from fuel' (n / 16) acc'
  end.

Definition toString16 (n : Z) : jsstring :=
  toString16_from (S (Z.to_nat (Z.log2 n))) n [].

(** The last [k] hexadecimal digits of a number. *)
Fixpoint hexDigits (k : nat) (n : Z) : jsstring :=
  match k with
  | O => []
  | S k' => hexDigits k' (n / 16) ++ [hexDigit (n mod 16)]
  end.

(** [JSON.stringify] of a string: in double quotes, with the quote, the
    backslash and the control characters escaped, and a surrogate without
    its pair written as its code. *)
Definition unicodeEscape (c : Z) : jsstring := [92; 117] ++ hexDigits 4 c.

Definition escapeChar (c : Z) : jsstring :=
  if c =? 8 then [92; 98]
  else if c =? 9 then [92; 116]
  else if c =? 10 then [92; 110]
  else if c =? 12 then [92; 102]
  else if c =? 13 then [92; 114]
  else if c =? 34 then [92; 34]
  else if c =? 92 then [92; 92]
  else if (c <? 32) || isTrailSurrogate c then unicodeEscape c
  else [c].

Fixpoint QuoteJSONString (s : jsstring) : jsstring :=
  match s with
  | [] => []
  | c :: rest =>
      if isLeadSurrogate c then
        match rest with
        | d :: rest' =>
            if isTrailSurrogate d then c :: d :: QuoteJSONString rest'
            else unicodeEscape c ++ QuoteJSONString rest
        | [] => unicodeEscape c
        end
      else escapeChar c ++ QuoteJSONString rest
  end.

Definition JSON_stringify (s : jsstring) : jsstring :=
  [34] ++ QuoteJSONString s ++ [34].

Definition hexOfByte (b : byte) : jsstring :=
  [hexDigit (Z_of_byte b / 16); hexDigit (Z_of_byte b mod 16)].

(** The digits of a byte sequence, two per byte, lower case, no prefix. *)
Definition hexBody (bs : list byte) : jsstring := flat_map hexOfByte bs.

Fixpoint parseHexBody (s : jsstring) : option (list byte) :=
  match s with
  | [] => Some []
  | [_] => None
  | h :: l :: rest =>
      match hexDigitValue h, hexDigitValue l, parseHexBody rest with
      | Some a, Some b, Some bs => Some (byte_of_Z (16 * a + b) :: bs)
      | _, _, _ => None
      end
  end.

(** Big-endian integers. *)
Definition be_value (bs : list byte) : Z :=
  fold_left (fun acc b => 256 * acc + Z_of_byte b) bs 0.

Fixpoint be_bytes (n : nat) (z : Z) : list byte :=
  match n with
  | O => []
  | S k => be_bytes k (z / 256) ++ [byte_of_Z z]
  end.

Definition option_bind {A B} (o : option A) (f : A -> option B) : option B :=
  match o with Some a => f a | None => None end.

Notation "x <- o ;; k" := (option_bind o (fun x => k))
  (at level 61, o at next level, right associativity).

Fixpoint option_all {A} (l : list (option A)) : option (list A) :=
  match l with
  | [] => Some []
  | o :: rest => a <- o ;; r <- option_all rest ;; Some (a :: r)
  end.

(** ** EIP-55 mixed-case checksum

    [checksumAddress] in viem, on the forty digits of an address: the
    address is lower-cased, its digits are hashed as text, and a digit is
    upper-cased when the matching nibble of the hash is at least 8.
    ([getChecksumAddress] in ethers, below, is the same on forty digits.) *)

Module EIP55.

Fixpoint applyChecksum (chars : jsstring) (hashed : list byte) : jsstring :=
  match chars, hashed with
  | c1 :: c2 :: rest, h :: hs =>
      (if 8 <=? Z_of_byte h / 16 then upperChar c1 else c1)
        :: (if 8 <=? Z_of_byte h mod 16 then upperChar c2 else c2)
        :: applyChecksum rest hs
  | _, _ => chars
  end.

Definition checksumAddress (address : jsstring) : jsstring :=
  let chars := skipn 2 (toLowerCase address) in
  let hashed := Keccak.keccak256 (map byte_of_Z chars) in
  js "0x" ++ applyChecksum chars hashed.

End EIP55.

(** Values handed to the ABI coders: strings, bigints, and the integral
    numbers (operation, nonce, chain id). *)
Inductive jsvalue :=
| JString (s : jsstring)
| JBigInt (n : Z)
| JNumber (n : Z).

(** The Solidity types the source names. *)
Inductive abitype := bytes32 | address | uint256 | uint8.

Definition typeName (t : abitype) : jsstring :=
  match t with
  | bytes32 => js "bytes32"
  | address => js "address"
  | uint256 => js "uint256"
  | uint8 => js "uint8"
  end.

Definition uintBits (t : abitype) : Z :=
  match t with uint8 => 8 | _ => 256 end.

Definition MAX_SAFE_INTEGER : Z := 0x1fffffffffffff.

(** A call that may throw: the value it returns, or the message of the
    error. *)
Inductive outcome (A : Type) :=
| Return (a : A)
| Throw (message : jsstring).
Arguments Return {A} a.
Arguments Throw {A} message.

Definition outcome_bind {A B} (o : outcome A) (f : A -> outcome B) : outcome B :=
  match o with Return a => f a | Throw m => Throw m end.

Definition decimal (n : Z) : jsstring :=
  js (DecimalString.NilZero.string_of_uint (N.to_uint (Z.to_N n))).

(** ** The ethers package (version 6), as far as the source calls it

    Hex text is accepted in either case and produced in lower case.  [None]
    stands for a thrown error. *)

Module Ethers.

Inductive BytesLike :=
| Uint8Array (bs : list byte)
| HexString (s : jsstring).

Definition hexlify (bs : list byte) : jsstring := js "0x" ++ hexBody bs.

(** *** Errors

    The version of the installed package, which the messages of its errors
    end with.  The source asks for ^6.13.5 and pins no version: the text is
    sealed, and nothing below depends on it. *)
Definition version : jsstring.
Proof. exact (js "6.13.5"). Qed.

(** One detail of an error: [key + "=" + stringify(value)].  A string is
    stringified by [JSON.stringify], a byte array as its hex, a number or
    bigint in decimal. *)
Definition detail (key : string) (value : jsstring) : jsstring :=
  js key ++ js "=" ++ value.

(** [makeError]: the message, then in brackets the details of the info,
    the code and the version. *)
Definition makeError (message : jsstring) (code : string) (info : list jsstring)
  : jsstring :=
  message ++ js " ("
    ++ join (js ", ") (info ++ [detail "code" (js code); detail "version" version])
    ++ js ")".

(** The message of the error [assertArgument] throws. *)
Definition invalidArgument (message : jsstring) (name : string) (value : jsstring)
  : jsstring :=
  makeError message "INVALID_ARGUMENT"
    [detail "argument" (JSON_stringify (js name)); detail "value" value].

(** [getBytes]: text matching [/^0x([0-9a-f][0-9a-f])*$/i]. *)
Definition getBytesOfString (s : jsstring) : option (list byte) :=
  match s with
  | 48 :: x :: body => if (x =? 120) || (x =? 88) then parseHexBody body else None
  | _ => None
  end.

Definition getBytes (data : BytesLike) : option (list byte) :=
  match data with
  | Uint8Array bs => Some bs
  | HexString s => getBytesOfString s
  end.

Definition toUtf8Bytes (literal : string) : list byte := list_byte_of_string literal.

Definition keccak256 (data : BytesLike) : option jsstring :=
  bs <- getBytes data ;; Some (hexlify (Keccak.keccak256 bs)).

Definition concat (datas : list jsstring) : option jsstring :=
  parts <- option_all (map getBytesOfString datas) ;;
  Some (js "0x" ++ List.concat (map hexBody parts)).

(** [dataSlice(data, start)] *)
Definition dataSlice (data : jsstring) (start : nat) : outcome jsstring :=
  match getBytesOfString data with
  | Some bs => Return (hexlify (skipn start bs))
  | None =>
      Throw (invalidArgument (js "invalid BytesLike value") "value"
               (JSON_stringify data))
  end.

(** [toBeArray]: the big-endian bytes of an unsigned value, none for zero. *)
Definition toBeArray (n : Z) : option (list byte) :=
  if n <? 0 then None
  else if n =? 0 then Some []
  else
    let hex := toString16 n in
    parseHexBody (if Nat.odd (length hex) then 48 :: hex else hex).

(** [toBeHex(value, width)]: the digits, zero-padded to the width. *)
Definition toBeHex (n : Z) (width : nat) : option jsstring :=
  if n <? 0 then None
  else
    let result := toString16 n in
    if (2 * width <? length result)%nat then None
    else Some (js "0x" ++ padStart (2 * width) 48 result).

(** *** Addresses *)

Definition is40Hex (s : jsstring) : bool :=
  (length s =? 40)%nat && forallb isHexDigit s.

Definition hasUpperHex (s : jsstring) : bool :=
  existsb (fun c => (65 <=? c) && (c <=? 70)) s.

Definition hasLowerHex (s : jsstring) : bool :=
  existsb (fun c => (97 <=? c) && (c <=? 102)) s.

(** [getChecksumAddress]: the checksum is taken of the forty digits after
    the prefix and applied to them; what follows them is kept. *)
Definition getChecksumAddress (address : jsstring) : jsstring :=
  let chars := skipn 2 (toLowerCase address) in
  let hashed := Keccak.keccak256 (map byte_of_Z (firstn 40 chars)) in
  js "0x" ++ EIP55.applyChecksum (firstn 40 chars) hashed ++ skipn 40 chars.

(** The ICAP form: [/^XE[0-9]{2}[0-9A-Za-z]{30,31}$/]. *)
Definition isDigit (c : Z) : bool := (48 <=? c) && (c <=? 57).

Definition isAlphaNumeric (c : Z) : bool :=
  isDigit c || ((65 <=? c) && (c <=? 90)) || ((97 <=? c) && (c <=? 122)).

Definition isIcap (address : jsstring) : bool :=
  match address with
  | 88 :: 69 :: d1 :: d2 :: rest =>
      isDigit d1 && isDigit d2 && forallb isAlphaNumeric rest
      && ((length rest =? 30)%nat || (length rest =? 31)%nat)
  | _ => false
  end.

(** [ibanLookup]: a digit stands for itself, a letter for 10 to 35. *)
Definition ibanLookup (c : Z) : jsstring :=
  if isDigit c then [c] else decimal (c - 55).

(** [parseInt(s, 10)] of decimal digits. *)
Definition parseInt (s : jsstring) : Z :=
  fold_left (fun acc c => 10 * acc + (c - 48)) s 0.

Definition safeDigits : nat := 15.

(** The loop of [ibanChecksum]: the leading block of fifteen digits is
    replaced by its remainder modulo 97 until fewer than fifteen are left. *)
Fixpoint ibanReduce (fuel : nat) (expanded : jsstring) : jsstring :=
  match fuel with
  | O => expanded
  | S fuel' =>
      if (safeDigits <=? length expanded)%nat
      then ibanReduce fuel'
             (decimal (parseInt (firstn safeDigits expanded) mod 97)
                ++ skipn safeDigits expanded)
      else expanded
  end.

Definition ibanChecksum (address : jsstring) : jsstring :=
  let address := toUpperCase address in
  let address := skipn 4 address ++ firstn 2 address ++ js "00" in
  let expanded := flat_map ibanLookup address in
  let expanded := ibanReduce (length expanded) expanded in
  padStart 2 48 (decimal (98 - parseInt expanded mod 97)).

Definition fromBase36 (value : jsstring) : Z :=
  fold_left (fun result c => result * 36 + (if isDigit c then c - 48 else c - 87))
    (toLowerCase value) 0.

(** [getAddress]: forty digits, with or without the prefix, where a
    mixed-case address must carry its checksum; or an ICAP address with its
    own checksum. *)
Definition getAddress (address : jsstring) : option jsstring :=
  let prefixed :=
    if startsWith address (js "0x") && is40Hex (skipn 2 address) then Some address
    else if is40Hex address then Some (js "0x" ++ address)
    else None in
  match prefixed with
  | Some a =>
      let result := getChecksumAddress a in
      if hasUpperHex a && hasLowerHex a && negb (jseqb result a)
      then None else Some result
  | None =>
      if isIcap address then
        if jseqb (firstn 2 (skipn 2 address)) (ibanChecksum address) then
          let result := toString16 (fromBase36 (skipn 4 address)) in
          Some (getChecksumAddress (js "0x" ++ padStart 40 48 result))
        else None
      else None
  end.

(** *** UTF-8 *)

Inductive Utf8ErrorReason :=
| UNEXPECTED_CONTINUE | BAD_PREFIX | OVERRUN | MISSING_CONTINUE
| OUT_OF_RANGE | UTF16_SURROGATE | OVERLONG.

Definition reasonName (r : Utf8ErrorReason) : jsstring :=
  match r with
  | UNEXPECTED_CONTINUE => js "UNEXPECTED_CONTINUE"
  | BAD_PREFIX => js "BAD_PREFIX"
  | OVERRUN => js "OVERRUN"
  | MISSING_CONTINUE => js "MISSING_CONTINUE"
  | OUT_OF_RANGE => js "OUT_OF_RANGE"
  | UTF16_SURROGATE => js "UTF16_SURROGATE"
  | OVERLONG => js "OVERLONG"
  end.

(** The default error handler throws, naming the bytes it was given. *)
Definition utf8Error {A} (bytes : list byte) (reason : Utf8ErrorReason)
    (offset : Z) : outcome A :=
  Throw (invalidArgument
           (js "invalid codepoint at offset " ++ decimal offset ++ js "; "
              ++ reasonName reason)
           "bytes" (hexlify bytes)).

(** The continuation bytes of one character: the code point and the bytes
    left, or the offset of the byte that is not a continuation. *)
Fixpoint readContinuation (n : nat) (res offset : Z) (bs : list byte)
  : Z * list byte + Z :=
  match n with
  | O => inl (res, bs)
  | S k =>
      match bs with
      | b :: rest =>
          if Z.land (Z_of_byte b) 0xc0 =? 0x80
          then readContinuation k
                 (Z.lor (Z.shiftl res 6) (Z.land (Z_of_byte b) 0x3f))
                 (offset + 1) rest
          else inr offset
      | [] => inr offset
      end
  end.

(** The loop of [getUtf8CodePoints] over [bytes], at offset [i], where
    [bs] is left to read. *)
Fixpoint getUtf8CodePoints_from (bytes : list byte) (fuel : nat) (i : Z)
    (bs : list byte) : outcome (list Z) :=
  match fuel, bs with
  | S fuel', b :: rest =>
      let c := Z_of_byte b in
      if Z.shiftr c 7 =? 0
      then outcome_bind (getUtf8CodePoints_from bytes fuel' (i + 1) rest)
             (fun r => Return (c :: r))
      else
        let form :=
          if Z.land c 0xe0 =? 0xc0 then Some (1%nat, 0x7f)
          else if Z.land c 0xf0 =? 0xe0 then Some (2%nat, 0x7ff)
          else if Z.land c 0xf8 =? 0xf0 then Some (3%nat, 0xffff)
          else None in
        match form with
        | None =>
            if Z.land c 0xc0 =? 0x80 then utf8Error bytes UNEXPECTED_CONTINUE i
            else utf8Error bytes BAD_PREFIX i
        | Some (extraLength, overlongMask) =>
            if (length rest <? extraLength)%nat then utf8Error bytes OVERRUN i
            else
              let res0 :=
                Z.land c (Z.shiftl 1 (8 - Z.of_nat extraLength - 1) - 1) in
              match readContinuation extraLength res0 (i + 1) rest with
              | inr bad => utf8Error bytes MISSING_CONTINUE bad
              | inl (res, rest') =>
                  if 0x10ffff <? res then utf8Error bytes OUT_OF_RANGE i
                  else if (0xd800 <=? res) && (res <=? 0xdfff)
                  then utf8Error bytes UTF16_SURROGATE i
                  else if res <=? overlongMask then utf8Error bytes OVERLONG i
                  else outcome_bind
                         (getUtf8CodePoints_from bytes fuel'
                            (i + 1 + Z.of_nat extraLength) rest')
                         (fun r => Return (res :: r))
              end
        end
  | _, _ => Return []
  end.

Definition getUtf8CodePoints (bs : list byte) : outcome (list Z) :=
  getUtf8CodePoints_from bs (length bs) 0 bs.

(** Code points to UTF-16 code units. *)
Definition codeUnits (codePoint : Z) : jsstring :=
  if codePoint <=? 0xffff then [codePoint]
  else
    let cp := codePoint - 0x10000 in
    [Z.land (Z.shiftr cp 10) 0x3ff + 0xd800; Z.land cp 0x3ff + 0xdc00].

Definition toUtf8String (data : jsstring) : outcome jsstring :=
  match getBytesOfString data with
  | Some bs =>
      outcome_bind (getUtf8CodePoints bs)
        (fun cps => Return (flat_map codeUnits cps))
  | None =>
      Throw (invalidArgument (js "invalid BytesLike value") "bytes"
               (JSON_stringify data))
  end.

(** *** The ABI coder, on the static types *)

Module AbiCoder.

(** [getBigInt]: a number must be a safe integer.  (Numeric text is not
    handled here: the hashers pass bigints and numbers.) *)
Definition getBigInt (v : jsvalue) : option Z :=
  match v with
  | JBigInt n => Some n
  | JNumber n =>
      if (- MAX_SAFE_INTEGER <=? n) && (n <=? MAX_SAFE_INTEGER)
      then Some n else None
  | JString _ => None
  end.

Definition Padding : list byte := repeat x00 32.

(** [Writer.writeValue]: the big-endian bytes, zero-padded on the left
    to one word. *)
Definition writeValue (n : Z) : option (list byte) :=
  bytes <- toBeArray n ;;
  if (32 <? length bytes)%nat then None
  else if (length bytes =? 32)%nat then Some bytes
  else Some (skipn (length bytes mod 32) Padding ++ bytes).

Definition encodeValue (t : abitype) (v : jsvalue) : option (list byte) :=
  match t, v with
  | bytes32, JString s =>
      bs <- getBytesOfString s ;;
      if (length bs =? 32)%nat then Some bs else None
  | address, JString s =>
      a <- getAddress s ;;
      bs <- getBytesOfString a ;;
      writeValue (be_value bs)
  | (uint256 | uint8), _ =>
      n <- getBigInt v ;;
      if (0 <=? n) && (n <? 2 ^ uintBits t) then writeValue n else None
  | _, _ => None
  end.

Definition encode (types : list abitype) (values : list jsvalue)
  : option jsstring :=
  if (length types =? length values)%nat
  then words <- option_all (map (fun tv => encodeValue (fst tv) (snd tv))
                              (combine types values)) ;;
       Some (hexlify (List.concat words))
  else None.

(** An entry of a decoded [Result].  A failure other than running out
    of data is kept in the entry and raised when the entry is read. *)
Inductive decoded :=
| DAddress (a : jsstring)
| DUint (n : Z)
| DBytes (h : jsstring)
| DError (message : jsstring).

Definition decodeWord (t : abitype) (word : list byte) : decoded :=
  let v := be_value word in
  match t with
  | address =>
      match toBeHex v 20 with
      | Some h =>
          match getAddress h with
          | Some a => DAddress a
          | None =>
              DError (invalidArgument (js "invalid address") "address"
                        (JSON_stringify h))
          end
      | None =>
          DError (makeError (js "value exceeds width (20 bytes)") "NUMERIC_FAULT"
                    [detail "operation" (JSON_stringify (js "toBeHex"));
                     detail "fault" (JSON_stringify (js "overflow"));
                     detail "value" (decimal v)])
      end
  | uint256 | uint8 => DUint (Z.land v (2 ^ uintBits t - 1))
  | bytes32 => DBytes (hexlify word)
  end.

(** The message of the error the reader throws when a word is read at
    [offset] and the buffer ends before the end of the word. *)
Definition bufferOverrun (buffer : list byte) (offset : nat) : jsstring :=
  makeError (js "data out-of-bounds") "BUFFER_OVERRUN"
    [detail "buffer" (hexlify buffer);
     detail "length" (decimal (Z.of_nat (length buffer)));
     detail "offset" (decimal (Z.of_nat (offset + 32)))].

(** One word per type is read off [data], what the reader has left of
    [buffer]; the offset of the reader is the number of bytes read. *)
Fixpoint decodeWords (buffer : list byte) (types : list abitype)
    (data : list byte) : outcome (list decoded) :=
  match types with
  | [] => Return []
  | t :: ts =>
      if (length data <? 32)%nat
      then Throw (bufferOverrun buffer (length buffer - length data))
      else outcome_bind (decodeWords buffer ts (skipn 32 data))
             (fun r => Return (decodeWord t (firstn 32 data) :: r))
  end.

Definition decode (types : list abitype) (data : jsstring)
  : outcome (list decoded) :=
  match getBytesOfString data with
  | Some bs => decodeWords bs types bs
  | None =>
      Throw (invalidArgument (js "invalid BytesLike value") "value"
               (JSON_stringify data))
  end.

End AbiCoder.

End Ethers.

(** ** The viem package (version 2), as far as the source calls it

    Values are hex text throughout.  [None] stands for a thrown error. *)

Module Viem.

Definition bytesToHex (bs : list byte) : jsstring := js "0x" ++ hexBody bs.

(** [toHex] of a string literal: the hex of its UTF-8 bytes. *)
Definition toHex (literal : string) : jsstring :=
  bytesToHex (list_byte_of_string literal).

Definition isHex (s : jsstring) : bool :=
  startsWith s (js "0x") && forallb isHexDigit (skipn 2 s).

(** [hexToBytes]: an odd number of digits is read with a zero before
    them. *)
Definition hexToBytes (hex : jsstring) : option (list byte) :=
  let hexString := skipn 2 hex in
  parseHexBody (if Nat.odd (length hexString) then 48 :: hexString else hexString).

Definition stringToBytes (value : jsstring) : list byte := TextEncoder_encode value.

(** [toBytes] of a string: the bytes hex text spells, the UTF-8 bytes of
    any other text. *)
Definition toBytes (value : jsstring) : option (list byte) :=
  if isHex value then hexToBytes value else Some (stringToBytes value).

(** [keccak256]: text that starts with 0x goes through [toBytes]; any
    other text is hashed as its UTF-8 bytes. *)
Definition keccak256 (value : jsstring) : option jsstring :=
  bs <- (if startsWith value (js "0x") then toBytes value
         else Some (stringToBytes value)) ;;
  Some (bytesToHex (Keccak.keccak256 bs)).

(** [concat] of hex values joins the texts. *)
Definition concat (values : list jsstring) : jsstring :=
  js "0x" ++ List.concat (map replace0x values).

(** [size]: the number of bytes a hex value spells. *)
Definition size (value : jsstring) : nat :=
  if startsWith value (js "0x") then Nat.div (length value - 2 + 1) 2
  else length value.

Inductive dir := left | right.

Definition padHex (d : dir) (hex_ : jsstring) : option jsstring :=
  let hex := replace0x hex_ in
  if (64 <? length hex)%nat then None
  else Some (js "0x" ++ match d with
                        | left => padStart 64 48 hex
                        | right => padEnd 64 48 hex
                        end).

Definition isAddress (a : jsstring) : bool :=
  startsWith a (js "0x") && Ethers.is40Hex (skipn 2 a)
  && (jseqb (toLowerCase a) a || jseqb (EIP55.checksumAddress a) a).

(** [numberToHex(value, { size: 32 })] *)
Definition numberToHex (n : Z) : option jsstring :=
  if (0 <=? n) && (n <=? 2 ^ 256 - 1)
  then padHex left (js "0x" ++ toString16 n) else None.

Definition BigInt (v : jsvalue) : jsvalue :=
  match v with JNumber n => JBigInt n | _ => v end.

Definition encodeValue (t : abitype) (v : jsvalue) : option jsstring :=
  match t, v with
  | address, JString s =>
      if isAddress s then padHex left (toLowerCase s) else None
  | bytes32, JString s =>
      if (size s =? 32)%nat then padHex right s else None
  | (uint256 | uint8), (JBigInt n | JNumber n) =>
      if (0 <=? n) && (n <? 2 ^ uintBits t) then numberToHex n else None
  | _, _ => None
  end.

Definition encodeAbiParameters (params : list abitype) (values : list jsvalue)
  : option jsstring :=
  if (length params =? length values)%nat
  then encoded <- option_all (map (fun tv => encodeValue (fst tv) (snd tv))
                                (combine params values)) ;;
       Some (concat encoded)
  else None.

End Viem.

(** ** ISafeTransactionHasher: the records *)

Module ISafeTransactionHasher.

Definition EthAddress := jsstring.
Definition HexData := jsstring.
Definition HashValue := jsstring.

Record SafeTransactionParams := {
  to : EthAddress;
  value : Z;               (* bigint *)
  data : HexData;
  operation : Z;           (* 0 | 1 *)
  safeTxGas : Z;           (* bigint *)
  baseGas : Z;             (* bigint *)
  gasPrice : Z;            (* bigint *)
  gasToken : EthAddress;
  refundReceiver : EthAddress;
  nonce : Z                (* number *)
}.

Record DomainData := {
  chainId : Z;             (* number *)
  verifyingContract : EthAddress
}.

Record TypeHashes := {
  safeTxTypeHash : HashValue;
  domainSeparatorTypeHash : HashValue
}.

Record AllHashes := {
  safeTxHash : HashValue;
  domainHash : HashValue;
  messageHash : HashValue
}.

(** The interface the two hashers implement.  A method that throws gives
    [None]. *)
Class ISafeTransactionHasher (T : Type) := {
  getTypeHashes : T -> TypeHashes;
  getDomainHash : T -> HashValue;
  calculateRawSafeTxHash : T -> SafeTransactionParams -> option HashValue;
  calculateFinalSafeTxHash : T -> SafeTransactionParams -> option HashValue;
  calculateMessageHash : T -> SafeTransactionParams -> option HashValue;
  calculateSafeTransactionHash : T -> SafeTransactionParams -> option HashValue;
  getAllHashes : T -> SafeTransactionParams -> option AllHashes
}.

End ISafeTransactionHasher.
Import ISafeTransactionHasher.

Definition EIP712Domain_type : string :=
  "EIP712Domain(uint256 chainId,address verifyingContract)".

Definition SafeTx_type : string :=
  "SafeTx(address to,uint256 value,bytes data,uint8 operation,uint256 safeTxGas,uint256 baseGas,uint256 gasPrice,address gasToken,address refundReceiver,uint256 nonce)".

(** ** EthersSafeTransactionHasher *)

Module EthersSafeTransactionHasher.

(** The fields of an instance; [domainHash] is computed once, by [new]. *)
Record t := {
  DOMAIN_SEPARATOR_TYPEHASH : HashValue;
  SAFE_TX_TYPEHASH : HashValue;
  domain : DomainData;
  domainHash : HashValue
}.

Definition calculateDomainHash (DOMAIN_SEPARATOR_TYPEHASH : HashValue)
    (domain : DomainData) : option HashValue :=
  encodedDomain <-
    Ethers.AbiCoder.encode [bytes32; uint256; address]
      [ JString DOMAIN_SEPARATOR_TYPEHASH;
        JNumber (chainId domain);
        JString (verifyingContract domain) ] ;;
  Ethers.keccak256 (Ethers.HexString encodedDomain).

Definition new (domain : DomainData) : option t :=
  domainTypeHash <-
    Ethers.keccak256 (Ethers.Uint8Array (Ethers.toUtf8Bytes EIP712Domain_type)) ;;
  safeTxTypeHash <-
    Ethers.keccak256 (Ethers.Uint8Array (Ethers.toUtf8Bytes SafeTx_type)) ;;
  domainHash <- calculateDomainHash domainTypeHash domain ;;
  Some {| DOMAIN_SEPARATOR_TYPEHASH := domainTypeHash;
          SAFE_TX_TYPEHASH := safeTxTypeHash;
          domain := domain;
          domainHash := domainHash |}.

Definition getTypeHashes (this : t) : TypeHashes :=
  {| safeTxTypeHash := SAFE_TX_TYPEHASH this;
     domainSeparatorTypeHash := DOMAIN_SEPARATOR_TYPEHASH this |}.

Definition getDomainHash (this : t) : HashValue := domainHash this.

Definition calculateRawSafeTxHash (this : t) (tx : SafeTransactionParams)
  : option HashValue :=
  dataHash <- Ethers.keccak256 (Ethers.HexString (data tx)) ;;
  encodedData <-
    Ethers.AbiCoder.encode
      [ bytes32; address; uint256; bytes32; uint8; uint256; uint256;
        uint256; address; address; uint256 ]
      [ JString (SAFE_TX_TYPEHASH this);
        JString (to tx);
        JBigInt (value tx);
        JString dataHash;
        JNumber (operation tx);
        JBigInt (safeTxGas tx);
        JBigInt (baseGas tx);
        JBigInt (gasPrice tx);
        JString (gasToken tx);
        JString (refundReceiver tx);
        JNumber (nonce tx) ] ;;
  Ethers.keccak256 (Ethers.HexString encodedData).

Definition calculateFinalSafeTxHash (this : t) (tx : SafeTransactionParams)
  : option HashValue :=
  rawSafeTxHash <- calculateRawSafeTxHash this tx ;;
  packedData <-
    Ethers.concat [js "0x19"; js "0x01"; domainHash this; rawSafeTxHash] ;;
  Ethers.keccak256 (Ethers.HexString packedData).

Definition calculateMessageHash := calculateRawSafeTxHash.

Definition calculateSafeTransactionHash := calculateFinalSafeTxHash.

Definition getAllHashes (this : t) (tx : SafeTransactionParams)
  : option AllHashes :=
  messageHash <- calculateRawSafeTxHash this tx ;;
  safeTxHash <- calculateFinalSafeTxHash this tx ;;
  Some {| safeTxHash := safeTxHash;
          ISafeTransactionHasher.domainHash := domainHash this;
          messageHash := messageHash |}.

End EthersSafeTransactionHasher.

#[export] Instance Ethers_implements_ISafeTransactionHasher
  : ISafeTransactionHasher EthersSafeTransactionHasher.t :=
  {| getTypeHashes := EthersSafeTransactionHasher.getTypeHashes;
     getDomainHash := EthersSafeTransactionHasher.getDomainHash;
     calculateRawSafeTxHash := EthersSafeTransactionHasher.calculateRawSafeTxHash;
     calculateFinalSafeTxHash :=
       EthersSafeTransactionHasher.calculateFinalSafeTxHash;
     calculateMessageHash := EthersSafeTransactionHasher.calculateMessageHash;
     calculateSafeTransactionHash :=
       EthersSafeTransactionHasher.calculateSafeTransactionHash;
     getAllHashes := EthersSafeTransactionHasher.getAllHashes |}.

(** ** ViemSafeTransactionHasher *)

Module ViemSafeTransactionHasher.

Record t := {
  DOMAIN_SEPARATOR_TYPEHASH : HashValue;
  SAFE_TX_TYPEHASH : HashValue;
  domain : DomainData;
  domainHash : HashValue
}.

Definition calculateDomainHash (DOMAIN_SEPARATOR_TYPEHASH : HashValue)
    (domain : DomainData) : option HashValue :=
  encoded <-
    Viem.encodeAbiParameters [bytes32; uint256; address]
      [ JString DOMAIN_SEPARATOR_TYPEHASH;
        Viem.BigInt (JNumber (chainId domain));
        JString (verifyingContract domain) ] ;;
  Viem.keccak256 encoded.

Definition new (domain : DomainData) : option t :=
  domainTypeHash <- Viem.keccak256 (Viem.toHex EIP712Domain_type) ;;
  safeTxTypeHash <- Viem.keccak256 (Viem.toHex SafeTx_type) ;;
  domainHash <- calculateDomainHash domainTypeHash domain ;;
  Some {| DOMAIN_SEPARATOR_TYPEHASH := domainTypeHash;
          SAFE_TX_TYPEHASH := safeTxTypeHash;
          domain := domain;
          domainHash := domainHash |}.

Definition getTypeHashes (this : t) : TypeHashes :=
  {| safeTxTypeHash := SAFE_TX_TYPEHASH this;
     domainSeparatorTypeHash := DOMAIN_SEPARATOR_TYPEHASH this |}.

Definition getDomainHash (this : t) : HashValue := domainHash this.

Definition calculateRawSafeTxHash (this : t) (tx : SafeTransactionParams)
  : option HashValue :=
  dataHash <- Viem.keccak256 (data tx) ;;
  encoded <-
    Viem.encodeAbiParameters
      [ bytes32; address; uint256; bytes32; uint8; uint256; uint256;
        uint256; address; address; uint256 ]
      [ JString (SAFE_TX_TYPEHASH this);
        JString (to tx);
        JBigInt (value tx);
        JString dataHash;
        JNumber (operation tx);
        JBigInt (safeTxGas tx);
        JBigInt (baseGas tx);
        JBigInt (gasPrice tx);
        JString (gasToken tx);
        JString (refundReceiver tx);
        Viem.BigInt (JNumber (nonce tx)) ] ;;
  Viem.keccak256 encoded.

Definition calculateFinalSafeTxHash (this : t) (tx : SafeTransactionParams)
  : option HashValue :=
  rawSafeTxHash <- calculateRawSafeTxHash this tx ;;
  let packedData :=
    Viem.concat [js "0x19"; js "0x01"; domainHash this; rawSafeTxHash] in
  Viem.keccak256 packedData.

Definition calculateMessageHash := calculateRawSafeTxHash.

Definition calculateSafeTransactionHash := calculateFinalSafeTxHash.

Definition getAllHashes (this : t) (tx : SafeTransactionParams)
  : option AllHashes :=
  messageHash <- calculateRawSafeTxHash this tx ;;
  safeTxHash <- calculateFinalSafeTxHash this tx ;;
  Some {| safeTxHash := safeTxHash;
          ISafeTransactionHasher.domainHash := domainHash this;
          messageHash := messageHash |}.

End ViemSafeTransactionHasher.

#[export] Instance Viem_implements_ISafeTransactionHasher
  : ISafeTransactionHasher ViemSafeTransactionHasher.t :=
  {| getTypeHashes := ViemSafeTransactionHasher.getTypeHashes;
     getDomainHash := ViemSafeTransactionHasher.getDomainHash;
     calculateRawSafeTxHash := ViemSafeTransactionHasher.calculateRawSafeTxHash;
     calculateFinalSafeTxHash :=
       ViemSafeTransactionHasher.calculateFinalSafeTxHash;
     calculateMessageHash := ViemSafeTransactionHasher.calculateMessageHash;
     calculateSafeTransactionHash :=
       ViemSafeTransactionHasher.calculateSafeTransactionHash;
     getAllHashes := ViemSafeTransactionHasher.getAllHashes |}.

(** The records of the hasher test. *)
Definition zeroAddress : EthAddress := js "0x0000000000000000000000000000000000000000".

Definition transferData : HexData :=
  js "0xa9059cbb0000000000000000000000008b4b268a9aa797fd60889e88ac7be9a0c4b37ff40000000000000000000000000000000000000000000000000000000511b5ac00".

Definition testDomain : DomainData :=
  {| chainId := 59144;
     verifyingContract := js "0xDb73ba19F072D0Fbc865781Ba468A9F8B77aD2C4" |}.

Definition testSafeTransaction : SafeTransactionParams :=
  {| to := js "0x8b4B268a9aA797fD60889E88AC7bE9a0C4b37Ff4";
     value := 0;
     data := transferData;
     operation := 0;
     safeTxGas := 0;
     baseGas := 0;
     gasPrice := 0;
     gasToken := zeroAddress;
     refundReceiver := zeroAddress;
     nonce := 60 |}.

Definition expectedHashes : AllHashes :=
  {| safeTxHash := js "0x64b865a13a4d2968c6f6428a4403a2df33c35171d482322238bbac22698e6189";
     domainHash := js "0x7ae3819992af9cb3416bfbfc483b427868cec8257ab807445212b48a5ca86dfd";
     messageHash := js "0xd7a20bc0e18961ef47e55f868cdcd8d41a58bb689ee1837dafe8aa99a588494a" |}.

(** The transaction of examples/example.ts: the same call, sent to the token
    contract. *)
Definition exampleSafeTransaction : SafeTransactionParams :=
  {| to := js "0x176211869ca2b568f2a7d4ee941e073a821ee1ff";
     value := 0;
     data := transferData;
     operation := 0;
     safeTxGas := 0;
     baseGas := 0;
     gasPrice := 0;
     gasToken := zeroAddress;
     refundReceiver := zeroAddress;
     nonce := 60 |}.

(** ** TransactionDataDecoder *)

Module ValidationResult.
Record t := { valid : bool; error : option jsstring }.
End ValidationResult.

Module DecodedResult.
Record t := { success : bool; value : jsstring; error : option jsstring }.
End DecodedResult.

Module DecodedFunctionResult.
Record t := {
  success : bool;
  value : jsstring;
  error : option jsstring;
  signature : option jsstring;
  name : option jsstring;
  params : option (list Ethers.AbiCoder.decoded)
}.
End DecodedFunctionResult.

Module TransactionDataDecoder.

(** [/^0x[0-9a-fA-F]*$/.test(data)] *)
Definition hexRegex_test (data : jsstring) : bool :=
  match data with
  | 48 :: 120 :: digits => forallb isHexDigit digits
  | _ => false
  end.

Definition invalid (reason : string) : ValidationResult.t :=
  {| ValidationResult.valid := false;
     ValidationResult.error := Some (js reason) |}.

(** The argument is a string, so the [typeof] test never fires. *)
Definition validateHexData (data : jsstring) : ValidationResult.t :=
  match data with
  | [] => invalid "Data is empty"
  | _ =>
      if negb (startsWith data (js "0x")) then
        invalid "Hex data must start with 0x"
      else if negb (hexRegex_test data) then
        invalid "Data contains invalid hex characters"
      else if negb (Z.rem (Z.of_nat (length data) - 2) 2 =? 0) then
        invalid "Hex data must have even length"
      else
        {| ValidationResult.valid := true; ValidationResult.error := None |}
  end.

Definition failure (error : option jsstring) : DecodedResult.t :=
  {| DecodedResult.success := false;
     DecodedResult.value := [];
     DecodedResult.error := error |}.

Definition decodeAsciiData (encodedData : jsstring) : DecodedResult.t :=
  let validation := validateHexData encodedData in
  if negb (ValidationResult.valid validation) then
    failure (ValidationResult.error validation)
  else if (length encodedData <? 66)%nat then
    failure (Some (js "Data too short, minimum 32 bytes required"))
  else
    match outcome_bind (Ethers.dataSlice encodedData 32) Ethers.toUtf8String with
    | Return text =>
        {| DecodedResult.success := true;
           DecodedResult.value := removeNul (trim text);
           DecodedResult.error := None |}
    | Throw message =>
        failure (Some (js "Failed to decode data: " ++ message))
    end.

Record KnownFunction := { name : jsstring; types : list abitype }.

(** Common ERC20 function signatures *)
Definition knownFunctions : list (jsstring * KnownFunction) :=
  [ (js "0xa9059cbb", {| name := js "transfer"; types := [address; uint256] |});
    (js "0x23b872dd",
      {| name := js "transferFrom"; types := [address; address; uint256] |});
    (js "0x095ea7b3", {| name := js "approve"; types := [address; uint256] |});
    (js "0x70a08231", {| name := js "balanceOf"; types := [address] |}) ].

(** [table[key]] *)
Fixpoint lookup {A} (key : jsstring) (table : list (jsstring * A)) : option A :=
  match table with
  | [] => None
  | (k, v) :: rest => if jseqb key k then Some v else lookup key rest
  end.

Definition functionFailure (error : option jsstring) : DecodedFunctionResult.t :=
  {| DecodedFunctionResult.success := false;
     DecodedFunctionResult.value := [];
     DecodedFunctionResult.error := error;
     DecodedFunctionResult.signature := None;
     DecodedFunctionResult.name := None;
     DecodedFunctionResult.params := None |}.

(** Nothing in the outer [try] throws outside the inner one, so the outer
    [catch] is never entered. *)
Definition decodeFunctionCall (encodedData : jsstring) : DecodedFunctionResult.t :=
  let validation := validateHexData encodedData in
  if negb (ValidationResult.valid validation) then
    functionFailure (ValidationResult.error validation)
  else if (length encodedData <? 10)%nat then
    functionFailure
      (Some (js "Data too short, minimum 4 bytes required for function selector"))
  else
    let functionSelector := firstn 10 encodedData in
    match lookup functionSelector knownFunctions with
    | Some knownFunction =>
        let paramData := js "0x" ++ skipn 10 encodedData in
        match Ethers.AbiCoder.decode (types knownFunction) paramData with
        | Return decodedParams =>
            {| DecodedFunctionResult.success := true;
               DecodedFunctionResult.value :=
                 name knownFunction ++ js "("
                   ++ join (js ",") (map typeName (types knownFunction))
                   ++ js ")";
               DecodedFunctionResult.error := None;
               DecodedFunctionResult.signature := Some functionSelector;
               DecodedFunctionResult.name := Some (name knownFunction);
               DecodedFunctionResult.params := Some decodedParams |}
        | Throw message =>
            {| DecodedFunctionResult.success := true;
               DecodedFunctionResult.value := name knownFunction;
               DecodedFunctionResult.error :=
                 Some (js "Identified function but failed to decode parameters: "
                         ++ message);
               DecodedFunctionResult.signature := Some functionSelector;
               DecodedFunctionResult.name := Some (name knownFunction);
               DecodedFunctionResult.params := None |}
        end
    | None =>
        {| DecodedFunctionResult.success := true;
           DecodedFunctionResult.value := functionSelector;
           DecodedFunctionResult.error := None;
           DecodedFunctionResult.signature := Some functionSelector;
           DecodedFunctionResult.name := None;
           DecodedFunctionResult.params := None |}
    end.

(** [`Decoding Error: ${error}`] prints a missing error as "undefined". *)
Definition formatDecodedData (decodedData : DecodedResult.t) : jsstring :=
  if negb (DecodedResult.success decodedData) then
    js "Decoding Error: "
      ++ match DecodedResult.error decodedData with
         | Some message => message
         | None => js "undefined"
         end
  else if (100 <? length (DecodedResult.value decodedData))%nat then
    firstn 100 (DecodedResult.value decodedData) ++ js "..."
  else DecodedResult.value decodedData.

End TransactionDataDecoder.

(** The data of the decoder test. *)
Definition asciiEncodedData : jsstring :=
  js "0x000000000000000000000000000000000000000000000000000000000000008a30786139303539636262303030303030303030303030303030303030303030303030386234623236386139616137393766643630383839653838616337626539613063346233376666343030303030303030303030303030303030303030303030303030303030303030303030303030303030303030303030303030303030303035313162356163303000000000000000000000000000000000000000000000".

Definition unknownFunction : jsstring :=
  js "0xabcdef120000000000000000000000000000000000000000000000000000000000000001".

(** ** Well-formed records, and the encodings the hashes are taken of *)

(** The bytes a 0x-prefixed text spells. *)
Definition bytesOfHex (s : jsstring) : list byte :=
  match parseHexBody (skipn 2 s) with Some bs => bs | None => [] end.

Definition wf_uint256 (n : Z) : bool := (0 <=? n) && (n <? 2 ^ 256).

(** A number that holds an unsigned integer exactly. *)
Definition wf_number (n : Z) : bool := (0 <=? n) && (n <=? MAX_SAFE_INTEGER).

(** Twenty bytes, in lower case or with the EIP-55 checksum. *)
Definition wf_address (a : EthAddress) : bool := Viem.isAddress a.

(** Whole bytes of hexadecimal digits after the prefix. *)
Definition wf_data (d : HexData) : bool := Viem.isHex d && Nat.even (length d).

Definition wf_operation (op : Z) : bool := (op =? 0) || (op =? 1).

Definition wf_tx (tx : SafeTransactionParams) : bool :=
  wf_address (to tx) && wf_uint256 (value tx) && wf_data (data tx)
  && wf_operation (operation tx) && wf_uint256 (safeTxGas tx)
  && wf_uint256 (baseGas tx) && wf_uint256 (gasPrice tx)
  && wf_address (gasToken tx) && wf_address (refundReceiver tx)
  && wf_number (nonce tx).

Definition wf_domain (d : DomainData) : bool :=
  wf_number (chainId d) && wf_address (verifyingContract d).

(** An address, left-padded to one word. *)
Definition addressWord (a : list byte) : list byte :=
  repeat x00 (32 - length a) ++ a.

(** An unsigned integer as a big-endian 256-bit word. *)
Definition uintWord (n : Z) : list byte := be_bytes 32 n.

(** A single byte, right-padded to one word. *)
Definition byteWordRightPadded (n : Z) : list byte := byte_of_Z n :: repeat x00 31.

Definition domainTypeHashBytes : list byte :=
  Keccak.keccak256 (list_byte_of_string EIP712Domain_type).

Definition safeTxTypeHashBytes : list byte :=
  Keccak.keccak256 (list_byte_of_string SafeTx_type).

Definition domainEncoding (d : DomainData) : list byte :=
  domainTypeHashBytes ++ uintWord (chainId d)
    ++ addressWord (bytesOfHex (verifyingContract d)).

(** The encoding of a transaction, every integer (the operation among them)
    a big-endian word. *)
Definition structEncoding (tx : SafeTransactionParams) : list byte :=
  safeTxTypeHashBytes
    ++ addressWord (bytesOfHex (to tx))
    ++ uintWord (value tx)
    ++ Keccak.keccak256 (bytesOfHex (data tx))
    ++ uintWord (operation tx)
    ++ uintWord (safeTxGas tx)
    ++ uintWord (baseGas tx)
    ++ uintWord (gasPrice tx)
    ++ addressWord (bytesOfHex (gasToken tx))
    ++ addressWord (bytesOfHex (refundReceiver tx))
    ++ uintWord (nonce tx).

(** The encoding as the specification words it: the operation a single
    byte, right-padded. *)
Definition specStructEncoding (tx : SafeTransactionParams) : list byte :=
  safeTxTypeHashBytes
    ++ addressWord (bytesOfHex (to tx))
    ++ uintWord (value tx)
    ++ Keccak.keccak256 (bytesOfHex (data tx))
    ++ byteWordRightPadded (operation tx)
    ++ uintWord (safeTxGas tx)
    ++ uintWord (baseGas tx)
    ++ uintWord (gasPrice tx)
    ++ addressWord (bytesOfHex (gasToken tx))
    ++ addressWord (bytesOfHex (refundReceiver tx))
    ++ uintWord (nonce tx).

(** The bytes the final hash is taken of. *)
Definition finalEncoding (domainHash messageHash : list byte) : list byte :=
  x19 :: x01 :: domainHash ++ messageHash.

(** The example transaction as a delegate call. *)
Definition delegateCallTransaction : SafeTransactionParams :=
  {| to := to exampleSafeTransaction;
     value := 0;
     data := transferData;
     operation := 1;
     safeTxGas := 0;
     baseGas := 0;
     gasPrice := 0;
     gasToken := zeroAddress;
     refundReceiver := zeroAddress;
     nonce := 60 |}.

(** What the hashers return for the transaction of the hasher test. *)
Definition testHashes : AllHashes :=
  {| safeTxHash := js "0x1c8bb9fdc4d957f77da17bb7ac5f42a9c89b334c88fcf6195968d4a974c46a84";
     domainHash := js "0x7ae3819992af9cb3416bfbfc483b427868cec8257ab807445212b48a5ca86dfd";
     messageHash := js "0x08de308016c0bd5b24628c18ab9d28b3f129a9aa9f40900f6fc622f82bb194a9" |}.

(** The selectors of the known functions, as bytes. *)
Definition knownSelectors : list (list byte) :=
  [ [xa9; x05; x9c; xbb]; [x23; xb8; x72; xdd];
    [x09; x5e; xa7; xb3]; [x70; xa0; x82; x31] ].

(** The transfer call of the tests, its hexadecimal digits in upper case. *)
Definition upperCaseTransferData : jsstring :=
  js "0xA9059CBB0000000000000000000000008B4B268A9AA797FD60889E88AC7BE9A0C4B37FF40000000000000000000000000000000000000000000000000000000511B5AC00".



(** The recipient of the transfer call of the tests. *)
Definition recipient : list byte :=
  [x8b; x4b; x26; x8a; x9a; xa7; x97; xfd; x60; x88;
   x9e; x88; xac; x7b; xe9; xa0; xc4; xb3; x7f; xf4].

(** The long value of the decoder test: two hundred letters a, decoded with
    success. *)
Definition longData : DecodedResult.t :=
  {| DecodedResult.success := true;
     DecodedResult.value := repeat 97 200;
     DecodedResult.error := None |}.

(** A text without white space at either end: what [trim] leaves as it
    is.  (The empty text counts: NUL is not white space.) *)
Definition trimmed (s : jsstring) : bool :=
  negb (isWhiteSpace (hd 0 s)) && negb (isWhiteSpace (last s 0)).


(** Code units of ASCII characters other than NUL. *)
Definition isAsciiText (s : jsstring) : bool :=
  forallb (fun c => (0 <? c) && (c <? 128)) s.

(** The data [decodeAsciiData] is written for: a 32-byte head (the length
    word of an ABI-encoded string), the bytes of an ASCII text, and zero
    bytes of padding. *)
Definition embedText (head : list byte) (text : jsstring) (padding : nat)
  : jsstring :=
  Ethers.hexlify (head ++ map byte_of_Z text ++ repeat x00 padding).

(** Thirty-two zero bytes, then a byte that no UTF-8 text contains. *)
Definition badPrefixData : jsstring :=
  js "0x0000000000000000000000000000000000000000000000000000000000000000ff".

(** An argument of a call to one of the known functions: the twenty bytes
    of an address, or an amount. *)
Inductive argument :=
| AddressArg (addr : list byte)
| AmountArg (n : Z).

(** The word the ABI encoding writes for an argument. *)
Definition argumentWord (a : argument) : list byte :=
  match a with
  | AddressArg addr => addressWord addr
  | AmountArg n => uintWord n
  end.

Definition wf_argument (t : abitype) (a : argument) : bool :=
  match t, a with
  | address, AddressArg addr => (length addr =? 20)%nat
  | uint256, AmountArg n => wf_uint256 n
  | _, _ => false
  end.

Fixpoint wf_arguments (ts : list abitype) (args : list argument) : bool :=
  match ts, args with
  | [], [] => true
  | t :: ts', a :: args' => wf_argument t a && wf_arguments ts' args'
  | _, _ => false
  end.

(** The entry ethers returns for an argument: an address with its EIP-55
    checksum, an amount as a bigint. *)
Definition decodedArgument (a : argument) : Ethers.AbiCoder.decoded :=
  match a with
  | AddressArg addr =>
      Ethers.AbiCoder.DAddress (EIP55.checksumAddress (Ethers.hexlify addr))
  | AmountArg n => Ethers.AbiCoder.DUint n
  end.

(** Call data: the selector as text, the words of the arguments, and any
    bytes after them. *)
Definition encodeCall (selector : jsstring) (args : list argument)
    (trailing : list byte) : jsstring :=
  selector ++ hexBody (List.concat (map argumentWord args) ++ trailing).

(** ** Records beyond the declared types

    The types of the records are erased when the code runs: what the
    hashers take is what the ABI coders take. *)

(** An operation that fits the uint8 of the encoding. *)
Definition wf_uint8 (n : Z) : bool := (0 <=? n) && (n <? 2 ^ 8).

(** The fields other than the nonce, as both coders take them: as in
    [wf_tx], with any operation that fits a byte. *)
Definition encodable (tx : SafeTransactionParams) : bool :=
  wf_address (to tx) && wf_uint256 (value tx) && wf_data (data tx)
  && wf_uint8 (operation tx) && wf_uint256 (safeTxGas tx)
  && wf_uint256 (baseGas tx) && wf_uint256 (gasPrice tx)
  && wf_address (gasToken tx) && wf_address (refundReceiver tx).

(** A number among the fields that no coder takes: negative, or too
    large for its type. *)
Definition out_of_range (tx : SafeTransactionParams) : bool :=
  negb (wf_uint256 (value tx)) || negb (wf_uint8 (operation tx))
  || negb (wf_uint256 (safeTxGas tx)) || negb (wf_uint256 (baseGas tx))
  || negb (wf_uint256 (gasPrice tx)) || negb (wf_uint256 (nonce tx)).

(** The example transaction with an operation that is neither Call nor
    DelegateCall. *)
Definition operationTwoTransaction : SafeTransactionParams :=
  {| to := to exampleSafeTransaction;
     value := 0;
     data := transferData;
     operation := 2;
     safeTxGas := 0;
     baseGas := 0;
     gasPrice := 0;
     gasToken := zeroAddress;
     refundReceiver := zeroAddress;
     nonce := 60 |}.

(** The example transaction with the first nonce that is not a safe
    integer, 2^53. *)
Definition unsafeNonceTransaction : SafeTransactionParams :=
  {| to := to exampleSafeTransaction;
     value := 0;
     data := transferData;
     operation := 0;
     safeTxGas := 0;
     baseGas := 0;
     gasPrice := 0;
     gasToken := zeroAddress;
     refundReceiver := zeroAddress;
     nonce := 2 ^ 53 |}.

(** The example transaction with data of three digits. *)
Definition oddDataTransaction : SafeTransactionParams :=
  {| to := to exampleSafeTransaction;
     value := 0;
     data := js "0x123";
     operation := 0;
     safeTxGas := 0;
     baseGas := 0;
     gasPrice := 0;
     gasToken := zeroAddress;
     refundReceiver := zeroAddress;
     nonce := 60 |}.

(** The transaction of the hasher test with the digits of [to] in upper
    case. *)
Definition upperCaseAddressTransaction : SafeTransactionParams :=
  {| to := js "0x8B4B268A9AA797FD60889E88AC7BE9A0C4B37FF4";
     value := 0;
     data := transferData;
     operation := 0;
     safeTxGas := 0;
     baseGas := 0;
     gasPrice := 0;
     gasToken := zeroAddress;
     refundReceiver := zeroAddress;
     nonce := 60 |}.

(** The example transaction with a negative value. *)
Definition negativeValueTransaction : SafeTransactionParams :=
  {| to := to exampleSafeTransaction;
     value := -1;
     data := transferData;
     operation := 0;
     safeTxGas := 0;
     baseGas := 0;
     gasPrice := 0;
     gasToken := zeroAddress;
     refundReceiver := zeroAddress;
     nonce := 60 |}.

(** The domain of the test on a chain whose id is not a safe integer. *)
Definition unsafeChainDomain : DomainData :=
  {| chainId := 2 ^ 53;
     verifyingContract := verifyingContract testDomain |}.

(** The address of the test domain with the case of its first letter
    changed: mixed case, and no longer its own checksum. *)
Definition badChecksumAddress : EthAddress :=
  js "0xdb73ba19F072D0Fbc865781Ba468A9F8B77aD2C4".

(** Two texts that differ at most in the case of their letters. *)
Definition sameText (a b : jsstring) : Prop := toLowerCase a = toLowerCase b.

Definition sameDomain (d d' : DomainData) : Prop :=
  chainId d = chainId d'
  /\ sameText (verifyingContract d) (verifyingContract d').

(** Two transactions with the same numbers, and the same addresses and
    data up to the case of the hexadecimal digits. *)
Definition sameTransaction (tx tx' : SafeTransactionParams) : Prop :=
  sameText (to tx) (to tx') /\ value tx = value tx'
  /\ sameText (data tx) (data tx') /\ operation tx = operation tx'
  /\ safeTxGas tx = safeTxGas tx' /\ baseGas tx = baseGas tx'
  /\ gasPrice tx = gasPrice tx'
  /\ sameText (gasToken tx) (gasToken tx')
  /\ sameText (refundReceiver tx) (refundReceiver tx')
  /\ nonce tx = nonce tx'.

(** Two transactions whose encodings hold the same words: as
    [sameTransaction], with the data compared by its hash. *)
Definition sameWords (tx tx' : SafeTransactionParams) : Prop :=
  sameText (to tx) (to tx') /\ value tx = value tx'
  /\ Keccak.keccak256 (bytesOfHex (data tx))
     = Keccak.keccak256 (bytesOfHex (data tx'))
  /\ operation tx = operation tx'
  /\ safeTxGas tx = safeTxGas tx' /\ baseGas tx = baseGas tx'
  /\ gasPrice tx = gasPrice tx'
  /\ sameText (gasToken tx) (gasToken tx')
  /\ sameText (refundReceiver tx) (refundReceiver tx')
  /\ nonce tx = nonce tx'.

(** The domain of the test with the Safe address in lower case. *)
Definition lowerCaseDomain : DomainData :=
  {| chainId := 59144;
     verifyingContract := js "0xdb73ba19f072d0fbc865781ba468a9f8b77ad2c4" |}.

(** The transaction of the hasher test with [to] in lower case and the
    data in upper case. *)
Definition otherCaseTransaction : SafeTransactionParams :=
  {| to := js "0x8b4b268a9aa797fd60889e88ac7be9a0c4b37ff4";
     value := 0;
     data := upperCaseTransferData;
     operation := 0;
     safeTxGas := 0;
     baseGas := 0;
     gasPrice := 0;
     gasToken := zeroAddress;
     refundReceiver := zeroAddress;
     nonce := 60 |}.

(** The domain the command line uses when it is given no chain and no
    Safe address: chain 1 and the zero address. *)
Definition defaultDomain : DomainData :=
  {| chainId := 1; verifyingContract := zeroAddress |}.

(** The two type hashes, as the Safe contract (version 1.3.0) declares
    them and as the hasher test expects them. *)
Definition safeTypeHashes : TypeHashes :=
  {| safeTxTypeHash :=
       js "0xbb8310d486368db6bd6f849402fdd73ad53d316b5a4b2644ad6efe0f941286d8";
     domainSeparatorTypeHash :=
       js "0x47e79534a245952e8b16893a336b85a3d9ea9fa8c573f3d803afb92a79469218" |}.

(** A transfer call whose address word has bits set above the twenty
    bytes of an address. *)
Definition dirtyAddressCall : jsstring :=
  js "0xa9059cbbffffffffffffffffffffffff8b4b268a9aa797fd60889e88ac7be9a0c4b37ff40000000000000000000000000000000000000000000000000000000511b5ac00".

(** * Properties *)

(** ** Bytes and big-endian integers *)

Lemma Z_of_byte_range (b : byte) : 0 <= Z_of_byte b < 256.
Proof. destruct b; vm_compute; split; congruence. Qed.

Lemma byte_of_Z_of_byte (b : byte) : byte_of_Z (Z_of_byte b) = b.
Proof. destruct b; reflexivity. Qed.

Lemma byte_of_Z_mod (z : Z) : byte_of_Z (z mod 256) = byte_of_Z z.
Proof. unfold byte_of_Z. rewrite Z.mod_mod by lia. reflexivity. Qed.

Lemma byte_of_Z_shift (b : byte) (k : Z) : byte_of_Z (256 * k + Z_of_byte b) = b.
Proof.
  rewrite <- byte_of_Z_mod.
  replace (256 * k + Z_of_byte b) with (Z_of_byte b + k * 256) by lia.
  rewrite Z.mod_add by lia.
  rewrite byte_of_Z_mod. apply byte_of_Z_of_byte.
Qed.

Lemma be_bytes_S (n : nat) (z : Z) :
  be_bytes (S n) z = be_bytes n (z / 256) ++ [byte_of_Z z].
Proof. reflexivity. Qed.

Lemma be_bytes_length (n : nat) (z : Z) : length (be_bytes n z) = n.
Proof.
  revert z; induction n as [|n IH]; intros z; simpl; [reflexivity|].
  rewrite length_app, IH. simpl. lia.
Qed.

Lemma be_bytes_zero (n : nat) : be_bytes n 0 = repeat x00 n.
Proof.
  induction n as [|n IH]; [reflexivity|].
  rewrite be_bytes_S, Z.div_0_l by lia. rewrite IH.
  change (byte_of_Z 0) with x00.
  symmetry. apply repeat_cons.
Qed.

Lemma be_value_app (bs : list byte) (b : byte) :
  be_value (bs ++ [b]) = 256 * be_value bs + Z_of_byte b.
Proof. unfold be_value. rewrite fold_left_app. reflexivity. Qed.

Lemma be_value_range (bs : list byte) : 0 <= be_value bs < 256 ^ Z.of_nat (length bs).
Proof.
  induction bs as [|b bs IH] using rev_ind.
  { change (0 <= 0 < 1). lia. }
  rewrite be_value_app, length_app. simpl length.
  replace (Z.of_nat (length bs + 1)) with (Z.succ (Z.of_nat (length bs))) by lia.
  rewrite Z.pow_succ_r by lia.
  pose proof (Z_of_byte_range b). lia.
Qed.

(** Writing a value on more bytes than it was read from pads it with zeros
    on the left. *)
Lemma be_bytes_be_value (bs : list byte) (k : nat) :
  be_bytes (k + length bs) (be_value bs) = repeat x00 k ++ bs.
Proof.
  induction bs as [|b bs IH] using rev_ind.
  - simpl. rewrite Nat.add_0_r, app_nil_r. apply be_bytes_zero.
  - rewrite be_value_app, length_app. simpl length.
    replace (k + (length bs + 1))%nat with (S (k + length bs)) by lia.
    rewrite be_bytes_S.
    pose proof (Z_of_byte_range b) as Hb.
    replace ((256 * be_value bs + Z_of_byte b) / 256) with (be_value bs)
      by (apply Z.div_unique with (r := Z_of_byte b); lia).
    rewrite IH, byte_of_Z_shift, app_assoc. reflexivity.
Qed.

Lemma be_value_be_bytes (n : nat) (z : Z) :
  be_value (be_bytes n z) = z mod 256 ^ Z.of_nat n.
Proof.
  revert z; induction n as [|n IH]; intros z.
  - simpl. rewrite Z.mod_1_r. reflexivity.
  - rewrite be_bytes_S, be_value_app, IH.
    replace (Z.of_nat (S n)) with (Z.succ (Z.of_nat n)) by lia.
    rewrite Z.pow_succ_r by lia.
    assert (Hb : Z_of_byte (byte_of_Z z) = z mod 256).
    { rewrite <- byte_of_Z_mod.
      pose proof (Z.mod_pos_bound z 256 ltac:(lia)) as Hr.
      unfold byte_of_Z. rewrite Z.mod_mod by lia.
      destruct (Byte.of_N (Z.to_N (z mod 256))) as [b|] eqn:E.
      - apply Byte.to_of_N in E. unfold Z_of_byte. rewrite E. lia.
      - apply Byte.of_N_None_iff in E. lia. }
    rewrite Hb.
    assert (Hp : 0 < 256 ^ Z.of_nat n) by (apply Z.pow_pos_nonneg; lia).
    rewrite (Z.rem_mul_r z 256 (256 ^ Z.of_nat n)) by lia.
    lia.
Qed.

(** ** Hexadecimal text *)

Lemma pair_induction {A} (P : list A -> Prop) :
  P [] -> (forall c, P [c]) -> (forall c d l, P l -> P (c :: d :: l)) ->
  forall l, P l.
Proof.
  intros H0 H1 H2.
  fix IH 1. intros [|c [|d l]]; [exact H0 | apply H1 | apply H2, IH].
Qed.

Ltac split_bounds :=
  repeat match goal with
    | |- context [?a <=? ?b] => destruct (Z.leb_spec a b)
    | |- context [?a <? ?b] => destruct (Z.ltb_spec a b)
    | |- context [?a =? ?b] => destruct (Z.eqb_spec a b)
    end.

Lemma hexDigitValue_hexDigit (n : Z) :
  0 <= n < 16 -> hexDigitValue (hexDigit n) = Some n.
Proof.
  intros Hn. unfold hexDigitValue, hexDigit.
  split_bounds; cbn [andb]; try (exfalso; lia); f_equal; lia.
Qed.

Lemma hexDigitValue_range (c v : Z) : hexDigitValue c = Some v -> 0 <= v < 16.
Proof.
  unfold hexDigitValue. split_bounds; cbn [andb]; intros Hv; inversion Hv; lia.
Qed.

Ltac decide_bounds :=
  repeat match goal with
    | |- context [?a <=? ?b] =>
        first [ replace (a <=? b) with true by (symmetry; apply Z.leb_le; lia)
              | replace (a <=? b) with false by (symmetry; apply Z.leb_gt; lia) ]
    end.

Lemma char_ranges (c : Z) :
  c < 48 \/ 48 <= c <= 57 \/ 57 < c < 65 \/ 65 <= c <= 70 \/ 70 < c <= 90
  \/ 90 < c < 97 \/ 97 <= c <= 102 \/ 102 < c <= 122 \/ 122 < c.
Proof. lia. Qed.

Ltac by_char_range c :=
  destruct (char_ranges c) as [H|[H|[H|[H|[H|[H|[H|[H|H]]]]]]]];
  decide_bounds; cbn [andb]; decide_bounds; cbn [andb];
  try reflexivity; try (f_equal; lia).

Lemma hexDigitValue_lowerChar (c : Z) : hexDigitValue (lowerChar c) = hexDigitValue c.
Proof. unfold hexDigitValue, lowerChar. by_char_range c. Qed.

Lemma hexDigitValue_upperChar (c : Z) : hexDigitValue (upperChar c) = hexDigitValue c.
Proof. unfold hexDigitValue, upperChar. by_char_range c. Qed.

Lemma parseHexBody_cons2 (h l : Z) (rest : jsstring) :
  parseHexBody (h :: l :: rest) =
  match hexDigitValue h, hexDigitValue l, parseHexBody rest with
  | Some a, Some b, Some bs => Some (byte_of_Z (16 * a + b) :: bs)
  | _, _, _ => None
  end.
Proof. reflexivity. Qed.

Lemma parseHexBody_hexOfByte (b : byte) (rest : jsstring) :
  parseHexBody (hexOfByte b ++ rest) =
  match parseHexBody rest with Some bs => Some (b :: bs) | None => None end.
Proof.
  unfold hexOfByte. cbn [app]. rewrite parseHexBody_cons2.
  pose proof (Z_of_byte_range b) as Hb.
  rewrite !hexDigitValue_hexDigit
    by (split; [apply Z.div_pos || apply Z.mod_pos_bound
               | apply Z.div_lt_upper_bound || apply Z.mod_pos_bound]; lia).
  replace (16 * (Z_of_byte b / 16) + Z_of_byte b mod 16) with (Z_of_byte b)
    by (apply Z.div_mod; lia).
  rewrite byte_of_Z_of_byte. reflexivity.
Qed.

Lemma hexBody_cons (b : byte) (bs : list byte) :
  hexBody (b :: bs) = hexOfByte b ++ hexBody bs.
Proof. reflexivity. Qed.

Lemma hexBody_app (a b : list byte) : hexBody (a ++ b) = hexBody a ++ hexBody b.
Proof. apply flat_map_app. Qed.

Lemma hexBody_length (bs : list byte) : length (hexBody bs) = (2 * length bs)%nat.
Proof. induction bs as [|b bs IH]; simpl in *; lia. Qed.

Lemma parseHexBody_hexBody_app (bs : list byte) (rest : jsstring) :
  parseHexBody (hexBody bs ++ rest) =
  match parseHexBody rest with Some r => Some (bs ++ r) | None => None end.
Proof.
  induction bs as [|b bs IH].
  - simpl. destruct (parseHexBody rest); reflexivity.
  - rewrite hexBody_cons, <- app_assoc, parseHexBody_hexOfByte, IH.
    destruct (parseHexBody rest); reflexivity.
Qed.

(** Reading back what was written. *)
Lemma parseHexBody_hexBody (bs : list byte) : parseHexBody (hexBody bs) = Some bs.
Proof.
  rewrite <- (app_nil_r (hexBody bs)), parseHexBody_hexBody_app.
  simpl. rewrite app_nil_r. reflexivity.
Qed.

Lemma parseHexBody_app (a b : jsstring) (x y : list byte) :
  parseHexBody a = Some x -> parseHexBody b = Some y ->
  parseHexBody (a ++ b) = Some (x ++ y).
Proof.
  revert x. induction a as [|c|c d l IH] using pair_induction; intros x Ha Hb.
  - inversion Ha. exact Hb.
  - discriminate.
  - cbn [app]. rewrite parseHexBody_cons2 in *.
    destruct (hexDigitValue c), (hexDigitValue d); try discriminate.
    destruct (parseHexBody l) as [bs|]; try discriminate.
    inversion Ha; subst. rewrite (IH bs eq_refl Hb). reflexivity.
Qed.

Lemma parseHexBody_length (s : jsstring) (bs : list byte) :
  parseHexBody s = Some bs -> length s = (2 * length bs)%nat.
Proof.
  revert bs. induction s as [|c|c d l IH] using pair_induction; intros bs H.
  - inversion H. reflexivity.
  - discriminate.
  - rewrite parseHexBody_cons2 in H.
    destruct (hexDigitValue c), (hexDigitValue d); try discriminate.
    destruct (parseHexBody l) as [r|]; try discriminate.
    inversion H; subst. simpl. rewrite (IH r eq_refl). lia.
Qed.

Lemma parseHexBody_forallb (s : jsstring) (bs : list byte) :
  parseHexBody s = Some bs -> forallb isHexDigit s = true.
Proof.
  revert bs. induction s as [|c|c d l IH] using pair_induction; intros bs H.
  - reflexivity.
  - discriminate.
  - rewrite parseHexBody_cons2 in H. cbn [forallb]. unfold isHexDigit at 1 2.
    destruct (hexDigitValue c), (hexDigitValue d); try discriminate.
    destruct (parseHexBody l) as [r|]; try discriminate.
    rewrite (IH r eq_refl). reflexivity.
Qed.

Lemma parseHexBody_defined (s : jsstring) :
  forallb isHexDigit s = true -> Nat.even (length s) = true ->
  exists bs, parseHexBody s = Some bs.
Proof.
  induction s as [|c|c d l IH] using pair_induction; intros Hh He.
  - exists []. reflexivity.
  - discriminate.
  - cbn [forallb] in Hh. apply andb_prop in Hh as [Hc Hh].
    apply andb_prop in Hh as [Hd Hh].
    destruct (IH Hh He) as [r Hr].
    rewrite parseHexBody_cons2, Hr. unfold isHexDigit in Hc, Hd.
    destruct (hexDigitValue c), (hexDigitValue d); try discriminate.
    eexists. reflexivity.
Qed.

Lemma parseHexBody_map (f : Z -> Z) (s : jsstring) :
  (forall c, hexDigitValue (f c) = hexDigitValue c) ->
  parseHexBody (map f s) = parseHexBody s.
Proof.
  intros Hf. induction s as [|c|c d l IH] using pair_induction.
  - reflexivity.
  - reflexivity.
  - cbn [map]. rewrite !parseHexBody_cons2, !Hf, IH. reflexivity.
Qed.

Lemma parseHexBody_applyChecksum (chars : jsstring) (hashed : list byte) :
  parseHexBody (EIP55.applyChecksum chars hashed) = parseHexBody chars.
Proof.
  revert hashed. induction chars as [|c|c d l IH] using pair_induction;
    intros hashed.
  - reflexivity.
  - reflexivity.
  - destruct hashed as [|h hs]; [reflexivity|].
    cbn [EIP55.applyChecksum]. rewrite !parseHexBody_cons2, IH.
    destruct (8 <=? Z_of_byte h / 16), (8 <=? Z_of_byte h mod 16);
      rewrite ?hexDigitValue_upperChar; reflexivity.
Qed.

Lemma parseHexBody_skipn (k : nat) (s : jsstring) (bs : list byte) :
  parseHexBody s = Some bs ->
  parseHexBody (skipn (2 * k) s) = Some (skipn k bs).
Proof.
  revert s bs. induction k as [|k IH]; intros s bs H; [exact H|].
  replace (2 * S k)%nat with (S (S (2 * k))) by lia.
  destruct s as [|c [|d l]].
  - inversion H. reflexivity.
  - discriminate.
  - rewrite parseHexBody_cons2 in H.
    destruct (hexDigitValue c), (hexDigitValue d); try discriminate.
    destruct (parseHexBody l) as [r|] eqn:E; try discriminate.
    inversion H; subst. cbn [skipn]. apply IH, E.
Qed.

Lemma parseHexBody_firstn (k : nat) (s : jsstring) (bs : list byte) :
  parseHexBody s = Some bs ->
  parseHexBody (firstn (2 * k) s) = Some (firstn k bs).
Proof.
  revert s bs. induction k as [|k IH]; intros s bs H; [reflexivity|].
  replace (2 * S k)%nat with (S (S (2 * k))) by lia.
  destruct s as [|c [|d l]].
  - inversion H. reflexivity.
  - discriminate.
  - rewrite parseHexBody_cons2 in H.
    destruct (hexDigitValue c) eqn:Ec, (hexDigitValue d) eqn:Ed;
      try discriminate.
    destruct (parseHexBody l) as [r|] eqn:E; try discriminate.
    inversion H; subst. cbn [firstn].
    rewrite parseHexBody_cons2, Ec, Ed, (IH _ _ E). reflexivity.
Qed.

Lemma jseqb_eq (a b : jsstring) : jseqb a b = true <-> a = b.
Proof.
  revert b. induction a as [|x a IH]; intros [|y b]; simpl;
    try (split; [discriminate || reflexivity | discriminate || reflexivity]).
  rewrite andb_true_iff, Z.eqb_eq, IH.
  split; [intros [-> ->]; reflexivity | intros H; inversion H; auto].
Qed.

Lemma jseqb_refl (a : jsstring) : jseqb a a = true.
Proof. apply jseqb_eq. reflexivity. Qed.

(** ** Numbers in hexadecimal *)

Lemma hexDigits_length (k : nat) (n : Z) : length (hexDigits k n) = k.
Proof.
  revert n. induction k as [|k IH]; intros n; [reflexivity|].
  cbn [hexDigits]. rewrite length_app, IH. cbn [length]. lia.
Qed.

Lemma hexDigits_zero (k : nat) : hexDigits k 0 = repeat 48 k.
Proof.
  induction k as [|k IH]; [reflexivity|].
  cbn [hexDigits]. rewrite Z.div_0_l by lia. rewrite IH.
  change (hexDigit (0 mod 16)) with 48. symmetry. apply repeat_cons.
Qed.

Lemma pow16_succ (j : nat) : 16 ^ Z.of_nat (S j) = 16 * 16 ^ Z.of_nat j.
Proof.
  replace (Z.of_nat (S j)) with (Z.succ (Z.of_nat j)) by lia.
  apply Z.pow_succ_r. lia.
Qed.

Lemma div16_bound (n : Z) (j : nat) :
  0 <= n < 16 ^ Z.of_nat (S j) -> 0 <= n / 16 < 16 ^ Z.of_nat j.
Proof.
  rewrite pow16_succ. intros H. split.
  - apply Z.div_pos; lia.
  - apply Z.div_lt_upper_bound; lia.
Qed.

(** Digits beyond the size of the number are zeros. *)
Lemma hexDigits_pad (j k : nat) (n : Z) :
  0 <= n < 16 ^ Z.of_nat j ->
  hexDigits (k + j) n = repeat 48 k ++ hexDigits j n.
Proof.
  revert n. induction j as [|j IH]; intros n H.
  - assert (n = 0) by (change (16 ^ Z.of_nat 0) with 1 in H; lia). subst n.
    rewrite Nat.add_0_r, hexDigits_zero. cbn [hexDigits]. rewrite app_nil_r.
    reflexivity.
  - replace (k + S j)%nat with (S (k + j)) by lia. cbn [hexDigits].
    rewrite (IH _ (div16_bound _ _ H)), app_assoc. reflexivity.
Qed.

Lemma toString16_from_digits (fuel : nat) (n : Z) (acc : jsstring) :
  0 <= n < 16 ^ Z.of_nat (S fuel) ->
  exists j, (1 <= j)%nat /\ n < 16 ^ Z.of_nat j
            /\ (j = 1%nat \/ 16 ^ Z.of_nat (j - 1) <= n)
            /\ toString16_from (S fuel) n acc = hexDigits j n ++ acc.
Proof.
  revert n acc. induction fuel as [|fuel IH]; intros n acc H;
    cbn [toString16_from]; destruct (Z.ltb_spec n 16) as [Hs|Hs].
  - exists 1%nat. repeat split; [lia | exact Hs | left; reflexivity].
  - change (16 ^ Z.of_nat 1) with 16 in H. lia.
  - exists 1%nat. repeat split; [lia | exact Hs | left; reflexivity].
  - destruct (IH (n / 16) (hexDigit (n mod 16) :: acc) (div16_bound _ _ H))
      as (j & Hj & Hn & Hmin & E).
    pose proof (Z.div_mod n 16 ltac:(lia)) as Hdm.
    pose proof (Z.mod_pos_bound n 16 ltac:(lia)) as Hmod.
    exists (S j). split; [lia|]. split; [rewrite pow16_succ; lia|]. split.
    + right. replace (S j - 1)%nat with j by lia.
      destruct Hmin as [->|Hmin]; [change (16 ^ Z.of_nat 1) with 16; lia|].
      replace j with (S (j - 1)) at 1 by lia. rewrite pow16_succ. lia.
    + cbn [toString16_from] in E. rewrite E. cbn [hexDigits].
      rewrite <- app_assoc. reflexivity.
Qed.

(** [toString(16)] writes the digits of the number, without leading zeros. *)
Lemma toString16_digits (n : Z) (k : nat) :
  (1 <= k)%nat -> 0 <= n < 16 ^ Z.of_nat k ->
  exists j, (1 <= j <= k)%nat /\ n < 16 ^ Z.of_nat j
            /\ toString16 n = hexDigits j n.
Proof.
  intros Hk H. unfold toString16.
  assert (Hf : 0 <= n < 16 ^ Z.of_nat (S (Z.to_nat (Z.log2 n)))).
  { split; [lia|]. destruct (Z.eq_dec n 0) as [->|Hn]; [reflexivity|].
    pose proof (Z.log2_spec n ltac:(lia)) as [_ Hl].
    pose proof (Z.log2_nonneg n).
    replace (Z.of_nat (S (Z.to_nat (Z.log2 n)))) with (Z.succ (Z.log2 n)) by lia.
    eapply Z.lt_le_trans; [exact Hl|]. apply Z.pow_le_mono_l. lia. }
  destruct (toString16_from_digits _ n [] Hf) as (j & Hj & Hn & Hmin & E).
  rewrite app_nil_r in E.
  exists j. split; [|split; [exact Hn|exact E]].
  split; [exact Hj|]. destruct Hmin as [->|Hmin]; [exact Hk|].
  assert (Hlt : 16 ^ Z.of_nat (j - 1) < 16 ^ Z.of_nat k) by lia.
  apply Z.pow_lt_mono_r_iff in Hlt; lia.
Qed.

Lemma padStart_toString16 (n : Z) (k : nat) :
  (1 <= k)%nat -> 0 <= n < 16 ^ Z.of_nat k ->
  (length (toString16 n) <= k)%nat
  /\ padStart k 48 (toString16 n) = hexDigits k n.
Proof.
  intros Hk H. destruct (toString16_digits n k Hk H) as (j & Hj & Hn & ->).
  rewrite hexDigits_length. split; [lia|].
  unfold padStart. rewrite hexDigits_length.
  replace k with ((k - j) + j)%nat at 2 by lia.
  symmetry. apply hexDigits_pad. lia.
Qed.

Lemma Z_of_byte_of_Z (z : Z) : Z_of_byte (byte_of_Z z) = z mod 256.
Proof.
  pose proof (Z.mod_pos_bound z 256 ltac:(lia)) as Hr.
  unfold byte_of_Z.
  destruct (Byte.of_N (Z.to_N (z mod 256))) as [b|] eqn:E.
  - apply Byte.to_of_N in E. unfold Z_of_byte. rewrite E. lia.
  - apply Byte.of_N_None_iff in E. lia.
Qed.

(** The hex of the big-endian bytes of a number are its digits. *)
Lemma hexBody_be_bytes (m : nat) (n : Z) :
  hexBody (be_bytes m n) = hexDigits (2 * m) n.
Proof.
  revert n. induction m as [|m IH]; intros n; [reflexivity|].
  rewrite be_bytes_S, hexBody_app, IH.
  replace (2 * S m)%nat with (S (S (2 * m))) by lia.
  cbn [hexDigits hexBody flat_map]. rewrite app_nil_r. unfold hexOfByte.
  rewrite Z_of_byte_of_Z, <- app_assoc. cbn [app].
  replace (n / 16 / 16) with (n / 256) by (rewrite Z.div_div by lia; reflexivity).
  replace (n mod 256 / 16) with (n / 16 mod 16).
  2:{ change 256 with (16 * 16). rewrite Z.rem_mul_r by lia.
      rewrite (Z.mul_comm 16 (n / 16 mod 16)), Z.div_add by lia.
      rewrite (Z.div_small (n mod 16) 16) by (apply Z.mod_pos_bound; lia).
      reflexivity. }
  replace (n mod 256 mod 16) with (n mod 16).
  2:{ change 256 with (16 * 16). rewrite Z.rem_mul_r by lia.
      rewrite (Z.mul_comm 16 (n / 16 mod 16)), Z.mod_add by lia.
      rewrite Z.mod_mod by lia. reflexivity. }
  reflexivity.
Qed.

Lemma pow16_256 (m : nat) : 16 ^ Z.of_nat (2 * m) = 256 ^ Z.of_nat m.
Proof.
  replace (Z.of_nat (2 * m)) with (2 * Z.of_nat m) by lia.
  rewrite Z.pow_mul_r by lia. reflexivity.
Qed.

(** ** The library calls on well-formed values *)

Lemma js_0x : js "0x" = [48; 120].
Proof. reflexivity. Qed.

Lemma startsWith_0x (s : jsstring) :
  startsWith s (js "0x") = true -> s = 48 :: 120 :: skipn 2 s.
Proof.
  rewrite js_0x. destruct s as [|a [|b s]]; simpl; try discriminate.
  - rewrite andb_false_r. discriminate.
  - intros H. apply andb_prop in H as [Ha H]. apply andb_prop in H as [Hb _].
    apply Z.eqb_eq in Ha, Hb. subst. reflexivity.
Qed.

Lemma replace0x_0x (body : jsstring) : replace0x (48 :: 120 :: body) = body.
Proof. reflexivity. Qed.

Lemma Ethers_getBytes_0x (body : jsstring) :
  Ethers.getBytesOfString (48 :: 120 :: body) = parseHexBody body.
Proof. reflexivity. Qed.

Lemma Ethers_getBytes_hexlify (bs : list byte) :
  Ethers.getBytesOfString (Ethers.hexlify bs) = Some bs.
Proof.
  unfold Ethers.hexlify. rewrite js_0x. cbn [app].
  rewrite Ethers_getBytes_0x. apply parseHexBody_hexBody.
Qed.

Lemma Ethers_keccak256_hex (body : jsstring) (bs : list byte) :
  parseHexBody body = Some bs ->
  Ethers.keccak256 (Ethers.HexString (48 :: 120 :: body))
  = Some (Ethers.hexlify (Keccak.keccak256 bs)).
Proof.
  intros H. unfold Ethers.keccak256, Ethers.getBytes.
  rewrite Ethers_getBytes_0x, H. reflexivity.
Qed.

Lemma Viem_hexToBytes_0x (body : jsstring) (bs : list byte) :
  parseHexBody body = Some bs -> Viem.hexToBytes (48 :: 120 :: body) = Some bs.
Proof.
  intros H. unfold Viem.hexToBytes. cbn [skipn].
  rewrite (parseHexBody_length _ _ H), Nat.odd_even. exact H.
Qed.

Lemma Viem_keccak256_hex (body : jsstring) (bs : list byte) :
  parseHexBody body = Some bs ->
  Viem.keccak256 (48 :: 120 :: body)
  = Some (Viem.bytesToHex (Keccak.keccak256 bs)).
Proof.
  intros H. unfold Viem.keccak256, Viem.toBytes, Viem.isHex.
  rewrite js_0x. cbn [startsWith skipn]. rewrite !Z.eqb_refl.
  rewrite (parseHexBody_forallb _ _ H). cbn [andb].
  rewrite (Viem_hexToBytes_0x _ _ H). reflexivity.
Qed.

Lemma keccak256_length (m : list byte) : length (Keccak.keccak256 m) = 32%nat.
Proof. reflexivity. Qed.

(** The proofs below never look into the permutation. *)
Opaque Keccak.keccak256.

(** Well-formed data spells bytes. *)
Lemma wf_data_bytes (d : HexData) :
  wf_data d = true ->
  d = 48 :: 120 :: skipn 2 d /\ parseHexBody (skipn 2 d) = Some (bytesOfHex d).
Proof.
  unfold wf_data, Viem.isHex. intros H.
  apply andb_prop in H as [H He]. apply andb_prop in H as [Hp Hh].
  pose proof (startsWith_0x _ Hp) as Hd. split; [exact Hd|].
  assert (He' : Nat.even (length (skipn 2 d)) = true).
  { rewrite Hd in He. exact He. }
  destruct (parseHexBody_defined _ Hh He') as [bs Hbs].
  unfold bytesOfHex. rewrite Hbs. reflexivity.
Qed.

Lemma lowerChar_fixed_not_upper (c : Z) :
  lowerChar c = c -> (65 <=? c) && (c <=? 70) = false.
Proof.
  unfold lowerChar. intros H.
  destruct (char_ranges c) as [R|[R|[R|[R|[R|[R|[R|[R|R]]]]]]]];
    revert H; decide_bounds; cbn [andb]; intros H; try reflexivity; lia.
Qed.

Lemma lower_case_no_upper (s : jsstring) :
  toLowerCase s = s -> Ethers.hasUpperHex s = false.
Proof.
  induction s as [|c s IH]; [reflexivity|].
  cbn [toLowerCase map]. intros H. inversion H as [[Hc Hs]].
  unfold Ethers.hasUpperHex in *. cbn [existsb].
  rewrite Hc, (lowerChar_fixed_not_upper c Hc). rewrite Hs. apply IH, Hs.
Qed.

Lemma addressWord_20 (bs : list byte) :
  length bs = 20%nat -> be_bytes 32 (be_value bs) = addressWord bs.
Proof.
  intros H. unfold addressWord. rewrite H.
  change 32%nat with (12 + 20)%nat at 1. rewrite <- H at 1.
  apply be_bytes_be_value.
Qed.

Lemma be_value_20_range (bs : list byte) :
  length bs = 20%nat -> 0 <= be_value bs < 2 ^ 160.
Proof.
  intros H. pose proof (be_value_range bs) as R. rewrite H in R.
  change (256 ^ Z.of_nat 20) with (2 ^ 160) in R. exact R.
Qed.

Lemma pow_160_256 : 2 ^ 160 < 2 ^ 256.
Proof. reflexivity. Qed.

Lemma wf_uint256_range (n : Z) : wf_uint256 n = true <-> 0 <= n < 2 ^ 256.
Proof. unfold wf_uint256. rewrite andb_true_iff, Z.leb_le, Z.ltb_lt. tauto. Qed.

(** [toBeArray] gives the shortest big-endian form of the value. *)
Lemma Ethers_toBeArray (n : Z) :
  0 < n < 2 ^ 256 ->
  exists m, (m <= 32)%nat /\ n < 256 ^ Z.of_nat m
            /\ Ethers.toBeArray n = Some (be_bytes m n).
Proof.
  intros H. unfold Ethers.toBeArray.
  replace (n <? 0) with false by (symmetry; apply Z.ltb_ge; lia).
  replace (n =? 0) with false by (symmetry; apply Z.eqb_neq; lia).
  destruct (toString16_digits n 64 ltac:(lia)) as (j & Hj & Hn & ->).
  { change (16 ^ Z.of_nat 64) with (2 ^ 256). lia. }
  rewrite hexDigits_length. destruct (Nat.odd j) eqn:Ej.
  - apply Nat.odd_spec in Ej as [k ->]. exists (S k).
    assert (Hb : n < 16 ^ Z.of_nat (2 * S k)).
    { replace (2 * S k)%nat with (S (2 * k + 1)) by lia.
      rewrite pow16_succ.
      assert (0 < 16 ^ Z.of_nat (2 * k + 1)) by (apply Z.pow_pos_nonneg; lia).
      lia. }
    split; [lia|]. split; [rewrite <- pow16_256; exact Hb|].
    change (48 :: hexDigits (2 * k + 1) n)
      with (repeat 48 1 ++ hexDigits (2 * k + 1) n).
    rewrite <- hexDigits_pad by lia.
    replace (1 + (2 * k + 1))%nat with (2 * S k)%nat by lia.
    rewrite <- hexBody_be_bytes. apply parseHexBody_hexBody.
  - assert (Ee : Nat.even j = true).
    { rewrite <- Nat.negb_odd, Ej. reflexivity. }
    apply Nat.even_spec in Ee as [k ->]. exists k.
    split; [lia|]. split; [rewrite <- pow16_256; exact Hn|].
    rewrite <- hexBody_be_bytes. apply parseHexBody_hexBody.
Qed.

Lemma skipn_repeat {A} (x : A) (k n : nat) :
  skipn k (repeat x n) = repeat x (n - k).
Proof.
  revert k. induction n as [|n IH]; intros [|k]; try reflexivity.
  cbn [repeat skipn]. rewrite IH. reflexivity.
Qed.

Lemma be_bytes_pad (k m : nat) (n : Z) :
  0 <= n < 256 ^ Z.of_nat m ->
  repeat x00 k ++ be_bytes m n = be_bytes (k + m) n.
Proof.
  intros H. pose proof (be_bytes_be_value (be_bytes m n) k) as E.
  rewrite be_bytes_length, be_value_be_bytes, Z.mod_small in E by exact H.
  symmetry. exact E.
Qed.

Lemma Ethers_writeValue_uint (n : Z) :
  wf_uint256 n = true -> Ethers.AbiCoder.writeValue n = Some (uintWord n).
Proof.
  intros H. apply wf_uint256_range in H. unfold Ethers.AbiCoder.writeValue.
  destruct (Z.eq_dec n 0) as [->|Hn]; [reflexivity|].
  destruct (Ethers_toBeArray n ltac:(lia)) as (m & Hm & Hb & ->).
  cbn [option_bind]. rewrite be_bytes_length.
  replace (32 <? m)%nat with false by (symmetry; apply Nat.ltb_ge; lia).
  destruct (Nat.eqb_spec m 32) as [->|Hne]; [reflexivity|].
  rewrite Nat.mod_small by lia. unfold Ethers.AbiCoder.Padding.
  rewrite skipn_repeat. rewrite be_bytes_pad by lia.
  replace (32 - m + m)%nat with 32%nat by lia. reflexivity.
Qed.

Lemma Viem_numberToHex (n : Z) :
  wf_uint256 n = true ->
  Viem.numberToHex n = Some (48 :: 120 :: hexBody (uintWord n)).
Proof.
  intros H. apply wf_uint256_range in H. unfold Viem.numberToHex.
  replace ((0 <=? n) && (n <=? 2 ^ 256 - 1)) with true
    by (symmetry; apply andb_true_intro; split; apply Z.leb_le; lia).
  destruct (padStart_toString16 n 64 ltac:(lia)) as [Hl Hp].
  { change (16 ^ Z.of_nat 64) with (2 ^ 256). exact H. }
  unfold Viem.padHex. rewrite js_0x. cbn [app]. rewrite replace0x_0x.
  replace (64 <? length (toString16 n))%nat with false
    by (symmetry; apply Nat.ltb_ge; exact Hl).
  rewrite Hp. unfold uintWord. rewrite hexBody_be_bytes. reflexivity.
Qed.

(** [toBeHex] of a 20-byte value is the hex of the bytes. *)
Lemma Ethers_toBeHex_address (bs : list byte) :
  length bs = 20%nat ->
  Ethers.toBeHex (be_value bs) 20 = Some (Ethers.hexlify bs).
Proof.
  intros H. pose proof (be_value_range bs) as R. rewrite H in R.
  unfold Ethers.toBeHex.
  replace (be_value bs <? 0) with false by (symmetry; apply Z.ltb_ge; lia).
  destruct (padStart_toString16 (be_value bs) 40 ltac:(lia)) as [Hl Hp].
  { change (Z.of_nat 40) with (Z.of_nat (2 * 20)).
    rewrite (pow16_256 20). exact R. }
  replace (2 * 20 <? length (toString16 (be_value bs)))%nat with false
    by (symmetry; apply Nat.ltb_ge; exact Hl).
  change (padStart 40) with (padStart (2 * 20)) in Hp.
  change (hexDigits 40) with (hexDigits (2 * 20)) in Hp.
  rewrite Hp, <- (hexBody_be_bytes 20).
  pose proof (be_bytes_be_value bs 0) as E. cbn [Nat.add repeat app] in E.
  rewrite H in E. rewrite E. reflexivity.
Qed.

(** On forty digits the checksum of ethers is the checksum of viem. *)
Lemma getChecksumAddress_40 (a : jsstring) :
  length (skipn 2 a) = 40%nat ->
  Ethers.getChecksumAddress a = EIP55.checksumAddress a.
Proof.
  intros H. unfold Ethers.getChecksumAddress, EIP55.checksumAddress.
  assert (Hl : length (skipn 2 (toLowerCase a)) = 40%nat).
  { unfold toLowerCase. rewrite skipn_map, length_map. exact H. }
  rewrite (firstn_all2 (n := 40)) by (rewrite Hl; apply Nat.le_refl).
  rewrite (skipn_all2 (n := 40)) by (rewrite Hl; apply Nat.le_refl).
  rewrite app_nil_r. reflexivity.
Qed.

Section WellFormedAddress.

Variable a : EthAddress.
Hypothesis Hwf : wf_address a = true.

(** A well-formed address spells twenty bytes, both libraries accept it,
    and its checksummed form spells the same bytes. *)
Lemma wf_address_bytes :
  a = 48 :: 120 :: skipn 2 a
  /\ parseHexBody (skipn 2 a) = Some (bytesOfHex a)
  /\ length (bytesOfHex a) = 20%nat
  /\ length (skipn 2 a) = 40%nat
  /\ Ethers.getAddress a = Some (EIP55.checksumAddress a)
  /\ Ethers.getBytesOfString (EIP55.checksumAddress a) = Some (bytesOfHex a).
Proof.
  pose proof Hwf as H. unfold wf_address, Viem.isAddress in H.
  apply andb_prop in H as [H Hcase]. apply andb_prop in H as [Hp H40].
  pose proof (startsWith_0x _ Hp) as Ha.
  unfold Ethers.is40Hex in H40. pose proof H40 as H40'.
  apply andb_prop in H40 as [Hlen Hhex]. apply Nat.eqb_eq in Hlen.
  assert (He : Nat.even (length (skipn 2 a)) = true) by (rewrite Hlen; reflexivity).
  destruct (parseHexBody_defined _ Hhex He) as [bs Hbs].
  assert (Hb : bytesOfHex a = bs) by (unfold bytesOfHex; rewrite Hbs; reflexivity).
  pose proof (parseHexBody_length _ _ Hbs) as Hl.
  rewrite Hb. repeat split; try assumption; try lia.
  - unfold Ethers.getAddress. rewrite Hp. unfold Ethers.is40Hex.
    rewrite H40'. cbn [andb option_bind].
    rewrite (getChecksumAddress_40 _ Hlen).
    apply orb_prop in Hcase as [Hlow|Hsum].
    + apply jseqb_eq in Hlow. rewrite (lower_case_no_upper _ Hlow). reflexivity.
    + rewrite Hsum. cbn [negb]. rewrite !andb_false_r. reflexivity.
  - unfold EIP55.checksumAddress. rewrite js_0x. cbn [app].
    rewrite Ethers_getBytes_0x, parseHexBody_applyChecksum.
    unfold toLowerCase. rewrite skipn_map.
    rewrite (parseHexBody_map lowerChar _ hexDigitValue_lowerChar). exact Hbs.
Qed.

Lemma Ethers_encode_address :
  Ethers.AbiCoder.encodeValue address (JString a)
  = Some (addressWord (bytesOfHex a)).
Proof.
  destruct wf_address_bytes as (_ & _ & Hl & _ & Hg & Hb).
  unfold Ethers.AbiCoder.encodeValue. rewrite Hg. cbn [option_bind].
  rewrite Hb. cbn [option_bind].
  pose proof (be_value_20_range _ Hl) as R. pose proof pow_160_256.
  rewrite Ethers_writeValue_uint by (apply wf_uint256_range; lia).
  unfold uintWord. rewrite (addressWord_20 _ Hl). reflexivity.
Qed.

(** viem writes the address in lower case, padded with zero digits. *)
Lemma Viem_encode_address_padded :
  parseHexBody (repeat 48 24 ++ toLowerCase (skipn 2 a))
  = Some (addressWord (bytesOfHex a)).
Proof.
  destruct wf_address_bytes as (_ & Hp & Hl & _).
  unfold addressWord. rewrite Hl.
  apply (parseHexBody_app (repeat 48 24) _ (repeat x00 (32 - 20))).
  - reflexivity.
  - unfold toLowerCase.
    rewrite (parseHexBody_map lowerChar _ hexDigitValue_lowerChar). exact Hp.
Qed.

End WellFormedAddress.

Lemma Ethers_encode_bytes32 (bs : list byte) :
  length bs = 32%nat ->
  Ethers.AbiCoder.encodeValue bytes32 (JString (Ethers.hexlify bs)) = Some bs.
Proof.
  intros H. unfold Ethers.AbiCoder.encodeValue.
  rewrite Ethers_getBytes_hexlify. cbn [option_bind]. rewrite H. reflexivity.
Qed.

Lemma Ethers_encode_uint256 (n : Z) :
  wf_uint256 n = true ->
  Ethers.AbiCoder.encodeValue uint256 (JBigInt n) = Some (uintWord n).
Proof.
  intros H. unfold Ethers.AbiCoder.encodeValue, Ethers.AbiCoder.getBigInt.
  cbn [option_bind uintBits]. pose proof H as H'. unfold wf_uint256 in H'.
  rewrite H'. apply Ethers_writeValue_uint, H.
Qed.

Lemma wf_number_uint256 (n : Z) : wf_number n = true -> wf_uint256 n = true.
Proof.
  unfold wf_number, wf_uint256, MAX_SAFE_INTEGER. intros H.
  apply andb_prop in H as [H0 H1]. apply Z.leb_le in H0, H1.
  assert (0x1fffffffffffff < 2 ^ 256) by reflexivity.
  apply andb_true_intro; split; [apply Z.leb_le | apply Z.ltb_lt]; lia.
Qed.

Lemma Ethers_encode_number (n : Z) :
  wf_number n = true ->
  Ethers.AbiCoder.encodeValue uint256 (JNumber n) = Some (uintWord n).
Proof.
  intros H. unfold Ethers.AbiCoder.encodeValue, Ethers.AbiCoder.getBigInt.
  pose proof H as H'. unfold wf_number in H'.
  apply andb_prop in H' as [H0 H1]. apply Z.leb_le in H0, H1.
  replace ((- MAX_SAFE_INTEGER <=? n) && (n <=? MAX_SAFE_INTEGER)) with true
    by (symmetry; apply andb_true_intro; split; apply Z.leb_le;
        unfold MAX_SAFE_INTEGER in *; lia).
  cbn [option_bind uintBits]. pose proof (wf_number_uint256 n H) as Hu.
  pose proof Hu as Hu'. unfold wf_uint256 in Hu'. rewrite Hu'.
  apply Ethers_writeValue_uint, Hu.
Qed.

Lemma Ethers_encode_operation (op : Z) :
  wf_operation op = true ->
  Ethers.AbiCoder.encodeValue uint8 (JNumber op) = Some (uintWord op).
Proof.
  unfold wf_operation. intros H.
  apply orb_prop in H as [H|H]; apply Z.eqb_eq in H; subst; reflexivity.
Qed.

Lemma hexlify_cons (bs : list byte) : Ethers.hexlify bs = 48 :: 120 :: hexBody bs.
Proof. reflexivity. Qed.

Lemma bytesToHex_cons (bs : list byte) : Viem.bytesToHex bs = 48 :: 120 :: hexBody bs.
Proof. reflexivity. Qed.

Lemma Viem_encode_bytes32 (bs : list byte) :
  length bs = 32%nat ->
  Viem.encodeValue bytes32 (JString (48 :: 120 :: hexBody bs))
  = Some (48 :: 120 :: hexBody bs).
Proof.
  intros H. unfold Viem.encodeValue, Viem.size, Viem.padHex.
  rewrite js_0x. cbn [startsWith length]. rewrite !Z.eqb_refl. cbn [andb].
  rewrite replace0x_0x, hexBody_length, H. cbn [app].
  unfold padEnd. rewrite hexBody_length, H. cbn. rewrite app_nil_r. reflexivity.
Qed.

Lemma toLowerCase_0x (body : jsstring) :
  toLowerCase (48 :: 120 :: body) = 48 :: 120 :: toLowerCase body.
Proof. reflexivity. Qed.

Lemma Viem_encode_address (a : EthAddress) :
  wf_address a = true ->
  Viem.encodeValue address (JString a)
  = Some (48 :: 120 :: repeat 48 24 ++ toLowerCase (skipn 2 a))
  /\ parseHexBody (repeat 48 24 ++ toLowerCase (skipn 2 a))
     = Some (addressWord (bytesOfHex a)).
Proof.
  intros H. split; [|apply Viem_encode_address_padded, H].
  destruct (wf_address_bytes a H) as (Ha & _ & _ & H40 & _ & _).
  unfold wf_address in H.
  destruct a as [|x [|y body]]; try discriminate Ha.
  cbn [skipn] in *. injection Ha as -> ->.
  unfold Viem.encodeValue. rewrite H.
  unfold Viem.padHex. rewrite toLowerCase_0x, replace0x_0x.
  unfold padStart, toLowerCase. rewrite length_map, H40. reflexivity.
Qed.

Lemma Viem_encode_uint256 (n : Z) :
  wf_uint256 n = true ->
  Viem.encodeValue uint256 (JBigInt n) = Some (48 :: 120 :: hexBody (uintWord n)).
Proof.
  intros H. unfold Viem.encodeValue. cbn [uintBits].
  rewrite (Viem_numberToHex n H). unfold wf_uint256 in H. rewrite H.
  reflexivity.
Qed.

Lemma Viem_encode_operation (op : Z) :
  wf_operation op = true ->
  Viem.encodeValue uint8 (JNumber op) = Some (48 :: 120 :: hexBody (uintWord op)).
Proof.
  unfold wf_operation. intros H.
  apply orb_prop in H as [H|H]; apply Z.eqb_eq in H; subst; reflexivity.
Qed.

(** ** The hashers on well-formed records *)

Lemma wf_tx_fields (tx : SafeTransactionParams) :
  wf_tx tx = true ->
  wf_address (to tx) = true /\ wf_uint256 (value tx) = true
  /\ wf_data (data tx) = true /\ wf_operation (operation tx) = true
  /\ wf_uint256 (safeTxGas tx) = true /\ wf_uint256 (baseGas tx) = true
  /\ wf_uint256 (gasPrice tx) = true /\ wf_address (gasToken tx) = true
  /\ wf_address (refundReceiver tx) = true /\ wf_number (nonce tx) = true.
Proof.
  unfold wf_tx. rewrite !andb_true_iff. tauto.
Qed.

Lemma wf_domain_fields (d : DomainData) :
  wf_domain d = true ->
  wf_number (chainId d) = true /\ wf_address (verifyingContract d) = true.
Proof. unfold wf_domain. rewrite andb_true_iff. tauto. Qed.

Lemma Ethers_typehashes (domain : DomainData) (h : EthersSafeTransactionHasher.t) :
  EthersSafeTransactionHasher.new domain = Some h ->
  EthersSafeTransactionHasher.DOMAIN_SEPARATOR_TYPEHASH h
    = Ethers.hexlify domainTypeHashBytes
  /\ EthersSafeTransactionHasher.SAFE_TX_TYPEHASH h
     = Ethers.hexlify safeTxTypeHashBytes
  /\ EthersSafeTransactionHasher.calculateDomainHash
       (Ethers.hexlify domainTypeHashBytes) domain
     = Some (EthersSafeTransactionHasher.domainHash h).
Proof.
  unfold EthersSafeTransactionHasher.new, Ethers.keccak256, Ethers.getBytes,
    Ethers.toUtf8Bytes.
  cbn [option_bind]. fold domainTypeHashBytes safeTxTypeHashBytes.
  destruct (EthersSafeTransactionHasher.calculateDomainHash _ domain) as [dh|];
    cbn [option_bind]; intros H; inversion H; subst; clear H.
  repeat split; reflexivity.
Qed.

Lemma Viem_typehash (literal : string) :
  Viem.keccak256 (Viem.toHex literal)
  = Some (Viem.bytesToHex (Keccak.keccak256 (list_byte_of_string literal))).
Proof.
  unfold Viem.toHex. rewrite bytesToHex_cons at 1.
  apply Viem_keccak256_hex, parseHexBody_hexBody.
Qed.

Lemma Viem_typehashes (domain : DomainData) (h : ViemSafeTransactionHasher.t) :
  ViemSafeTransactionHasher.new domain = Some h ->
  ViemSafeTransactionHasher.DOMAIN_SEPARATOR_TYPEHASH h
    = Viem.bytesToHex domainTypeHashBytes
  /\ ViemSafeTransactionHasher.SAFE_TX_TYPEHASH h
     = Viem.bytesToHex safeTxTypeHashBytes
  /\ ViemSafeTransactionHasher.calculateDomainHash
       (Viem.bytesToHex domainTypeHashBytes) domain
     = Some (ViemSafeTransactionHasher.domainHash h).
Proof.
  unfold ViemSafeTransactionHasher.new. rewrite !Viem_typehash.
  cbn [option_bind]. fold domainTypeHashBytes safeTxTypeHashBytes.
  destruct (ViemSafeTransactionHasher.calculateDomainHash _ domain) as [dh|];
    cbn [option_bind]; intros H; inversion H; subst; clear H.
  repeat split; reflexivity.
Qed.

Lemma domainTypeHashBytes_length : length domainTypeHashBytes = 32%nat.
Proof. apply keccak256_length. Qed.

Lemma safeTxTypeHashBytes_length : length safeTxTypeHashBytes = 32%nat.
Proof. apply keccak256_length. Qed.

Lemma Ethers_domainHash (typeHash : list byte) (domain : DomainData) :
  length typeHash = 32%nat -> wf_domain domain = true ->
  EthersSafeTransactionHasher.calculateDomainHash (Ethers.hexlify typeHash) domain
  = Some (Ethers.hexlify (Keccak.keccak256
       (typeHash ++ uintWord (chainId domain)
          ++ addressWord (bytesOfHex (verifyingContract domain))))).
Proof.
  intros Hl H. destruct (wf_domain_fields _ H) as [Hc Ha].
  unfold EthersSafeTransactionHasher.calculateDomainHash, Ethers.AbiCoder.encode.
  cbn [length Nat.eqb combine map fst snd option_all].
  rewrite (Ethers_encode_bytes32 _ Hl), (Ethers_encode_number _ Hc),
    (Ethers_encode_address _ Ha).
  cbn [option_bind List.concat]. rewrite hexlify_cons at 1.
  rewrite app_nil_r.
  apply Ethers_keccak256_hex, parseHexBody_hexBody.
Qed.

Lemma Viem_domainHash (typeHash : list byte) (domain : DomainData) :
  length typeHash = 32%nat -> wf_domain domain = true ->
  ViemSafeTransactionHasher.calculateDomainHash (Viem.bytesToHex typeHash) domain
  = Some (Viem.bytesToHex (Keccak.keccak256
       (typeHash ++ uintWord (chainId domain)
          ++ addressWord (bytesOfHex (verifyingContract domain))))).
Proof.
  intros Hl H. destruct (wf_domain_fields _ H) as [Hc Ha].
  unfold ViemSafeTransactionHasher.calculateDomainHash, Viem.encodeAbiParameters.
  cbn [length Nat.eqb combine map fst snd option_all Viem.BigInt].
  destruct (Viem_encode_address _ Ha) as [Ea Pa].
  rewrite bytesToHex_cons at 1.
  rewrite (Viem_encode_bytes32 _ Hl),
    (Viem_encode_uint256 _ (wf_number_uint256 _ Hc)), Ea.
  cbn [option_bind]. unfold Viem.concat. rewrite js_0x.
  cbn [map List.concat app]. rewrite !replace0x_0x.
  apply Viem_keccak256_hex.
  repeat (apply parseHexBody_app; [apply parseHexBody_hexBody|]).
  rewrite app_nil_r. exact Pa.
Qed.

Lemma Ethers_rawHash (domain : DomainData) (h : EthersSafeTransactionHasher.t)
    (tx : SafeTransactionParams) :
  EthersSafeTransactionHasher.new domain = Some h -> wf_tx tx = true ->
  EthersSafeTransactionHasher.calculateRawSafeTxHash h tx
  = Some (Ethers.hexlify (Keccak.keccak256 (structEncoding tx))).
Proof.
  intros Hnew H. destruct (Ethers_typehashes _ _ Hnew) as (_ & Hth & _).
  destruct (wf_tx_fields _ H)
    as (Hto & Hval & Hdata & Hop & Hstg & Hbg & Hgp & Hgt & Hrr & Hn).
  destruct (wf_data_bytes _ Hdata) as [Hd Hp].
  pose proof (Ethers_keccak256_hex _ _ Hp) as Hk. rewrite <- Hd in Hk.
  unfold EthersSafeTransactionHasher.calculateRawSafeTxHash.
  rewrite Hk, Hth. cbn [option_bind]. unfold Ethers.AbiCoder.encode.
  cbn [length Nat.eqb combine map fst snd option_all].
  rewrite (Ethers_encode_bytes32 _ safeTxTypeHashBytes_length),
    (Ethers_encode_address _ Hto), (Ethers_encode_uint256 _ Hval),
    (Ethers_encode_bytes32 (Keccak.keccak256 (bytesOfHex (data tx)))
       (keccak256_length _)),
    (Ethers_encode_operation _ Hop), (Ethers_encode_uint256 _ Hstg),
    (Ethers_encode_uint256 _ Hbg), (Ethers_encode_uint256 _ Hgp),
    (Ethers_encode_address _ Hgt), (Ethers_encode_address _ Hrr),
    (Ethers_encode_number _ Hn).
  cbn [option_bind List.concat]. rewrite hexlify_cons at 1. rewrite app_nil_r.
  apply Ethers_keccak256_hex, parseHexBody_hexBody.
Qed.

Create HintDb spells.
#[local] Hint Resolve parseHexBody_hexBody parseHexBody_app : spells.

Lemma Viem_rawHash (domain : DomainData) (h : ViemSafeTransactionHasher.t)
    (tx : SafeTransactionParams) :
  ViemSafeTransactionHasher.new domain = Some h -> wf_tx tx = true ->
  ViemSafeTransactionHasher.calculateRawSafeTxHash h tx
  = Some (Viem.bytesToHex (Keccak.keccak256 (structEncoding tx))).
Proof.
  intros Hnew H. destruct (Viem_typehashes _ _ Hnew) as (_ & Hth & _).
  destruct (wf_tx_fields _ H)
    as (Hto & Hval & Hdata & Hop & Hstg & Hbg & Hgp & Hgt & Hrr & Hn).
  destruct (wf_data_bytes _ Hdata) as [Hd Hp].
  pose proof (Viem_keccak256_hex _ _ Hp) as Hk. rewrite <- Hd in Hk.
  unfold ViemSafeTransactionHasher.calculateRawSafeTxHash.
  rewrite Hk, Hth. cbn [option_bind]. unfold Viem.encodeAbiParameters.
  cbn [length Nat.eqb combine map fst snd option_all Viem.BigInt].
  destruct (Viem_encode_address _ Hto) as [Eto Pto].
  destruct (Viem_encode_address _ Hgt) as [Egt Pgt].
  destruct (Viem_encode_address _ Hrr) as [Err Prr].
  rewrite !bytesToHex_cons.
  rewrite (Viem_encode_bytes32 _ safeTxTypeHashBytes_length), Eto,
    (Viem_encode_uint256 _ Hval),
    (Viem_encode_bytes32 (Keccak.keccak256 (bytesOfHex (data tx)))
       (keccak256_length _)),
    (Viem_encode_operation _ Hop), (Viem_encode_uint256 _ Hstg),
    (Viem_encode_uint256 _ Hbg), (Viem_encode_uint256 _ Hgp), Egt, Err,
    (Viem_encode_uint256 _ (wf_number_uint256 _ Hn)).
  cbn [option_bind]. unfold Viem.concat. rewrite js_0x.
  cbn [map List.concat app]. rewrite !replace0x_0x.
  apply Viem_keccak256_hex. unfold structEncoding. rewrite app_nil_r.
  auto 12 with spells.
Qed.

(** Whatever the struct hash, the final hash is taken of the two fixed bytes,
    the cached domain hash and the struct hash. *)
Lemma Ethers_finalHash (h : EthersSafeTransactionHasher.t)
    (tx : SafeTransactionParams) (dh mh : list byte) :
  EthersSafeTransactionHasher.domainHash h = Ethers.hexlify dh ->
  EthersSafeTransactionHasher.calculateRawSafeTxHash h tx
    = Some (Ethers.hexlify mh) ->
  EthersSafeTransactionHasher.calculateFinalSafeTxHash h tx
  = Some (Ethers.hexlify (Keccak.keccak256 (finalEncoding dh mh))).
Proof.
  intros Hd Hr. unfold EthersSafeTransactionHasher.calculateFinalSafeTxHash.
  rewrite Hr, Hd. cbn [option_bind]. unfold Ethers.concat.
  change (js "0x19") with (Ethers.hexlify [x19]).
  change (js "0x01") with (Ethers.hexlify [x01]).
  cbn [map option_all]. rewrite !Ethers_getBytes_hexlify.
  cbn [option_bind map List.concat]. rewrite js_0x. cbn [app].
  apply Ethers_keccak256_hex.
  change (hexBody [x19] ++ hexBody [x01] ++ hexBody dh ++ hexBody mh ++ [])
    with (hexBody [x19; x01] ++ hexBody dh ++ hexBody mh ++ []).
  rewrite app_nil_r, <- !hexBody_app. apply parseHexBody_hexBody.
Qed.

Lemma Viem_finalHash (h : ViemSafeTransactionHasher.t)
    (tx : SafeTransactionParams) (dh mh : list byte) :
  ViemSafeTransactionHasher.domainHash h = Viem.bytesToHex dh ->
  ViemSafeTransactionHasher.calculateRawSafeTxHash h tx
    = Some (Viem.bytesToHex mh) ->
  ViemSafeTransactionHasher.calculateFinalSafeTxHash h tx
  = Some (Viem.bytesToHex (Keccak.keccak256 (finalEncoding dh mh))).
Proof.
  intros Hd Hr. unfold ViemSafeTransactionHasher.calculateFinalSafeTxHash.
  rewrite Hr, Hd. cbn [option_bind]. unfold Viem.concat.
  change (js "0x19") with (48 :: 120 :: hexBody [x19]).
  change (js "0x01") with (48 :: 120 :: hexBody [x01]).
  rewrite !bytesToHex_cons at 1. rewrite js_0x.
  cbn [map List.concat app]. rewrite !replace0x_0x.
  apply Viem_keccak256_hex.
  change (hexBody [x19] ++ hexBody [x01] ++ hexBody dh ++ hexBody mh ++ [])
    with (hexBody [x19; x01] ++ hexBody dh ++ hexBody mh ++ []).
  rewrite app_nil_r, <- !hexBody_app. apply parseHexBody_hexBody.
Qed.

Lemma finalEncoding_length (dh mh : list byte) :
  length dh = 32%nat -> length mh = 32%nat ->
  length (finalEncoding dh mh) = 66%nat.
Proof.
  intros Hd Hm. unfold finalEncoding. cbn [length].
  rewrite length_app, Hd, Hm. reflexivity.
Qed.

Lemma Ethers_new_defined (domain : DomainData) :
  wf_domain domain = true ->
  exists h, EthersSafeTransactionHasher.new domain = Some h
    /\ EthersSafeTransactionHasher.domainHash h
       = Ethers.hexlify (Keccak.keccak256 (domainEncoding domain)).
Proof.
  intros H. unfold EthersSafeTransactionHasher.new, Ethers.keccak256,
    Ethers.getBytes, Ethers.toUtf8Bytes.
  cbn [option_bind]. fold domainTypeHashBytes safeTxTypeHashBytes.
  rewrite (Ethers_domainHash _ _ domainTypeHashBytes_length H).
  cbn [option_bind]. eexists. split; reflexivity.
Qed.

Lemma Viem_new_defined (domain : DomainData) :
  wf_domain domain = true ->
  exists h, ViemSafeTransactionHasher.new domain = Some h
    /\ ViemSafeTransactionHasher.domainHash h
       = Viem.bytesToHex (Keccak.keccak256 (domainEncoding domain)).
Proof.
  intros H. unfold ViemSafeTransactionHasher.new. rewrite !Viem_typehash.
  cbn [option_bind]. fold domainTypeHashBytes safeTxTypeHashBytes.
  rewrite (Viem_domainHash _ _ domainTypeHashBytes_length H).
  cbn [option_bind]. eexists. split; reflexivity.
Qed.

(** ** The hashing engine *)

(** C1: the code contradicts the hasher test.  With [to] the recipient
    0x8b4B..., as the test writes the transaction, neither hasher returns
    the message hash and the final hash the test expects. *)
Lemma golden_vector_as_stated_fails :
  (h <- EthersSafeTransactionHasher.new testDomain ;;
   EthersSafeTransactionHasher.getAllHashes h testSafeTransaction)
    <> Some expectedHashes
  /\ (h <- ViemSafeTransactionHasher.new testDomain ;;
      ViemSafeTransactionHasher.getAllHashes h testSafeTransaction)
    <> Some expectedHashes.
Proof. split; vm_compute; discriminate. Qed.

(** C1: what the hashers return.  For the transaction as the test writes
    it both return the expected domain hash with another message hash and
    final hash; the three expected hashes are what both return for the
    transaction of the examples (the transfer call sent to the token
    contract 0x1762..., all other fields as in the test). *)
Theorem golden_vector_hashes :
  (h <- EthersSafeTransactionHasher.new testDomain ;;
   EthersSafeTransactionHasher.getAllHashes h exampleSafeTransaction)
    = Some expectedHashes
  /\ (h <- ViemSafeTransactionHasher.new testDomain ;;
      ViemSafeTransactionHasher.getAllHashes h exampleSafeTransaction)
    = Some expectedHashes
  /\ (h <- EthersSafeTransactionHasher.new testDomain ;;
      EthersSafeTransactionHasher.getAllHashes h testSafeTransaction)
    = Some testHashes
  /\ (h <- ViemSafeTransactionHasher.new testDomain ;;
      ViemSafeTransactionHasher.getAllHashes h testSafeTransaction)
    = Some testHashes
  /\ domainHash testHashes = domainHash expectedHashes.
Proof.
  split; [vm_compute; reflexivity|]. split; [vm_compute; reflexivity|].
  split; [vm_compute; reflexivity|]. split; vm_compute; reflexivity.
Qed.

(** The type hashes the hasher test expects. *)
Example type_hashes_as_tested :
  option_map EthersSafeTransactionHasher.getTypeHashes
    (EthersSafeTransactionHasher.new testDomain)
  = Some {| safeTxTypeHash :=
              js "0xbb8310d486368db6bd6f849402fdd73ad53d316b5a4b2644ad6efe0f941286d8";
            domainSeparatorTypeHash :=
              js "0x47e79534a245952e8b16893a336b85a3d9ea9fa8c573f3d803afb92a79469218" |}
  /\ option_map ViemSafeTransactionHasher.getTypeHashes
       (ViemSafeTransactionHasher.new testDomain)
     = option_map EthersSafeTransactionHasher.getTypeHashes
         (EthersSafeTransactionHasher.new testDomain).
Proof. split; vm_compute; reflexivity. Qed.

(** C2: for a well-formed domain and transaction, each engine is built, its
    domain hash and struct hash are 32-byte digests, and its final hash is
    the keccak256 of the 66 bytes 0x19, 0x01, domain hash, struct hash. *)
Theorem final_hash_is_keccak_of_prefixed_hashes
    (domain : DomainData) (tx : SafeTransactionParams) :
  wf_domain domain = true -> wf_tx tx = true ->
  exists dh mh : list byte,
    length dh = 32%nat /\ length mh = 32%nat
    /\ finalEncoding dh mh = [x19; x01] ++ dh ++ mh
    /\ length (finalEncoding dh mh) = 66%nat
    /\ (exists h,
          EthersSafeTransactionHasher.new domain = Some h
          /\ EthersSafeTransactionHasher.getDomainHash h = Ethers.hexlify dh
          /\ EthersSafeTransactionHasher.calculateRawSafeTxHash h tx
             = Some (Ethers.hexlify mh)
          /\ EthersSafeTransactionHasher.calculateFinalSafeTxHash h tx
             = Some (Ethers.hexlify (Keccak.keccak256 (finalEncoding dh mh))))
    /\ (exists h,
          ViemSafeTransactionHasher.new domain = Some h
          /\ ViemSafeTransactionHasher.getDomainHash h = Viem.bytesToHex dh
          /\ ViemSafeTransactionHasher.calculateRawSafeTxHash h tx
             = Some (Viem.bytesToHex mh)
          /\ ViemSafeTransactionHasher.calculateFinalSafeTxHash h tx
             = Some (Viem.bytesToHex (Keccak.keccak256 (finalEncoding dh mh)))).
Proof.
  intros Hd Ht.
  exists (Keccak.keccak256 (domainEncoding domain)),
         (Keccak.keccak256 (structEncoding tx)).
  split; [apply keccak256_length|]. split; [apply keccak256_length|].
  split; [reflexivity|].
  split; [apply finalEncoding_length; apply keccak256_length|].
  split.
  - destruct (Ethers_new_defined _ Hd) as (h & Hnew & Hdh).
    exists h. repeat split; try assumption.
    + apply (Ethers_rawHash _ _ _ Hnew Ht).
    + apply Ethers_finalHash; [exact Hdh | apply (Ethers_rawHash _ _ _ Hnew Ht)].
  - destruct (Viem_new_defined _ Hd) as (h & Hnew & Hdh).
    exists h. repeat split; try assumption.
    + apply (Viem_rawHash _ _ _ Hnew Ht).
    + apply Viem_finalHash; [exact Hdh | apply (Viem_rawHash _ _ _ Hnew Ht)].
Qed.

Lemma final_hash_witness :
  wf_domain testDomain = true /\ wf_tx exampleSafeTransaction = true
  /\ exists dh mh : list byte,
    length dh = 32%nat /\ length mh = 32%nat
    /\ finalEncoding dh mh = [x19; x01] ++ dh ++ mh
    /\ length (finalEncoding dh mh) = 66%nat
    /\ (exists h,
          EthersSafeTransactionHasher.new testDomain = Some h
          /\ EthersSafeTransactionHasher.getDomainHash h = Ethers.hexlify dh
          /\ EthersSafeTransactionHasher.calculateRawSafeTxHash h exampleSafeTransaction
             = Some (Ethers.hexlify mh)
          /\ EthersSafeTransactionHasher.calculateFinalSafeTxHash h exampleSafeTransaction
             = Some (Ethers.hexlify (Keccak.keccak256 (finalEncoding dh mh))))
    /\ (exists h,
          ViemSafeTransactionHasher.new testDomain = Some h
          /\ ViemSafeTransactionHasher.getDomainHash h = Viem.bytesToHex dh
          /\ ViemSafeTransactionHasher.calculateRawSafeTxHash h exampleSafeTransaction
             = Some (Viem.bytesToHex mh)
          /\ ViemSafeTransactionHasher.calculateFinalSafeTxHash h exampleSafeTransaction
             = Some (Viem.bytesToHex (Keccak.keccak256 (finalEncoding dh mh)))).
Proof.
  split; [vm_compute; reflexivity|]. split; [vm_compute; reflexivity|].
  apply (final_hash_is_keccak_of_prefixed_hashes testDomain exampleSafeTransaction);
    vm_compute; reflexivity.
Defined.

(** C3, as stated, fails: for a delegate call (operation 1) the struct hash
    is not the hash of the encoding with the operation as a single byte
    padded on the right. *)
Lemma struct_hash_operation_not_right_padded :
  wf_tx delegateCallTransaction = true
  /\ (h <- EthersSafeTransactionHasher.new testDomain ;;
      EthersSafeTransactionHasher.calculateRawSafeTxHash h delegateCallTransaction)
     <> Some (Ethers.hexlify
                (Keccak.keccak256 (specStructEncoding delegateCallTransaction)))
  /\ (h <- ViemSafeTransactionHasher.new testDomain ;;
      ViemSafeTransactionHasher.calculateRawSafeTxHash h delegateCallTransaction)
     <> Some (Viem.bytesToHex
                (Keccak.keccak256 (specStructEncoding delegateCallTransaction))).
Proof.
  split; [vm_compute; reflexivity|]. split; vm_compute; discriminate.
Qed.

(** C3, amended: for every well-formed transaction the struct hash is the
    keccak256 of the encoding, in the fixed order, of the type hash, [to],
    [value], the keccak256 of the data, the operation, the three gas fields,
    the two addresses and the nonce, each address left-padded to 32 bytes
    and each integer, the operation among them, a big-endian 256-bit
    word. *)
Theorem struct_hash_is_keccak_of_abi_encoding
    (domain : DomainData) (tx : SafeTransactionParams) :
  wf_tx tx = true ->
  (forall h, EthersSafeTransactionHasher.new domain = Some h ->
     EthersSafeTransactionHasher.calculateRawSafeTxHash h tx
     = Some (Ethers.hexlify (Keccak.keccak256 (structEncoding tx))))
  /\ (forall h, ViemSafeTransactionHasher.new domain = Some h ->
        ViemSafeTransactionHasher.calculateRawSafeTxHash h tx
        = Some (Viem.bytesToHex (Keccak.keccak256 (structEncoding tx))))
  /\ length (structEncoding tx) = (11 * 32)%nat
  /\ Ethers.getBytesOfString (to tx) = Some (bytesOfHex (to tx))
  /\ Ethers.getBytesOfString (data tx) = Some (bytesOfHex (data tx))
  /\ Ethers.getBytesOfString (gasToken tx) = Some (bytesOfHex (gasToken tx))
  /\ Ethers.getBytesOfString (refundReceiver tx)
     = Some (bytesOfHex (refundReceiver tx)).
Proof.
  intros Ht.
  destruct (wf_tx_fields _ Ht)
    as (Hto & Hval & Hdata & Hop & Hstg & Hbg & Hgp & Hgt & Hrr & Hn).
  destruct (wf_address_bytes _ Hto) as (Eto & Pto & Lto & _).
  destruct (wf_address_bytes _ Hgt) as (Egt & Pgt & Lgt & _).
  destruct (wf_address_bytes _ Hrr) as (Err & Prr & Lrr & _).
  destruct (wf_data_bytes _ Hdata) as (Ed & Pd).
  split; [intros h Hnew; apply (Ethers_rawHash _ _ _ Hnew Ht)|].
  split; [intros h Hnew; apply (Viem_rawHash _ _ _ Hnew Ht)|].
  split.
  { unfold structEncoding, addressWord, uintWord.
    rewrite !length_app, !repeat_length, !be_bytes_length, !keccak256_length,
      safeTxTypeHashBytes_length, Lto, Lgt, Lrr. reflexivity. }
  repeat split.
  - rewrite Eto at 1. exact Pto.
  - rewrite Ed at 1. exact Pd.
  - rewrite Egt at 1. exact Pgt.
  - rewrite Err at 1. exact Prr.
Qed.

Lemma struct_hash_witness :
  wf_tx delegateCallTransaction = true
  /\ exists h,
       EthersSafeTransactionHasher.new testDomain = Some h
       /\ EthersSafeTransactionHasher.calculateRawSafeTxHash h
            delegateCallTransaction
          = Some (Ethers.hexlify
                    (Keccak.keccak256 (structEncoding delegateCallTransaction))).
Proof.
  split; [vm_compute; reflexivity|].
  destruct (Ethers_new_defined testDomain) as (h & Hnew & _);
    [vm_compute; reflexivity|].
  exists h. split; [exact Hnew|].
  apply (struct_hash_is_keccak_of_abi_encoding testDomain delegateCallTransaction);
    [vm_compute; reflexivity | exact Hnew].
Defined.

(** C4, as stated, fails: on three transactions of the declared types the
    implementations differ.  With the nonce 2^53, a number that is no safe
    integer, the ethers hasher throws and the viem hasher returns hashes;
    so it is with data of an odd number of digits; with [to] written in
    upper-case digits the ethers hasher returns hashes and the viem hasher
    throws. *)
Lemma ethers_and_viem_differ :
  exists he hv,
    EthersSafeTransactionHasher.new testDomain = Some he
    /\ ViemSafeTransactionHasher.new testDomain = Some hv
    /\ EthersSafeTransactionHasher.getAllHashes he unsafeNonceTransaction = None
    /\ ViemSafeTransactionHasher.getAllHashes hv unsafeNonceTransaction <> None
    /\ EthersSafeTransactionHasher.getAllHashes he oddDataTransaction = None
    /\ ViemSafeTransactionHasher.getAllHashes hv oddDataTransaction <> None
    /\ EthersSafeTransactionHasher.getAllHashes he upperCaseAddressTransaction
       <> None
    /\ ViemSafeTransactionHasher.getAllHashes hv upperCaseAddressTransaction
       = None.
Proof.
  eexists. eexists.
  split; [vm_compute; reflexivity|]. split; [vm_compute; reflexivity|].
  split; [vm_compute; reflexivity|]. split; [vm_compute; discriminate|].
  split; [vm_compute; reflexivity|]. split; [vm_compute; discriminate|].
  split; [vm_compute; discriminate|]. vm_compute. reflexivity.
Qed.

(** C4, amended: for a well-formed domain and transaction the two
    implementations are both built and return the same type hashes, domain
    hash, message hash and final hash. *)
Theorem ethers_and_viem_agree
    (domain : DomainData) (tx : SafeTransactionParams) :
  wf_domain domain = true -> wf_tx tx = true ->
  exists he hv hashes,
    EthersSafeTransactionHasher.new domain = Some he
    /\ ViemSafeTransactionHasher.new domain = Some hv
    /\ EthersSafeTransactionHasher.getTypeHashes he
       = ViemSafeTransactionHasher.getTypeHashes hv
    /\ EthersSafeTransactionHasher.getDomainHash he
       = ViemSafeTransactionHasher.getDomainHash hv
    /\ EthersSafeTransactionHasher.calculateRawSafeTxHash he tx
       = Some (messageHash hashes)
    /\ ViemSafeTransactionHasher.calculateRawSafeTxHash hv tx
       = Some (messageHash hashes)
    /\ EthersSafeTransactionHasher.calculateFinalSafeTxHash he tx
       = Some (safeTxHash hashes)
    /\ ViemSafeTransactionHasher.calculateFinalSafeTxHash hv tx
       = Some (safeTxHash hashes)
    /\ EthersSafeTransactionHasher.getAllHashes he tx = Some hashes
    /\ ViemSafeTransactionHasher.getAllHashes hv tx = Some hashes.
Proof.
  intros Hd Ht.
  destruct (Ethers_new_defined _ Hd) as (he & He & Hde).
  destruct (Viem_new_defined _ Hd) as (hv & Hv & Hdv).
  destruct (Ethers_typehashes _ _ He) as (Ede & Ese & _).
  destruct (Viem_typehashes _ _ Hv) as (Edv & Esv & _).
  pose proof (Ethers_rawHash _ _ _ He Ht) as Re.
  pose proof (Viem_rawHash _ _ _ Hv Ht) as Rv.
  pose proof (Ethers_finalHash _ _ _ _ Hde Re) as Fe.
  pose proof (Viem_finalHash _ _ _ _ Hdv Rv) as Fv.
  exists he, hv,
    {| safeTxHash :=
         Ethers.hexlify
           (Keccak.keccak256
              (finalEncoding (Keccak.keccak256 (domainEncoding domain))
                 (Keccak.keccak256 (structEncoding tx))));
       domainHash := Ethers.hexlify (Keccak.keccak256 (domainEncoding domain));
       messageHash := Ethers.hexlify (Keccak.keccak256 (structEncoding tx)) |}.
  cbn [safeTxHash domainHash messageHash].
  repeat split; try assumption.
  - unfold EthersSafeTransactionHasher.getTypeHashes,
      ViemSafeTransactionHasher.getTypeHashes.
    rewrite Ede, Ese, Edv, Esv. reflexivity.
  - unfold EthersSafeTransactionHasher.getDomainHash,
      ViemSafeTransactionHasher.getDomainHash.
    rewrite Hde, Hdv. reflexivity.
  - unfold EthersSafeTransactionHasher.getAllHashes.
    rewrite Re, Fe, Hde. reflexivity.
  - unfold ViemSafeTransactionHasher.getAllHashes.
    rewrite Rv, Fv, Hdv. reflexivity.
Qed.

Lemma ethers_and_viem_agree_witness :
  wf_domain testDomain = true /\ wf_tx exampleSafeTransaction = true
  /\ exists he hv hashes,
    EthersSafeTransactionHasher.new testDomain = Some he
    /\ ViemSafeTransactionHasher.new testDomain = Some hv
    /\ EthersSafeTransactionHasher.getTypeHashes he
       = ViemSafeTransactionHasher.getTypeHashes hv
    /\ EthersSafeTransactionHasher.getDomainHash he
       = ViemSafeTransactionHasher.getDomainHash hv
    /\ EthersSafeTransactionHasher.calculateRawSafeTxHash he exampleSafeTransaction
       = Some (messageHash hashes)
    /\ ViemSafeTransactionHasher.calculateRawSafeTxHash hv exampleSafeTransaction
       = Some (messageHash hashes)
    /\ EthersSafeTransactionHasher.calculateFinalSafeTxHash he exampleSafeTransaction
       = Some (safeTxHash hashes)
    /\ ViemSafeTransactionHasher.calculateFinalSafeTxHash hv exampleSafeTransaction
       = Some (safeTxHash hashes)
    /\ EthersSafeTransactionHasher.getAllHashes he exampleSafeTransaction
       = Some hashes
    /\ ViemSafeTransactionHasher.getAllHashes hv exampleSafeTransaction
       = Some hashes.
Proof.
  split; [vm_compute; reflexivity|]. split; [vm_compute; reflexivity|].
  apply (ethers_and_viem_agree testDomain exampleSafeTransaction);
    vm_compute; reflexivity.
Defined.

(** ** The decoder: validation *)

Import TransactionDataDecoder.

Lemma rem2_even (n : nat) :
  (Z.rem (Z.of_nat (S (S n)) - 2) 2 =? 0) = Nat.even n.
Proof.
  replace (Z.of_nat (S (S n)) - 2) with (Z.of_nat n) by lia.
  rewrite Z.rem_mod_nonneg by lia.
  destruct (Nat.even n) eqn:E.
  - apply Nat.even_spec in E as [k ->].
    replace (Z.of_nat (2 * k)) with (Z.of_nat k * 2) by lia.
    rewrite Z.mod_mul by lia. reflexivity.
  - assert (Ho : Nat.odd n = true) by (unfold Nat.odd; rewrite E; reflexivity).
    apply Nat.odd_spec in Ho as [k ->].
    replace (Z.of_nat (2 * k + 1)) with (1 + Z.of_nat k * 2) by lia.
    rewrite Z.mod_add by lia. reflexivity.
Qed.

Lemma startsWith_0x_cons (a b : Z) (s : jsstring) :
  startsWith (a :: b :: s) (js "0x") = (a =? 48) && (b =? 120).
Proof. rewrite js_0x. cbn [startsWith]. rewrite andb_true_r. reflexivity. Qed.

(** The character class of the regular expression. *)
Lemma isHexDigit_spec (c : Z) :
  isHexDigit c = true <->
  48 <= c <= 57 \/ 97 <= c <= 102 \/ 65 <= c <= 70.
Proof.
  unfold isHexDigit, hexDigitValue.
  destruct (char_ranges c) as [H|[H|[H|[H|[H|[H|[H|[H|H]]]]]]]];
    decide_bounds; cbn [andb]; split; intros; try discriminate; try lia;
    reflexivity.
Qed.

Lemma validateHexData_0x (digits : jsstring) :
  validateHexData (48 :: 120 :: digits) =
  if negb (forallb isHexDigit digits)
  then invalid "Data contains invalid hex characters"
  else if negb (Nat.even (length digits))
       then invalid "Hex data must have even length"
       else {| ValidationResult.valid := true; ValidationResult.error := None |}.
Proof.
  unfold validateHexData. rewrite startsWith_0x_cons, !Z.eqb_refl.
  cbn [andb negb hexRegex_test length]. rewrite rem2_even. reflexivity.
Qed.

(** Well-formed data is what the decoder's validation accepts. *)
Lemma wf_data_validateHexData (d : HexData) :
  wf_data d = ValidationResult.valid (validateHexData d).
Proof.
  unfold wf_data, Viem.isHex.
  destruct d as [|a [|b digits]]; try reflexivity.
  - unfold validateHexData. rewrite js_0x. cbn [startsWith].
    rewrite !andb_false_r. reflexivity.
  - rewrite startsWith_0x_cons.
    destruct (Z.eqb_spec a 48) as [->|Ha]; cbn [andb].
    + destruct (Z.eqb_spec b 120) as [->|Hb]; cbn [andb].
      * rewrite validateHexData_0x. cbn [skipn length Nat.even].
        destruct (forallb isHexDigit digits), (Nat.even (length digits));
          reflexivity.
      * unfold validateHexData. rewrite startsWith_0x_cons.
        replace (b =? 120) with false by (symmetry; apply Z.eqb_neq, Hb).
        rewrite andb_false_r. reflexivity.
    + unfold validateHexData. rewrite startsWith_0x_cons.
      replace (a =? 48) with false by (symmetry; apply Z.eqb_neq, Ha).
      reflexivity.
Qed.

Lemma validateHexData_no_prefix (s : jsstring) :
  s <> [] -> startsWith s (js "0x") = false ->
  validateHexData s = invalid "Hex data must start with 0x".
Proof.
  intros Hne Hp. unfold validateHexData. rewrite Hp.
  destruct s; [contradiction|reflexivity].
Qed.

Lemma validateHexData_valid (s : jsstring) :
  ValidationResult.valid (validateHexData s) = true ->
  exists digits bs,
    s = 48 :: 120 :: digits /\ forallb isHexDigit digits = true
    /\ Nat.even (length digits) = true
    /\ parseHexBody digits = Some bs
    /\ length digits = (2 * length bs)%nat.
Proof.
  intros H. destruct (startsWith s (js "0x")) eqn:Hp.
  - pose proof (startsWith_0x _ Hp) as Hs. rewrite Hs in H.
    rewrite validateHexData_0x in H.
    destruct (forallb isHexDigit (skipn 2 s)) eqn:Hh; [|discriminate].
    destruct (Nat.even (length (skipn 2 s))) eqn:He; [|discriminate].
    destruct (parseHexBody_defined _ Hh He) as [bs Hbs].
    exists (skipn 2 s), bs. repeat split; try assumption.
    apply parseHexBody_length, Hbs.
  - destruct s as [|c s]; [discriminate|].
    rewrite validateHexData_no_prefix in H by (congruence || assumption).
    discriminate.
Qed.

Lemma validateHexData_invalid (s : jsstring) :
  ValidationResult.valid (validateHexData s) = false ->
  exists reason, ValidationResult.error (validateHexData s) = Some reason
                 /\ reason <> [].
Proof.
  unfold validateHexData. destruct s as [|c s].
  - intros _. eexists. split; [reflexivity|discriminate].
  - destruct (negb (startsWith (c :: s) (js "0x")));
      [intros _; eexists; split; [reflexivity|discriminate]|].
    destruct (negb (hexRegex_test (c :: s)));
      [intros _; eexists; split; [reflexivity|discriminate]|].
    destruct (negb (Z.rem (Z.of_nat (length (c :: s)) - 2) 2 =? 0));
      [intros _; eexists; split; [reflexivity|discriminate]|].
    discriminate.
Qed.

(** C5: [validateHexData] applies its four rules in order (the text is not
    empty; it starts with 0x; the characters after the prefix are
    hexadecimal digits; their number is even) and returns invalid with the
    reason of the first rule violated, and valid without a reason when none
    is.  "0x", "0x00" and "0xabcdef" are valid. *)
Theorem validateHexData_rules (s : jsstring) :
  (s = [] ->
   validateHexData s
   = {| ValidationResult.valid := false;
        ValidationResult.error := Some (js "Data is empty") |})
  /\ (s <> [] -> (forall rest, s <> 48 :: 120 :: rest) ->
      validateHexData s
      = {| ValidationResult.valid := false;
           ValidationResult.error := Some (js "Hex data must start with 0x") |})
  /\ (forall digits c,
        s = 48 :: 120 :: digits -> In c digits ->
        ~ (48 <= c <= 57 \/ 97 <= c <= 102 \/ 65 <= c <= 70) ->
        validateHexData s
        = {| ValidationResult.valid := false;
             ValidationResult.error :=
               Some (js "Data contains invalid hex characters") |})
  /\ (forall digits,
        s = 48 :: 120 :: digits ->
        Forall (fun c => 48 <= c <= 57 \/ 97 <= c <= 102 \/ 65 <= c <= 70)
          digits ->
        Nat.Odd (length digits) ->
        validateHexData s
        = {| ValidationResult.valid := false;
             ValidationResult.error := Some (js "Hex data must have even length") |})
  /\ (forall digits,
        s = 48 :: 120 :: digits ->
        Forall (fun c => 48 <= c <= 57 \/ 97 <= c <= 102 \/ 65 <= c <= 70)
          digits ->
        Nat.Even (length digits) ->
        validateHexData s
        = {| ValidationResult.valid := true; ValidationResult.error := None |})
  /\ validateHexData (js "0x")
     = {| ValidationResult.valid := true; ValidationResult.error := None |}
  /\ validateHexData (js "0x00")
     = {| ValidationResult.valid := true; ValidationResult.error := None |}
  /\ validateHexData (js "0xabcdef")
     = {| ValidationResult.valid := true; ValidationResult.error := None |}
  /\ validateHexData (js "0x1234abcd")
     = {| ValidationResult.valid := true; ValidationResult.error := None |}
  /\ validateHexData (js "1234abcd")
     = {| ValidationResult.valid := false;
          ValidationResult.error := Some (js "Hex data must start with 0x") |}
  /\ validateHexData (js "0x1234abcdxyz")
     = {| ValidationResult.valid := false;
          ValidationResult.error :=
            Some (js "Data contains invalid hex characters") |}
  /\ validateHexData (js "0x123")
     = {| ValidationResult.valid := false;
          ValidationResult.error := Some (js "Hex data must have even length") |}.
Proof.
  assert (Hall : forall digits,
            Forall (fun c => 48 <= c <= 57 \/ 97 <= c <= 102 \/ 65 <= c <= 70)
              digits ->
            forallb isHexDigit digits = true).
  { intros digits H. apply forallb_forall. intros c Hc.
    apply isHexDigit_spec. rewrite Forall_forall in H. apply H, Hc. }
  split; [intros ->; reflexivity|].
  split.
  { intros Hne Hp. apply validateHexData_no_prefix; [exact Hne|].
    destruct (startsWith s (js "0x")) eqn:E; [|reflexivity].
    exfalso. apply (Hp (skipn 2 s)), startsWith_0x, E. }
  split.
  { intros digits c -> Hin Hc. rewrite validateHexData_0x.
    assert (Hf : forallb isHexDigit digits = false).
    { destruct (forallb isHexDigit digits) eqn:E; [|reflexivity].
      rewrite forallb_forall in E. exfalso.
      apply Hc, isHexDigit_spec, E, Hin. }
    rewrite Hf. reflexivity. }
  split.
  { intros digits -> Hh Ho. rewrite validateHexData_0x, (Hall _ Hh).
    apply Nat.odd_spec in Ho. unfold Nat.odd in Ho.
    destruct (Nat.even (length digits)); [discriminate|reflexivity]. }
  split.
  { intros digits -> Hh He. apply Nat.even_spec in He.
    rewrite validateHexData_0x, (Hall _ Hh), He. reflexivity. }
  repeat split; reflexivity.
Qed.

(** ** The decoder: embedded text *)

Lemma validateHexData_bytes (s : jsstring) :
  ValidationResult.valid (validateHexData s) = true ->
  exists bs, Ethers.getBytesOfString s = Some bs
             /\ length s = (2 + 2 * length bs)%nat.
Proof.
  intros H. destruct (validateHexData_valid s H) as (d & bs & -> & _ & _ & Hp & Hl).
  exists bs. split; [exact Hp|]. cbn [length]. lia.
Qed.

Lemma Ethers_toUtf8String_hexlify (bs : list byte) :
  Ethers.toUtf8String (Ethers.hexlify bs)
  = outcome_bind (Ethers.getUtf8CodePoints bs)
      (fun cps => Return (flat_map Ethers.codeUnits cps)).
Proof. unfold Ethers.toUtf8String. rewrite Ethers_getBytes_hexlify. reflexivity. Qed.



(** Bytes below 0x80 decode to themselves. *)
Lemma getUtf8CodePoints_ascii (bs : list byte) :
  Forall (fun b => Z_of_byte b < 128) bs ->
  Ethers.getUtf8CodePoints bs = Return (map Z_of_byte bs).
Proof.
  unfold Ethers.getUtf8CodePoints. generalize bs at 2 as bytes.
  generalize 0 as i.
  induction bs as [|b bs IH]; intros i bytes H; [reflexivity|].
  inversion H as [|? ? Hb Hbs]; subst.
  cbn [length Ethers.getUtf8CodePoints_from].
  pose proof (Z_of_byte_range b) as R.
  rewrite Z.shiftr_div_pow2 by lia.
  rewrite (Z.div_small (Z_of_byte b) (2 ^ 7)) by (change (2 ^ 7) with 128; lia).
  cbn [Z.eqb]. rewrite (IH _ _ Hbs). reflexivity.
Qed.






(** ** The decoder: function calls *)

Lemma be_value_zeros (k : nat) (bs : list byte) :
  be_value (repeat x00 k ++ bs) = be_value bs.
Proof. induction k as [|k IH]; [reflexivity|exact IH]. Qed.

Lemma hexDigit_lower (n : Z) :
  0 <= n < 16 ->
  lowerChar (hexDigit n) = hexDigit n
  /\ (65 <=? hexDigit n) && (hexDigit n <=? 70) = false.
Proof.
  intros Hn. unfold lowerChar, hexDigit.
  destruct (Z.ltb_spec n 10); decide_bounds; cbn [andb]; split; reflexivity.
Qed.

Lemma byte_nibbles (b : byte) :
  0 <= Z_of_byte b / 16 < 16 /\ 0 <= Z_of_byte b mod 16 < 16.
Proof.
  pose proof (Z_of_byte_range b) as R. split.
  - split; [apply Z.div_pos; lia | apply Z.div_lt_upper_bound; lia].
  - apply Z.mod_pos_bound. lia.
Qed.

Lemma hexBody_lower (bs : list byte) :
  toLowerCase (hexBody bs) = hexBody bs
  /\ Ethers.hasUpperHex (hexBody bs) = false.
Proof.
  induction bs as [|b bs [IHl IHu]]; [split; reflexivity|].
  destruct (byte_nibbles b) as [Hh Hl].
  destruct (hexDigit_lower _ Hh) as [Lh Uh].
  destruct (hexDigit_lower _ Hl) as [Ll Ul].
  rewrite hexBody_cons. unfold hexOfByte. cbn [app]. split.
  - cbn [toLowerCase map]. rewrite Lh, Ll. f_equal. f_equal. exact IHl.
  - unfold Ethers.hasUpperHex in *. cbn [existsb]. rewrite Uh, Ul. exact IHu.
Qed.

Lemma lowerChar_upperChar (c : Z) : lowerChar (upperChar c) = lowerChar c.
Proof. unfold lowerChar, upperChar. by_char_range c. Qed.

Lemma toLowerCase_applyChecksum (chars : jsstring) (hashed : list byte) :
  toLowerCase (EIP55.applyChecksum chars hashed) = toLowerCase chars.
Proof.
  revert hashed. induction chars as [|c|c d l IH] using pair_induction;
    intros hashed; try reflexivity.
  destruct hashed as [|h hs]; [reflexivity|].
  cbn [EIP55.applyChecksum toLowerCase map].
  fold (toLowerCase (EIP55.applyChecksum l hs)). fold (toLowerCase l).
  rewrite IH.
  destruct (8 <=? Z_of_byte h / 16), (8 <=? Z_of_byte h mod 16);
    rewrite ?lowerChar_upperChar; reflexivity.
Qed.

(** The checksummed form of an address differs from its lower-case hex only
    in the case of its letters. *)
Lemma checksumAddress_lower (addr : list byte) :
  toLowerCase (EIP55.checksumAddress (Ethers.hexlify addr)) = Ethers.hexlify addr.
Proof.
  destruct (hexBody_lower addr) as [Hl _].
  unfold EIP55.checksumAddress. rewrite hexlify_cons, toLowerCase_0x, Hl.
  cbn [skipn]. rewrite js_0x. cbn [app]. rewrite toLowerCase_0x.
  rewrite toLowerCase_applyChecksum, Hl. reflexivity.
Qed.

Lemma Ethers_getAddress_hexlify (addr : list byte) :
  length addr = 20%nat ->
  Ethers.getAddress (Ethers.hexlify addr)
  = Some (EIP55.checksumAddress (Ethers.hexlify addr)).
Proof.
  intros H. destruct (hexBody_lower addr) as [_ Hu].
  unfold Ethers.getAddress. rewrite hexlify_cons, startsWith_0x_cons, !Z.eqb_refl.
  cbn [andb skipn]. unfold Ethers.is40Hex.
  rewrite hexBody_length, H, (parseHexBody_forallb _ _ (parseHexBody_hexBody addr)).
  cbn [Nat.mul Nat.add Nat.eqb andb option_bind].
  rewrite (getChecksumAddress_40 (48 :: 120 :: hexBody addr))
    by (cbn [skipn]; rewrite hexBody_length, H; reflexivity).
  unfold Ethers.hasUpperHex in *. cbn [existsb]. rewrite Hu. reflexivity.
Qed.

Lemma decodeWord_address (addr : list byte) :
  length addr = 20%nat ->
  Ethers.AbiCoder.decodeWord address (addressWord addr)
  = Ethers.AbiCoder.DAddress (EIP55.checksumAddress (Ethers.hexlify addr)).
Proof.
  intros H. unfold Ethers.AbiCoder.decodeWord, addressWord.
  rewrite be_value_zeros, (Ethers_toBeHex_address _ H).
  rewrite (Ethers_getAddress_hexlify _ H). reflexivity.
Qed.

Lemma decodeWord_uint256 (n : Z) :
  0 <= n < 2 ^ 256 ->
  Ethers.AbiCoder.decodeWord uint256 (uintWord n) = Ethers.AbiCoder.DUint n.
Proof.
  intros H. unfold Ethers.AbiCoder.decodeWord, uintWord. cbn [uintBits].
  rewrite be_value_be_bytes. change (256 ^ Z.of_nat 32) with (2 ^ 256).
  rewrite Z.mod_small by exact H.
  change (2 ^ 256 - 1) with (Z.ones 256).
  rewrite Z.land_ones by lia. rewrite Z.mod_small by exact H. reflexivity.
Qed.

Lemma addressWord_length (addr : list byte) :
  length addr = 20%nat -> length (addressWord addr) = 32%nat.
Proof. intros H. unfold addressWord. rewrite length_app, repeat_length, H. reflexivity. Qed.

Lemma uintWord_length (n : Z) : length (uintWord n) = 32%nat.
Proof. apply be_bytes_length. Qed.

Lemma firstn_exact {A} (n : nat) (l r : list A) :
  length l = n -> firstn n (l ++ r) = l.
Proof.
  intros <-. rewrite firstn_app, Nat.sub_diag, firstn_all. cbn [firstn].
  apply app_nil_r.
Qed.

Lemma skipn_exact {A} (n : nat) (l r : list A) :
  length l = n -> skipn n (l ++ r) = r.
Proof.
  intros <-. rewrite skipn_app, Nat.sub_diag, skipn_all. reflexivity.
Qed.

(** A call that starts with the selector as the table spells it. *)
Lemma decodeFunctionCall_selector (selector body : jsstring) (bs : list byte) :
  length selector = 10%nat ->
  ValidationResult.valid (validateHexData (selector ++ body)) = true ->
  parseHexBody body = Some bs ->
  decodeFunctionCall (selector ++ body) =
  match lookup selector knownFunctions with
  | Some knownFunction =>
      match Ethers.AbiCoder.decodeWords bs (types knownFunction) bs with
      | Return decodedParams =>
          {| DecodedFunctionResult.success := true;
             DecodedFunctionResult.value :=
               name knownFunction ++ js "("
                 ++ join (js ",") (map typeName (types knownFunction))
                 ++ js ")";
             DecodedFunctionResult.error := None;
             DecodedFunctionResult.signature := Some selector;
             DecodedFunctionResult.name := Some (name knownFunction);
             DecodedFunctionResult.params := Some decodedParams |}
      | Throw message =>
          {| DecodedFunctionResult.success := true;
             DecodedFunctionResult.value := name knownFunction;
             DecodedFunctionResult.error :=
               Some (js "Identified function but failed to decode parameters: "
                       ++ message);
             DecodedFunctionResult.signature := Some selector;
             DecodedFunctionResult.name := Some (name knownFunction);
             DecodedFunctionResult.params := None |}
      end
  | None =>
      {| DecodedFunctionResult.success := true;
         DecodedFunctionResult.value := selector;
         DecodedFunctionResult.error := None;
         DecodedFunctionResult.signature := Some selector;
         DecodedFunctionResult.name := None;
         DecodedFunctionResult.params := None |}
  end.
Proof.
  intros Hl Hv Hp. unfold decodeFunctionCall. rewrite Hv. cbn [negb].
  replace (length (selector ++ body) <? 10)%nat with false
    by (symmetry; apply Nat.ltb_ge; rewrite length_app; lia).
  rewrite (firstn_exact _ _ _ Hl), (skipn_exact _ _ _ Hl).
  unfold Ethers.AbiCoder.decode. rewrite js_0x. cbn [app].
  rewrite Ethers_getBytes_0x, Hp. reflexivity.
Qed.

(** C7, as stated, fails: the transfer call of the tests, written with
    upper-case digits, is well-formed hex whose first four bytes are the
    selector a9059cbb, followed by the address word and the amount word; it
    is decoded without a name and without parameters. *)
Lemma transfer_selector_in_upper_case_not_recognised :
  ValidationResult.valid (validateHexData upperCaseTransferData) = true
  /\ Ethers.getBytesOfString upperCaseTransferData
     = Some ([xa9; x05; x9c; xbb] ++ addressWord recipient
               ++ uintWord 21771955200)
  /\ decodeFunctionCall upperCaseTransferData
     = {| DecodedFunctionResult.success := true;
          DecodedFunctionResult.value := js "0xA9059CBB";
          DecodedFunctionResult.error := None;
          DecodedFunctionResult.signature := Some (js "0xA9059CBB");
          DecodedFunctionResult.name := None;
          DecodedFunctionResult.params := None |}.
Proof.
  split; [vm_compute; reflexivity|]. split; vm_compute; reflexivity.
Qed.

(** C7, amended: for every input that starts with the selector as the table
    spells it, the ten characters 0xa9059cbb, followed by the hex (in either
    case) of a 20-byte address left-padded to a word and of a 256-bit
    big-endian amount, the call is decoded as transfer, with that signature
    and two parameters in order: the address, equal to the encoded one up to
    the case of its letters, and the amount. *)
Theorem decodeFunctionCall_transfer
    (body : jsstring) (addr : list byte) (amount : Z) :
  length addr = 20%nat -> 0 <= amount < 2 ^ 256 ->
  parseHexBody body = Some (addressWord addr ++ uintWord amount) ->
  exists a,
    decodeFunctionCall (js "0xa9059cbb" ++ body)
    = {| DecodedFunctionResult.success := true;
         DecodedFunctionResult.value := js "transfer(address,uint256)";
         DecodedFunctionResult.error := None;
         DecodedFunctionResult.signature := Some (js "0xa9059cbb");
         DecodedFunctionResult.name := Some (js "transfer");
         DecodedFunctionResult.params :=
           Some [Ethers.AbiCoder.DAddress a; Ethers.AbiCoder.DUint amount] |}
    /\ toLowerCase a = Ethers.hexlify addr
    /\ ValidationResult.valid (validateHexData (js "0xa9059cbb" ++ body)) = true
    /\ Ethers.getBytesOfString (js "0xa9059cbb" ++ body)
       = Some ([xa9; x05; x9c; xbb] ++ addressWord addr ++ uintWord amount).
Proof.
  intros Hl Ha Hp.
  pose proof (addressWord_length _ Hl) as Lw.
  assert (Hv : ValidationResult.valid (validateHexData (js "0xa9059cbb" ++ body))
               = true).
  { change (js "0xa9059cbb" ++ body)
      with (48 :: 120 :: js "a9059cbb" ++ body).
    rewrite validateHexData_0x, forallb_app, (parseHexBody_forallb _ _ Hp).
    rewrite length_app, (parseHexBody_length _ _ Hp), length_app, Lw,
      uintWord_length.
    reflexivity. }
  exists (EIP55.checksumAddress (Ethers.hexlify addr)).
  split; [|split; [apply checksumAddress_lower|split; [exact Hv|]]].
  - rewrite (decodeFunctionCall_selector (js "0xa9059cbb") _ _ eq_refl Hv Hp).
    change (lookup (js "0xa9059cbb") knownFunctions)
      with (Some {| name := js "transfer"; types := [address; uint256] |}).
    cbn [types name Ethers.AbiCoder.decodeWords].
    rewrite length_app, Lw, uintWord_length.
    rewrite (firstn_exact _ _ _ Lw), (skipn_exact _ _ _ Lw).
    rewrite uintWord_length.
    cbn [Nat.add Nat.ltb Nat.leb outcome_bind].
    rewrite firstn_all2 by (rewrite uintWord_length; lia).
    rewrite (decodeWord_address _ Hl), (decodeWord_uint256 _ Ha). reflexivity.
  - change (js "0xa9059cbb" ++ body) with (48 :: 120 :: js "a9059cbb" ++ body).
    rewrite Ethers_getBytes_0x.
    apply (parseHexBody_app (js "a9059cbb") body [xa9; x05; x9c; xbb]);
      [reflexivity|exact Hp].
Qed.

Lemma decodeFunctionCall_transfer_witness :
  length recipient = 20%nat /\ 0 <= 21771955200 < 2 ^ 256
  /\ exists a,
    decodeFunctionCall (js "0xa9059cbb" ++ skipn 10 transferData)
    = {| DecodedFunctionResult.success := true;
         DecodedFunctionResult.value := js "transfer(address,uint256)";
         DecodedFunctionResult.error := None;
         DecodedFunctionResult.signature := Some (js "0xa9059cbb");
         DecodedFunctionResult.name := Some (js "transfer");
         DecodedFunctionResult.params :=
           Some [Ethers.AbiCoder.DAddress a; Ethers.AbiCoder.DUint 21771955200] |}
    /\ toLowerCase a = Ethers.hexlify recipient
    /\ ValidationResult.valid
         (validateHexData (js "0xa9059cbb" ++ skipn 10 transferData)) = true
    /\ Ethers.getBytesOfString (js "0xa9059cbb" ++ skipn 10 transferData)
       = Some ([xa9; x05; x9c; xbb] ++ addressWord recipient
                 ++ uintWord 21771955200).
Proof.
  split; [reflexivity|]. split; [split; [lia|reflexivity]|].
  apply (decodeFunctionCall_transfer (skipn 10 transferData) recipient 21771955200).
  - reflexivity.
  - split; [lia|reflexivity].
  - vm_compute. reflexivity.
Defined.

(** The call of the decoder test, in full. *)
Example decodeFunctionCall_transferData :
  decodeFunctionCall transferData
  = {| DecodedFunctionResult.success := true;
       DecodedFunctionResult.value := js "transfer(address,uint256)";
       DecodedFunctionResult.error := None;
       DecodedFunctionResult.signature := Some (js "0xa9059cbb");
       DecodedFunctionResult.name := Some (js "transfer");
       DecodedFunctionResult.params :=
         Some [ Ethers.AbiCoder.DAddress
                  (js "0x8b4B268a9aA797fD60889E88AC7bE9a0C4b37Ff4");
                Ethers.AbiCoder.DUint 21771955200 ] |}
  /\ decimal 21771955200 = js "21771955200".
Proof. split; vm_compute; reflexivity. Qed.

Lemma lookup_In {A} (key : jsstring) (table : list (jsstring * A)) (v : A) :
  lookup key table = Some v -> In (key, v) table.
Proof.
  induction table as [|[k w] table IH]; [discriminate|].
  cbn [lookup]. destruct (jseqb key k) eqn:E.
  - apply jseqb_eq in E. subst k. intros H. inversion H. left. reflexivity.
  - intros H. right. apply IH, H.
Qed.

Lemma lookup_known_selector (selector : jsstring) (f : KnownFunction) :
  lookup selector knownFunctions = Some f ->
  length selector = 10%nat
  /\ exists bytes, selector = 48 :: 120 :: hexBody bytes
                   /\ In bytes knownSelectors.
Proof.
  intros H. apply lookup_In in H. unfold knownFunctions in H. cbn [In] in H.
  destruct H as [H|[H|[H|[H|[]]]]]; inversion H; subst; clear H;
    (split; [reflexivity|]).
  - exists [xa9; x05; x9c; xbb]. split; [reflexivity|]. cbn. tauto.
  - exists [x23; xb8; x72; xdd]. split; [reflexivity|]. cbn. tauto.
  - exists [x09; x5e; xa7; xb3]. split; [reflexivity|]. cbn. tauto.
  - exists [x70; xa0; x82; x31]. split; [reflexivity|]. cbn. tauto.
Qed.

(** The first ten characters of a well-formed input spell its first four
    bytes. *)
Lemma selector_bytes (s : jsstring) (bs : list byte) :
  Ethers.getBytesOfString s = Some bs ->
  ValidationResult.valid (validateHexData s) = true ->
  Ethers.getBytesOfString (firstn 10 s) = Some (firstn 4 bs).
Proof.
  intros Hb Hv.
  destruct (validateHexData_valid s Hv) as (d & bs' & -> & _ & _ & Hp & _).
  rewrite Ethers_getBytes_0x in Hb. cbn [firstn]. rewrite Ethers_getBytes_0x.
  apply (parseHexBody_firstn 4), Hb.
Qed.

(** C8: a well-formed input of at least four bytes whose first four bytes
    are none of the four known selectors is decoded with success, the
    signature (and the value) being the selector as the input spells it,
    without name, parameters or error. *)
Theorem decodeFunctionCall_unknown_selector (s : jsstring) (bs : list byte) :
  ValidationResult.valid (validateHexData s) = true ->
  Ethers.getBytesOfString s = Some bs ->
  (4 <= length bs)%nat ->
  ~ In (firstn 4 bs) knownSelectors ->
  decodeFunctionCall s
  = {| DecodedFunctionResult.success := true;
       DecodedFunctionResult.value := firstn 10 s;
       DecodedFunctionResult.error := None;
       DecodedFunctionResult.signature := Some (firstn 10 s);
       DecodedFunctionResult.name := None;
       DecodedFunctionResult.params := None |}.
Proof.
  intros Hv Hb Hl Hu. unfold decodeFunctionCall. rewrite Hv. cbn [negb].
  destruct (validateHexData_bytes s Hv) as (bs' & Hb' & Hlen).
  rewrite Hb in Hb'. inversion Hb'; subst bs'.
  replace (length s <? 10)%nat with false by (symmetry; apply Nat.ltb_ge; lia).
  destruct (lookup (firstn 10 s) knownFunctions) as [f|] eqn:E; [|reflexivity].
  destruct (lookup_known_selector _ _ E) as (_ & sel & Hsel & Hin).
  pose proof (selector_bytes s bs Hb Hv) as Hs.
  rewrite Hsel, Ethers_getBytes_0x, parseHexBody_hexBody in Hs.
  exfalso. apply Hu. replace (firstn 4 bs) with sel by congruence. exact Hin.
Qed.

Lemma decodeFunctionCall_unknown_selector_witness :
  ValidationResult.valid (validateHexData unknownFunction) = true
  /\ Ethers.getBytesOfString unknownFunction
     = Some ([xab; xcd; xef; x12] ++ uintWord 1)
  /\ decodeFunctionCall unknownFunction
     = {| DecodedFunctionResult.success := true;
          DecodedFunctionResult.value := js "0xabcdef12";
          DecodedFunctionResult.error := None;
          DecodedFunctionResult.signature := Some (js "0xabcdef12");
          DecodedFunctionResult.name := None;
          DecodedFunctionResult.params := None |}.
Proof.
  split; [reflexivity|]. split; [vm_compute; reflexivity|].
  apply (decodeFunctionCall_unknown_selector unknownFunction
           ([xab; xcd; xef; x12] ++ uintWord 1)).
  - reflexivity.
  - vm_compute. reflexivity.
  - vm_compute. lia.
  - cbn [knownSelectors In app firstn].
    intros [H|[H|[H|[H|[]]]]]; discriminate H.
Defined.

(** The decoder throws exactly when the data runs out. *)
Lemma decodeWords_throws (buffer : list byte) (ts : list abitype)
    (bs : list byte) (m : jsstring) :
  Ethers.AbiCoder.decodeWords buffer ts bs = Throw m ->
  (exists offset, m = Ethers.AbiCoder.bufferOverrun buffer offset)
  /\ (length bs < 32 * length ts)%nat.
Proof.
  revert bs. induction ts as [|t ts IH]; intros bs; [discriminate|].
  cbn [Ethers.AbiCoder.decodeWords length].
  destruct (Nat.ltb_spec (length bs) 32) as [Hs|Hs].
  - intros H. inversion H. split; [eexists; reflexivity|lia].
  - destruct (Ethers.AbiCoder.decodeWords buffer ts (skipn 32 bs)) as [r|m'] eqn:E;
      cbn [outcome_bind]; intros H; inversion H; subst.
    destruct (IH _ E) as [Hm Hlen]. split; [exact Hm|].
    rewrite length_skipn in Hlen. lia.
Qed.

Lemma decodeWords_short (buffer : list byte) (ts : list abitype) (bs : list byte) :
  (length bs < 32 * length ts)%nat ->
  exists offset,
    Ethers.AbiCoder.decodeWords buffer ts bs
    = Throw (Ethers.AbiCoder.bufferOverrun buffer offset).
Proof.
  revert bs. induction ts as [|t ts IH]; intros bs H; [cbn in H; lia|].
  cbn [Ethers.AbiCoder.decodeWords].
  destruct (Nat.ltb_spec (length bs) 32) as [Hs|Hs]; [eexists; reflexivity|].
  destruct (IH (skipn 32 bs)) as [offset ->];
    [rewrite length_skipn; cbn [length] in H; lia|].
  exists offset. reflexivity.
Qed.

Lemma decodeWords_long (buffer : list byte) (ts : list abitype) (bs : list byte) :
  (32 * length ts <= length bs)%nat ->
  exists ps, Ethers.AbiCoder.decodeWords buffer ts bs = Return ps
             /\ length ps = length ts.
Proof.
  revert bs. induction ts as [|t ts IH]; intros bs H.
  - exists []. split; reflexivity.
  - cbn [length] in H. cbn [Ethers.AbiCoder.decodeWords].
    replace (length bs <? 32)%nat with false by (symmetry; apply Nat.ltb_ge; lia).
    destruct (IH (skipn 32 bs)) as (ps & -> & Hl); [rewrite length_skipn; lia|].
    eexists. split; [reflexivity|]. cbn [length]. rewrite Hl. reflexivity.
Qed.

(** The note of the decoder when the reader runs out of data: the text of
    the decoder, the message of the error, and the details of the error. *)
Lemma out_of_bounds_note (buffer : list byte) (offset : nat) :
  exists details,
    js "Identified function but failed to decode parameters: "
      ++ Ethers.AbiCoder.bufferOverrun buffer offset
    = js "Identified function but failed to decode parameters: data out-of-bounds"
        ++ details.
Proof.
  eexists. unfold Ethers.AbiCoder.bufferOverrun, Ethers.makeError. reflexivity.
Qed.

Lemma In_knownFunctions (selector : jsstring) (f : KnownFunction) :
  In (selector, f) knownFunctions -> lookup selector knownFunctions = Some f.
Proof.
  unfold knownFunctions. cbn [In].
  intros [H|[H|[H|[H|[]]]]]; inversion H; subst; reflexivity.
Qed.

(** A valid call whose first ten characters are in the table: what is
    decoded is the bytes after the first four. *)
Lemma decodeFunctionCall_known (s : jsstring) (f : KnownFunction) :
  ValidationResult.valid (validateHexData s) = true ->
  lookup (firstn 10 s) knownFunctions = Some f ->
  exists bs,
    Ethers.getBytesOfString s = Some bs
    /\ length s = (2 + 2 * length bs)%nat
    /\ (4 <= length bs)%nat
    /\ decodeFunctionCall s
       = match Ethers.AbiCoder.decodeWords (skipn 4 bs) (types f) (skipn 4 bs) with
         | Return decodedParams =>
             {| DecodedFunctionResult.success := true;
                DecodedFunctionResult.value :=
                  name f ++ js "(" ++ join (js ",") (map typeName (types f))
                    ++ js ")";
                DecodedFunctionResult.error := None;
                DecodedFunctionResult.signature := Some (firstn 10 s);
                DecodedFunctionResult.name := Some (name f);
                DecodedFunctionResult.params := Some decodedParams |}
         | Throw message =>
             {| DecodedFunctionResult.success := true;
                DecodedFunctionResult.value := name f;
                DecodedFunctionResult.error :=
                  Some (js "Identified function but failed to decode parameters: "
                          ++ message);
                DecodedFunctionResult.signature := Some (firstn 10 s);
                DecodedFunctionResult.name := Some (name f);
                DecodedFunctionResult.params := None |}
         end.
Proof.
  intros Hv Hf.
  destruct (lookup_known_selector _ _ Hf) as (Hl & _).
  destruct (validateHexData_valid s Hv) as (d & bs & Hs & _ & _ & Hp & Hd).
  assert (H10 : (10 <= length s)%nat) by (rewrite length_firstn in Hl; lia).
  assert (Hlen : length s = (2 + 2 * length bs)%nat)
    by (rewrite Hs; cbn [length]; lia).
  exists bs. split; [rewrite Hs, Ethers_getBytes_0x; exact Hp|].
  split; [exact Hlen|]. split; [lia|].
  unfold decodeFunctionCall. rewrite Hv. cbn [negb].
  replace (length s <? 10)%nat with false by (symmetry; apply Nat.ltb_ge; lia).
  rewrite Hf. unfold Ethers.AbiCoder.decode. rewrite js_0x. cbn [app].
  rewrite Ethers_getBytes_0x.
  replace (parseHexBody (skipn 10 s)) with (Some (skipn 4 bs)); [reflexivity|].
  symmetry. rewrite Hs. cbn [skipn]. apply (parseHexBody_skipn 4), Hp.
Qed.

(** C9, as stated, fails: the transfer call whose address word has bits
    set above the twenty bytes of an address is well-formed hex, its
    selector is in the table, and the address coder cannot decode the word;
    yet the parameters are returned, and no error note is attached. *)
Lemma undecodable_address_word_gives_no_error_note :
  ValidationResult.valid (validateHexData dirtyAddressCall) = true
  /\ In (firstn 10 dirtyAddressCall,
         {| name := js "transfer"; types := [address; uint256] |})
       knownFunctions
  /\ (exists word,
        Ethers.getBytesOfString dirtyAddressCall
        = Some ([xa9; x05; x9c; xbb] ++ word ++ uintWord 21771955200)
        /\ length word = 32%nat
        /\ 2 ^ 160 <= be_value word
        /\ exists message,
             Ethers.AbiCoder.decodeWord address word
             = Ethers.AbiCoder.DError message)
  /\ DecodedFunctionResult.success (decodeFunctionCall dirtyAddressCall) = true
  /\ DecodedFunctionResult.params (decodeFunctionCall dirtyAddressCall) <> None
  /\ DecodedFunctionResult.error (decodeFunctionCall dirtyAddressCall) = None.
Proof.
  split; [reflexivity|]. split; [left; reflexivity|].
  split.
  { exists (repeat xff 12 ++ recipient).
    split; [vm_compute; reflexivity|]. split; [reflexivity|].
    split; [vm_compute; discriminate|].
    eexists. vm_compute. reflexivity. }
  split; [vm_compute; reflexivity|].
  split; [vm_compute; discriminate|].
  vm_compute. reflexivity.
Qed.

(** C9, amended: for well-formed hex whose first ten characters are a
    selector of the table, the parameters cannot be decoded exactly when
    fewer than 32 bytes (64 digits) per declared parameter follow the
    selector.  The result is then still a success, with the name (also as
    value) and the signature, without parameters, and with the note
    "Identified function but failed to decode parameters: data
    out-of-bounds" followed by the details of the error.  With enough data
    the parameters are returned, one entry for each, without a note,
    whatever the words hold. *)
Theorem decodeFunctionCall_undecodable_parameters
    (s : jsstring) (f : KnownFunction) :
  ValidationResult.valid (validateHexData s) = true ->
  In (firstn 10 s, f) knownFunctions ->
  ((length s < 10 + 64 * length (types f))%nat ->
   exists details,
     decodeFunctionCall s
     = {| DecodedFunctionResult.success := true;
          DecodedFunctionResult.value := name f;
          DecodedFunctionResult.error :=
            Some (js "Identified function but failed to decode parameters: data out-of-bounds"
                    ++ details);
          DecodedFunctionResult.signature := Some (firstn 10 s);
          DecodedFunctionResult.name := Some (name f);
          DecodedFunctionResult.params := None |})
  /\ ((10 + 64 * length (types f) <= length s)%nat ->
      exists entries,
        length entries = length (types f)
        /\ decodeFunctionCall s
           = {| DecodedFunctionResult.success := true;
                DecodedFunctionResult.value :=
                  name f ++ js "(" ++ join (js ",") (map typeName (types f))
                    ++ js ")";
                DecodedFunctionResult.error := None;
                DecodedFunctionResult.signature := Some (firstn 10 s);
                DecodedFunctionResult.name := Some (name f);
                DecodedFunctionResult.params := Some entries |}).
Proof.
  intros Hv Hin. pose proof (In_knownFunctions _ _ Hin) as Hf.
  destruct (decodeFunctionCall_known s f Hv Hf) as (bs & _ & Hlen & H4 & ->).
  assert (Hl : length (skipn 4 bs) = (length bs - 4)%nat) by apply length_skipn.
  split; intros H.
  - destruct (decodeWords_short (skipn 4 bs) (types f) (skipn 4 bs))
      as [offset ->]; [lia|].
    destruct (out_of_bounds_note (skipn 4 bs) offset) as [details ->].
    exists details. reflexivity.
  - destruct (decodeWords_long (skipn 4 bs) (types f) (skipn 4 bs))
      as (ps & -> & Hps); [lia|].
    exists ps. split; [exact Hps|reflexivity].
Qed.

Lemma decodeFunctionCall_undecodable_parameters_witness :
  ValidationResult.valid (validateHexData (js "0xa9059cbb00")) = true
  /\ In (firstn 10 (js "0xa9059cbb00"),
         {| name := js "transfer"; types := [address; uint256] |})
       knownFunctions
  /\ (length (js "0xa9059cbb00") < 10 + 64 * 2)%nat
  /\ exists details,
       decodeFunctionCall (js "0xa9059cbb00")
       = {| DecodedFunctionResult.success := true;
            DecodedFunctionResult.value := js "transfer";
            DecodedFunctionResult.error :=
              Some (js "Identified function but failed to decode parameters: data out-of-bounds"
                      ++ details);
            DecodedFunctionResult.signature := Some (js "0xa9059cbb");
            DecodedFunctionResult.name := Some (js "transfer");
            DecodedFunctionResult.params := None |}.
Proof.
  split; [reflexivity|]. split; [left; reflexivity|].
  split; [vm_compute; lia|].
  apply (decodeFunctionCall_undecodable_parameters (js "0xa9059cbb00")
           {| name := js "transfer"; types := [address; uint256] |});
    [reflexivity | left; reflexivity | vm_compute; lia].
Defined.

(** A recognised call whose parameter data is shorter than its words. *)
Lemma decodeFunctionCall_short_parameters
    (selector body : jsstring) (f : KnownFunction) (bs : list byte) :
  lookup selector knownFunctions = Some f ->
  parseHexBody body = Some bs ->
  (length bs < 32 * length (types f))%nat ->
  exists details,
    decodeFunctionCall (selector ++ body)
    = {| DecodedFunctionResult.success := true;
         DecodedFunctionResult.value := name f;
         DecodedFunctionResult.error :=
           Some (js "Identified function but failed to decode parameters: data out-of-bounds"
                   ++ details);
         DecodedFunctionResult.signature := Some selector;
         DecodedFunctionResult.name := Some (name f);
         DecodedFunctionResult.params := None |}.
Proof.
  intros Hf Hp Hs.
  destruct (lookup_known_selector _ _ Hf) as (Hl & sel & Hsel & Hin).
  assert (Hv : ValidationResult.valid (validateHexData (selector ++ body)) = true).
  { rewrite Hsel in Hl |- *. cbn [app]. cbn [length] in Hl.
    rewrite validateHexData_0x, forallb_app.
    rewrite (parseHexBody_forallb _ _ (parseHexBody_hexBody sel)),
      (parseHexBody_forallb _ _ Hp).
    rewrite length_app, (parseHexBody_length _ _ Hp).
    replace (length (hexBody sel)) with 8%nat by lia.
    replace (8 + 2 * length bs)%nat with (2 * (4 + length bs))%nat by lia.
    replace (Nat.even (2 * (4 + length bs))) with true
      by (symmetry; apply Nat.even_spec; eexists; reflexivity).
    reflexivity. }
  rewrite (decodeFunctionCall_selector _ _ _ Hl Hv Hp), Hf.
  destruct (decodeWords_short bs (types f) bs Hs) as [offset ->].
  destruct (out_of_bounds_note bs offset) as [details ->].
  exists details. reflexivity.
Qed.

(** C10: a failed decode has the empty string as value and a reason that is
    not empty. *)
Theorem failed_decode_has_no_value (s : jsstring) :
  (DecodedResult.success (decodeAsciiData s) = false ->
   DecodedResult.value (decodeAsciiData s) = []
   /\ exists reason, DecodedResult.error (decodeAsciiData s) = Some reason
                     /\ reason <> [])
  /\ (DecodedFunctionResult.success (decodeFunctionCall s) = false ->
      DecodedFunctionResult.value (decodeFunctionCall s) = []
      /\ DecodedFunctionResult.signature (decodeFunctionCall s) = None
      /\ DecodedFunctionResult.name (decodeFunctionCall s) = None
      /\ DecodedFunctionResult.params (decodeFunctionCall s) = None
      /\ exists reason,
           DecodedFunctionResult.error (decodeFunctionCall s) = Some reason
           /\ reason <> []).
Proof.
  split.
  - unfold decodeAsciiData.
    destruct (ValidationResult.valid (validateHexData s)) eqn:Hv; cbn [negb].
    + destruct (length s <? 66)%nat.
      * intros _. split; [reflexivity|]. eexists. split; [reflexivity|discriminate].
      * destruct (outcome_bind (Ethers.dataSlice s 32) Ethers.toUtf8String);
          [discriminate|].
        intros _. split; [reflexivity|]. eexists. split; [reflexivity|discriminate].
    + intros _. split; [reflexivity|]. apply validateHexData_invalid, Hv.
  - unfold decodeFunctionCall.
    destruct (ValidationResult.valid (validateHexData s)) eqn:Hv; cbn [negb].
    + destruct (length s <? 10)%nat.
      * intros _. repeat split. eexists. split; [reflexivity|discriminate].
      * destruct (lookup (firstn 10 s) knownFunctions) as [f|]; [|discriminate].
        destruct (Ethers.AbiCoder.decode (types f) (js "0x" ++ skipn 10 s));
          discriminate.
    + intros _. repeat split. apply validateHexData_invalid, Hv.
Qed.

(** * Further properties of the decoder *)

(** ** Validation and bytes *)

(** X1: [validateHexData] accepts a text exactly when it starts with the
    lower-case prefix 0x and ethers' [getBytes] reads it as bytes; the hex
    of any byte sequence is accepted. *)
Theorem validateHexData_accepts_what_spells_bytes (s : jsstring) :
  (ValidationResult.valid (validateHexData s) = true
   <-> startsWith s (js "0x") = true
       /\ exists bs, Ethers.getBytesOfString s = Some bs)
  /\ (forall bs,
        validateHexData (Ethers.hexlify bs)
        = {| ValidationResult.valid := true; ValidationResult.error := None |}).
Proof.
  assert (Hparsed : forall digits bs,
             parseHexBody digits = Some bs ->
             validateHexData (48 :: 120 :: digits)
             = {| ValidationResult.valid := true;
                  ValidationResult.error := None |}).
  { intros digits bs Hp. rewrite validateHexData_0x.
    rewrite (parseHexBody_forallb _ _ Hp), (parseHexBody_length _ _ Hp).
    replace (Nat.even (2 * length bs)) with true
      by (symmetry; apply Nat.even_spec; eexists; reflexivity).
    reflexivity. }
  split; [split|].
  - intros H. destruct (validateHexData_valid s H) as (d & bs & -> & _ & _ & Hp & _).
    split; [rewrite startsWith_0x_cons; reflexivity|].
    exists bs. rewrite Ethers_getBytes_0x. exact Hp.
  - intros [Hp [bs Hb]]. rewrite (startsWith_0x _ Hp) in Hb |- *.
    rewrite Ethers_getBytes_0x in Hb. rewrite (Hparsed _ _ Hb). reflexivity.
  - intros bs. rewrite hexlify_cons.
    apply (Hparsed _ bs), parseHexBody_hexBody.
Qed.

(** ** Function calls: when the decoder succeeds *)

(** X2: [decodeFunctionCall] succeeds exactly on valid hex of at least ten
    characters (four bytes); it then always reports the first ten
    characters as the signature.  Valid hex that is shorter fails with the
    selector message, invalid input with the reason of the validation. *)
Theorem decodeFunctionCall_succeeds_iff (s : jsstring) :
  DecodedFunctionResult.success (decodeFunctionCall s)
  = ValidationResult.valid (validateHexData s) && (10 <=? length s)%nat
  /\ (DecodedFunctionResult.success (decodeFunctionCall s) = true ->
      DecodedFunctionResult.signature (decodeFunctionCall s)
      = Some (firstn 10 s))
  /\ (ValidationResult.valid (validateHexData s) = true ->
      (length s < 10)%nat ->
      decodeFunctionCall s
      = functionFailure
          (Some (js "Data too short, minimum 4 bytes required for function selector")))
  /\ (ValidationResult.valid (validateHexData s) = false ->
      decodeFunctionCall s
      = functionFailure (ValidationResult.error (validateHexData s))).
Proof.
  unfold decodeFunctionCall.
  destruct (ValidationResult.valid (validateHexData s)) eqn:Hv; cbn [negb andb].
  - destruct (Nat.ltb_spec (length s) 10) as [Hs|Hs].
    + replace (10 <=? length s)%nat with false
        by (symmetry; apply Nat.leb_gt; exact Hs).
      repeat split; try reflexivity; discriminate.
    + replace (10 <=? length s)%nat with true
        by (symmetry; apply Nat.leb_le; exact Hs).
      destruct (lookup (firstn 10 s) knownFunctions) as [f|];
        [destruct (Ethers.AbiCoder.decode (types f) (js "0x" ++ skipn 10 s))|];
        repeat split; try reflexivity; try discriminate; intros; lia.
  - repeat split; try reflexivity; discriminate.
Qed.

(** ** Display *)

(** X3: for a successful result [formatDecodedData] returns at most 103
    characters: the value itself when it has at most 100, and otherwise
    its first 100 characters followed by three dots. *)
Theorem formatDecodedData_truncates (r : DecodedResult.t) :
  DecodedResult.success r = true ->
  (length (formatDecodedData r) <= 103)%nat
  /\ firstn 100 (formatDecodedData r) = firstn 100 (DecodedResult.value r)
  /\ ((length (DecodedResult.value r) <= 100)%nat ->
      formatDecodedData r = DecodedResult.value r)
  /\ ((100 < length (DecodedResult.value r))%nat ->
      formatDecodedData r = firstn 100 (DecodedResult.value r) ++ js "..."
      /\ length (formatDecodedData r) = 103%nat).
Proof.
  intros Hs. unfold formatDecodedData. rewrite Hs. cbn [negb].
  destruct (Nat.ltb_spec 100 (length (DecodedResult.value r))) as [Hl|Hl].
  - assert (Hf : length (firstn 100 (DecodedResult.value r)) = 100%nat)
      by (rewrite length_firstn; lia).
    assert (Hd : length (js "...") = 3%nat) by reflexivity.
    split; [rewrite length_app, Hf, Hd; lia|].
    split; [rewrite (firstn_exact _ _ _ Hf); reflexivity|].
    split; [intros; lia|].
    intros _. split; [reflexivity|]. rewrite length_app, Hf, Hd. reflexivity.
  - split; [lia|]. split; [reflexivity|]. split; [reflexivity|]. intros; lia.
Qed.

Lemma formatDecodedData_truncates_witness :
  DecodedResult.success longData = true
  /\ (length (formatDecodedData longData) <= 103)%nat
  /\ firstn 100 (formatDecodedData longData)
     = firstn 100 (DecodedResult.value longData)
  /\ ((length (DecodedResult.value longData) <= 100)%nat ->
      formatDecodedData longData = DecodedResult.value longData)
  /\ ((100 < length (DecodedResult.value longData))%nat ->
      formatDecodedData longData
      = firstn 100 (DecodedResult.value longData) ++ js "..."
      /\ length (formatDecodedData longData) = 103%nat).
Proof.
  split; [reflexivity|].
  apply (formatDecodedData_truncates longData). reflexivity.
Defined.

(** ** Embedded text: ASCII payloads *)

Lemma validateHexData_hexlify (bs : list byte) :
  validateHexData (Ethers.hexlify bs)
  = {| ValidationResult.valid := true; ValidationResult.error := None |}.
Proof.
  rewrite hexlify_cons, validateHexData_0x.
  rewrite (parseHexBody_forallb _ _ (parseHexBody_hexBody bs)), hexBody_length.
  replace (Nat.even (2 * length bs)) with true
    by (symmetry; apply Nat.even_spec; eexists; reflexivity).
  reflexivity.
Qed.

Lemma hexlify_length (bs : list byte) :
  length (Ethers.hexlify bs) = (2 + 2 * length bs)%nat.
Proof. rewrite hexlify_cons. cbn [length]. rewrite hexBody_length. lia. Qed.

Lemma codeUnits_ascii (bs : list byte) :
  flat_map Ethers.codeUnits (map Z_of_byte bs) = map Z_of_byte bs.
Proof.
  induction bs as [|b bs IH]; [reflexivity|].
  cbn [map flat_map]. rewrite IH. unfold Ethers.codeUnits.
  pose proof (Z_of_byte_range b) as R.
  replace (Z_of_byte b <=? 65535) with true by (symmetry; apply Z.leb_le; lia).
  reflexivity.
Qed.

(** A payload of ASCII bytes after a 32-byte head is always decoded: to its
    characters, trimmed, without the NULs. *)
Lemma decodeAsciiData_ascii_payload (head payload : list byte) :
  length head = 32%nat ->
  Forall (fun b => Z_of_byte b < 128) payload ->
  decodeAsciiData (Ethers.hexlify (head ++ payload))
  = {| DecodedResult.success := true;
       DecodedResult.value := removeNul (trim (map Z_of_byte payload));
       DecodedResult.error := None |}.
Proof.
  intros Hh Hp. unfold decodeAsciiData.
  rewrite validateHexData_hexlify. cbn [ValidationResult.valid negb].
  replace (length (Ethers.hexlify (head ++ payload)) <? 66)%nat with false
    by (symmetry; apply Nat.ltb_ge; rewrite hexlify_length, length_app; lia).
  unfold Ethers.dataSlice. rewrite Ethers_getBytes_hexlify.
  cbn [outcome_bind]. rewrite (skipn_exact _ _ _ Hh).
  rewrite Ethers_toUtf8String_hexlify, (getUtf8CodePoints_ascii _ Hp).
  cbn [outcome_bind]. rewrite codeUnits_ascii. reflexivity.
Qed.

Lemma trimStart_head (s : jsstring) :
  isWhiteSpace (hd 0 s) = false -> trimStart s = s.
Proof. destruct s as [|c s]; [reflexivity|]. cbn [hd trimStart]. intros ->. reflexivity. Qed.

Lemma rev_last (s : jsstring) : hd 0 (rev s) = last s 0.
Proof.
  destruct s as [|c s] using rev_ind; [reflexivity|].
  rewrite rev_app_distr, last_last. reflexivity.
Qed.

Lemma trim_trimmed (s : jsstring) : trimmed s = true -> trim s = s.
Proof.
  unfold trimmed. intros H. apply andb_prop in H as [Hs He].
  apply negb_true_iff in Hs, He. unfold trim, trimEnd.
  rewrite (trimStart_head s Hs), trimStart_head by (rewrite rev_last; exact He).
  apply rev_involutive.
Qed.

Lemma trimmed_zeros (s : jsstring) (n : nat) :
  trimmed s = true -> trimmed (s ++ repeat 0 n) = true.
Proof.
  unfold trimmed. intros H. apply andb_prop in H as [Hs He].
  apply andb_true_intro. split.
  - destruct s as [|c s]; [|exact Hs]. destruct n; reflexivity.
  - destruct n as [|n]; [rewrite app_nil_r; exact He|].
    cbn [repeat]. rewrite repeat_cons, app_assoc, last_last. reflexivity.
Qed.

Lemma removeNul_zeros (s : jsstring) (n : nat) :
  isAsciiText s = true -> removeNul (s ++ repeat 0 n) = s.
Proof.
  unfold isAsciiText, removeNul. intros H. rewrite filter_app.
  replace (filter (fun c => negb (c =? 0)) (repeat 0 n)) with (@nil Z)
    by (induction n as [|n IH]; [reflexivity|exact IH]).
  rewrite app_nil_r. induction s as [|c s IH]; [reflexivity|].
  cbn [forallb] in H. apply andb_prop in H as [Hc Hs].
  apply andb_prop in Hc as [Hc _]. apply Z.ltb_lt in Hc.
  cbn [filter]. replace (c =? 0) with false by (symmetry; apply Z.eqb_neq; lia).
  cbn [negb]. rewrite (IH Hs). reflexivity.
Qed.

Lemma asciiText_bytes (s : jsstring) :
  isAsciiText s = true ->
  map Z_of_byte (map byte_of_Z s) = s
  /\ Forall (fun b => Z_of_byte b < 128) (map byte_of_Z s).
Proof.
  unfold isAsciiText. induction s as [|c s IH]; [split; [reflexivity|constructor]|].
  cbn [forallb]. intros H. apply andb_prop in H as [Hc Hs].
  apply andb_prop in Hc as [H0 H1]. apply Z.ltb_lt in H0, H1.
  destruct (IH Hs) as [IHm IHf].
  assert (Hz : Z_of_byte (byte_of_Z c) = c)
    by (rewrite Z_of_byte_of_Z; apply Z.mod_small; lia).
  cbn [map]. rewrite Hz, IHm. split; [reflexivity|].
  constructor; [rewrite Hz; exact H1 | exact IHf].
Qed.

Lemma zeros_bytes (n : nat) :
  map Z_of_byte (repeat x00 n) = repeat 0 n
  /\ Forall (fun b => Z_of_byte b < 128) (repeat x00 n).
Proof.
  induction n as [|n [IHm IHf]]; [split; [reflexivity|constructor]|].
  cbn [repeat map]. rewrite IHm. split; [reflexivity|].
  constructor; [reflexivity|exact IHf].
Qed.

Lemma decodeAsciiData_embedText (head : list byte) (text : jsstring) (padding : nat) :
  length head = 32%nat -> isAsciiText text = true -> trimmed text = true ->
  decodeAsciiData (embedText head text padding)
  = {| DecodedResult.success := true;
       DecodedResult.value := text;
       DecodedResult.error := None |}.
Proof.
  intros Hh Ha Ht. unfold embedText.
  destruct (asciiText_bytes _ Ha) as [Hm Hf].
  destruct (zeros_bytes padding) as [Zm Zf].
  rewrite (decodeAsciiData_ascii_payload _ _ Hh)
    by (apply Forall_app; split; assumption).
  rewrite map_app, Hm, Zm, (trim_trimmed _ (trimmed_zeros _ _ Ht)),
    (removeNul_zeros _ _ Ha).
  reflexivity.
Qed.

(** X4: a round trip.  An ASCII text without NUL characters and without
    white space at its ends, written after a 32-byte head and followed by
    any number of zero bytes of padding, is decoded to itself. *)
Theorem decodeAsciiData_returns_embedded_text
    (head : list byte) (text : jsstring) (padding : nat) :
  length head = 32%nat -> isAsciiText text = true -> trimmed text = true ->
  decodeAsciiData (embedText head text padding)
  = {| DecodedResult.success := true;
       DecodedResult.value := text;
       DecodedResult.error := None |}
  /\ Ethers.getBytesOfString (embedText head text padding)
     = Some (head ++ map byte_of_Z text ++ repeat x00 padding)
  /\ map Z_of_byte (map byte_of_Z text) = text.
Proof.
  intros Hh Ha Ht. split; [apply decodeAsciiData_embedText; assumption|].
  split; [apply Ethers_getBytes_hexlify | apply asciiText_bytes, Ha].
Qed.

Lemma decodeAsciiData_returns_embedded_text_witness :
  length (be_bytes 32 138) = 32%nat /\ isAsciiText transferData = true
  /\ trimmed transferData = true
  /\ embedText (be_bytes 32 138) transferData 22 = asciiEncodedData
  /\ decodeAsciiData (embedText (be_bytes 32 138) transferData 22)
     = {| DecodedResult.success := true;
          DecodedResult.value := transferData;
          DecodedResult.error := None |}
  /\ Ethers.getBytesOfString (embedText (be_bytes 32 138) transferData 22)
     = Some (be_bytes 32 138 ++ map byte_of_Z transferData ++ repeat x00 22)
  /\ map Z_of_byte (map byte_of_Z transferData) = transferData.
Proof.
  split; [reflexivity|]. split; [reflexivity|]. split; [reflexivity|].
  split; [vm_compute; reflexivity|].
  apply (decodeAsciiData_returns_embedded_text (be_bytes 32 138) transferData 22);
    reflexivity.
Defined.

Lemma isHexDigit_ascii (c : Z) :
  isHexDigit c = true -> isWhiteSpace c = false /\ (0 <? c) && (c <? 128) = true.
Proof.
  intros H. apply isHexDigit_spec in H. unfold isWhiteSpace.
  destruct H as [H|[H|H]]; split;
    repeat match goal with
           | |- context [?a <=? ?b] =>
               first [ replace (a <=? b) with true by (symmetry; apply Z.leb_le; lia)
                     | replace (a <=? b) with false by (symmetry; apply Z.leb_gt; lia) ]
           | |- context [?a <? ?b] =>
               first [ replace (a <? b) with true by (symmetry; apply Z.ltb_lt; lia)
                     | replace (a <? b) with false by (symmetry; apply Z.ltb_ge; lia) ]
           | |- context [?a =? ?b] =>
               replace (a =? b) with false by (symmetry; apply Z.eqb_neq; lia)
           end; reflexivity.
Qed.

(** Valid hex data is ASCII text without white space. *)
Lemma valid_hex_is_text (s : jsstring) :
  ValidationResult.valid (validateHexData s) = true ->
  isAsciiText s = true /\ trimmed s = true.
Proof.
  intros H. destruct (validateHexData_valid s H) as (d & bs & -> & Hd & _).
  assert (Ha : isAsciiText d = true).
  { unfold isAsciiText. rewrite forallb_forall in Hd |- *.
    intros c Hc. apply isHexDigit_ascii, Hd, Hc. }
  split; [exact Ha|]. unfold trimmed. cbn [hd].
  destruct d as [|c d] using rev_ind; [reflexivity|].
  change (48 :: 120 :: d ++ [c]) with ((48 :: 120 :: d) ++ [c]).
  rewrite last_last. rewrite forallb_app in Hd. apply andb_prop in Hd as [_ Hc].
  cbn [forallb] in Hc. apply andb_prop in Hc as [Hc _].
  destruct (isHexDigit_ascii _ Hc) as [-> _]. reflexivity.
Qed.

(** X5: call data embedded as ASCII text is recovered whole, and decoding
    the recovered text as a function call gives what decoding the call
    data directly gives. *)
Theorem decodeFunctionCall_of_embedded_call
    (head : list byte) (call : jsstring) (padding : nat) :
  length head = 32%nat ->
  ValidationResult.valid (validateHexData call) = true ->
  decodeAsciiData (embedText head call padding)
  = {| DecodedResult.success := true;
       DecodedResult.value := call;
       DecodedResult.error := None |}
  /\ decodeFunctionCall
       (DecodedResult.value (decodeAsciiData (embedText head call padding)))
     = decodeFunctionCall call.
Proof.
  intros Hh Hv. destruct (valid_hex_is_text _ Hv) as [Ha Ht].
  rewrite (decodeAsciiData_embedText _ _ _ Hh Ha Ht). split; reflexivity.
Qed.

Lemma decodeFunctionCall_of_embedded_call_witness :
  length (be_bytes 32 138) = 32%nat
  /\ ValidationResult.valid (validateHexData transferData) = true
  /\ decodeAsciiData (embedText (be_bytes 32 138) transferData 22)
     = {| DecodedResult.success := true;
          DecodedResult.value := transferData;
          DecodedResult.error := None |}
  /\ decodeFunctionCall
       (DecodedResult.value
          (decodeAsciiData (embedText (be_bytes 32 138) transferData 22)))
     = decodeFunctionCall transferData.
Proof.
  split; [reflexivity|]. split; [reflexivity|].
  apply (decodeFunctionCall_of_embedded_call (be_bytes 32 138) transferData 22);
    reflexivity.
Defined.

(** X6: the NULs are removed after the trimming, so white space next to a
    NUL at an end of the text stays: a payload that starts with a NUL and
    a space is decoded to a text that starts with the space. *)
Theorem decodeAsciiData_trims_before_removing_nul
    (head : list byte) (text : jsstring) (padding : nat) :
  length head = 32%nat -> isAsciiText text = true ->
  text <> [] -> isWhiteSpace (last text 0) = false ->
  decodeAsciiData
    (Ethers.hexlify
       (head ++ x00 :: x20 :: map byte_of_Z text ++ repeat x00 padding))
  = {| DecodedResult.success := true;
       DecodedResult.value := 32 :: text;
       DecodedResult.error := None |}
  /\ trimmed (32 :: text) = false.
Proof.
  intros Hh Ha Hne Hl. split; [|reflexivity].
  destruct (asciiText_bytes _ Ha) as [Hm Hf].
  destruct (zeros_bytes padding) as [Zm Zf].
  rewrite (decodeAsciiData_ascii_payload _ _ Hh).
  2:{ constructor; [reflexivity|]. constructor; [reflexivity|].
      apply Forall_app. split; assumption. }
  cbn [map]. rewrite map_app, Hm, Zm.
  change (Z_of_byte x00) with 0. change (Z_of_byte x20) with 32.
  assert (Ht : trimmed (0 :: 32 :: text) = true).
  { unfold trimmed. cbn [hd]. destruct text as [|c text]; [contradiction|].
    change (last (0 :: 32 :: c :: text) 0) with (last (c :: text) 0).
    rewrite Hl. reflexivity. }
  change (0 :: 32 :: text ++ repeat 0 padding)
    with ((0 :: 32 :: text) ++ repeat 0 padding).
  rewrite (trim_trimmed _ (trimmed_zeros _ _ Ht)).
  change ((0 :: 32 :: text) ++ repeat 0 padding)
    with (0 :: (32 :: text) ++ repeat 0 padding).
  unfold removeNul at 1. cbn [filter Z.eqb negb].
  fold (removeNul ((32 :: text) ++ repeat 0 padding)).
  rewrite removeNul_zeros; [reflexivity|].
  unfold isAsciiText in *. cbn [forallb]. rewrite Ha. reflexivity.
Qed.

Lemma decodeAsciiData_trims_before_removing_nul_witness :
  length (repeat x00 32) = 32%nat /\ isAsciiText (js "ok") = true
  /\ js "ok" <> [] /\ isWhiteSpace (last (js "ok") 0) = false
  /\ decodeAsciiData
       (Ethers.hexlify
          (repeat x00 32 ++ x00 :: x20 :: map byte_of_Z (js "ok") ++ repeat x00 0))
     = {| DecodedResult.success := true;
          DecodedResult.value := 32 :: js "ok";
          DecodedResult.error := None |}
  /\ trimmed (32 :: js "ok") = false.
Proof.
  split; [reflexivity|]. split; [reflexivity|]. split; [discriminate|].
  split; [reflexivity|].
  apply (decodeAsciiData_trims_before_removing_nul (repeat x00 32) (js "ok") 0);
    [reflexivity | reflexivity | discriminate | reflexivity].
Defined.

(** ** Embedded text: bytes that are never UTF-8 *)

Lemma never_utf8 (b : byte) :
  0xf8 <= Z_of_byte b ->
  (Z.shiftr (Z_of_byte b) 7 =? 0) = false
  /\ (Z.land (Z_of_byte b) 0xe0 =? 0xc0) = false
  /\ (Z.land (Z_of_byte b) 0xf0 =? 0xe0) = false
  /\ (Z.land (Z_of_byte b) 0xf8 =? 0xf0) = false
  /\ (Z.land (Z_of_byte b) 0xc0 =? 0x80) = false.
Proof.
  destruct b; vm_compute; intros H;
    try (exfalso; apply H; reflexivity); repeat split.
Qed.

(** The continuation bytes that were read are a prefix of the input. *)
Lemma readContinuation_inl (n : nat) (res offset : Z) (bs : list byte)
    (res' : Z) (rest : list byte) :
  Ethers.readContinuation n res offset bs = inl (res', rest) ->
  exists conts,
    bs = conts ++ rest /\ length conts = n
    /\ Forall (fun b => (Z.land (Z_of_byte b) 0xc0 =? 0x80) = true) conts.
Proof.
  revert res offset bs. induction n as [|n IH]; intros res offset bs H.
  - cbn [Ethers.readContinuation] in H. inversion H; subst.
    exists []. repeat split. constructor.
  - cbn [Ethers.readContinuation] in H. destruct bs as [|b bs]; [discriminate|].
    destruct (Z.land (Z_of_byte b) 192 =? 128) eqn:E; [|discriminate].
    destruct (IH _ _ _ H) as (conts & -> & Hl & Hf).
    exists (b :: conts). cbn [app length]. rewrite Hl.
    repeat split. constructor; assumption.
Qed.

(** One character of several bytes, when a later byte is never UTF-8. *)
Lemma getUtf8CodePoints_sequence (bytes : list byte) (fuel : nat) (i c : Z)
    (rest : list byte)
    (extraLength : nat) (overlongMask : Z) (b : byte) :
  (forall j l, (length l <= fuel)%nat -> In b l ->
     exists message, Ethers.getUtf8CodePoints_from bytes fuel j l = Throw message) ->
  (length rest <= fuel)%nat -> In b rest ->
  (Z.land (Z_of_byte b) 0xc0 =? 0x80) = false ->
  exists message,
    (if (length rest <? extraLength)%nat then Ethers.utf8Error bytes Ethers.OVERRUN i
     else
       let res0 := Z.land c (Z.shiftl 1 (8 - Z.of_nat extraLength - 1) - 1) in
       match Ethers.readContinuation extraLength res0 (i + 1) rest with
       | inr bad => Ethers.utf8Error bytes Ethers.MISSING_CONTINUE bad
       | inl (res, rest') =>
           if 0x10ffff <? res then Ethers.utf8Error bytes Ethers.OUT_OF_RANGE i
           else if (0xd800 <=? res) && (res <=? 0xdfff)
           then Ethers.utf8Error bytes Ethers.UTF16_SURROGATE i
           else if res <=? overlongMask then Ethers.utf8Error bytes Ethers.OVERLONG i
           else outcome_bind
                  (Ethers.getUtf8CodePoints_from bytes fuel
                     (i + 1 + Z.of_nat extraLength) rest')
                  (fun r => Return (res :: r))
       end) = Throw message.
Proof.
  intros IH Hfuel Hin Nc.
  destruct (length rest <? extraLength)%nat; [eexists; reflexivity|].
  cbv zeta.
  destruct (Ethers.readContinuation extraLength _ (i + 1) rest)
    as [[res rest']|bad] eqn:Er; [|eexists; reflexivity].
  destruct (readContinuation_inl _ _ _ _ _ _ Er) as (conts & Hrest & Hl & Hf).
  assert (Hin' : In b rest').
  { rewrite Hrest in Hin. apply in_app_or in Hin as [Hc|Hr]; [|exact Hr].
    rewrite Forall_forall in Hf. rewrite (Hf b Hc) in Nc. discriminate. }
  assert (Hlen : (length rest' <= fuel)%nat)
    by (rewrite Hrest, length_app in Hfuel; lia).
  destruct (0x10ffff <? res); [eexists; reflexivity|].
  destruct ((0xd800 <=? res) && (res <=? 0xdfff)); [eexists; reflexivity|].
  destruct (res <=? overlongMask); [eexists; reflexivity|].
  destruct (IH (i + 1 + Z.of_nat extraLength) rest' Hlen Hin') as [m ->].
  exists m. reflexivity.
Qed.

Lemma getUtf8CodePoints_never_utf8 (bytes : list byte) (fuel : nat) (i : Z)
    (bs : list byte) (b : byte) :
  (length bs <= fuel)%nat -> In b bs -> 0xf8 <= Z_of_byte b ->
  exists message, Ethers.getUtf8CodePoints_from bytes fuel i bs = Throw message.
Proof.
  intros Hfuel Hin Hb. destruct (never_utf8 b Hb) as (N7 & N1 & N2 & N3 & Nc).
  revert i bs Hfuel Hin. induction fuel as [|fuel IH]; intros i bs Hfuel Hin.
  - destruct bs; [destruct Hin | cbn [length] in Hfuel; lia].
  - destruct bs as [|c rest]; [destruct Hin|].
    cbn [length] in Hfuel. cbn [Ethers.getUtf8CodePoints_from].
    destruct Hin as [->|Hin].
    { rewrite N7, N1, N2, N3, Nc. eexists. reflexivity. }
    assert (Hrest : (length rest <= fuel)%nat) by lia.
    destruct (Z.shiftr (Z_of_byte c) 7 =? 0).
    { destruct (IH (i + 1) rest Hrest Hin) as [m ->]. exists m. reflexivity. }
    destruct (Z.land (Z_of_byte c) 224 =? 192);
      [apply (getUtf8CodePoints_sequence bytes fuel i _ rest 1 _ b IH Hrest Hin Nc)|].
    destruct (Z.land (Z_of_byte c) 240 =? 224);
      [apply (getUtf8CodePoints_sequence bytes fuel i _ rest 2 _ b IH Hrest Hin Nc)|].
    destruct (Z.land (Z_of_byte c) 248 =? 240);
      [apply (getUtf8CodePoints_sequence bytes fuel i _ rest 3 _ b IH Hrest Hin Nc)|].
    destruct (Z.land (Z_of_byte c) 192 =? 128); eexists; reflexivity.
Qed.

(** X7: data whose bytes after the first 32 contain a byte from 0xf8 to
    0xff is never decoded: no UTF-8 text contains such a byte, and the
    result is a failure that carries the decoder's message. *)
Theorem decodeAsciiData_rejects_bytes_outside_utf8
    (s : jsstring) (bs : list byte) (b : byte) :
  ValidationResult.valid (validateHexData s) = true ->
  Ethers.getBytesOfString s = Some bs ->
  In b (skipn 32 bs) -> 0xf8 <= Z_of_byte b ->
  exists message,
    decodeAsciiData s = failure (Some (js "Failed to decode data: " ++ message)).
Proof.
  intros Hv Hb Hin Hbad.
  destruct (validateHexData_bytes s Hv) as (bs' & Hb' & Hlen).
  rewrite Hb in Hb'. inversion Hb'; subst bs'.
  assert (Hl : (32 < length bs)%nat).
  { destruct (Nat.lt_ge_cases 32 (length bs)) as [H|H]; [exact H|].
    rewrite skipn_all2 in Hin by exact H. destruct Hin. }
  destruct (getUtf8CodePoints_never_utf8 (skipn 32 bs) (length (skipn 32 bs))
              0 _ b (Nat.le_refl _) Hin Hbad) as [m Hm].
  exists m. unfold decodeAsciiData. rewrite Hv. cbn [negb].
  replace (length s <? 66)%nat with false by (symmetry; apply Nat.ltb_ge; lia).
  unfold Ethers.dataSlice. rewrite Hb. cbn [outcome_bind].
  rewrite Ethers_toUtf8String_hexlify. unfold Ethers.getUtf8CodePoints.
  rewrite Hm. reflexivity.
Qed.

Lemma decodeAsciiData_rejects_bytes_outside_utf8_witness :
  ValidationResult.valid (validateHexData badPrefixData) = true
  /\ Ethers.getBytesOfString badPrefixData = Some (repeat x00 32 ++ [xff])
  /\ In xff (skipn 32 (repeat x00 32 ++ [xff])) /\ 0xf8 <= Z_of_byte xff
  /\ exists message,
       decodeAsciiData badPrefixData
       = failure (Some (js "Failed to decode data: " ++ message)).
Proof.
  split; [reflexivity|]. split; [vm_compute; reflexivity|].
  split; [left; reflexivity|]. split; [vm_compute; discriminate|].
  apply (decodeAsciiData_rejects_bytes_outside_utf8 badPrefixData
           (repeat x00 32 ++ [xff]) xff);
    [reflexivity | vm_compute; reflexivity | left; reflexivity
    | vm_compute; discriminate].
Defined.

(** ** Function calls: the known functions *)

Lemma validateHexData_known_selector (selector body : jsstring)
    (f : KnownFunction) (bs : list byte) :
  lookup selector knownFunctions = Some f -> parseHexBody body = Some bs ->
  length selector = 10%nat
  /\ ValidationResult.valid (validateHexData (selector ++ body)) = true.
Proof.
  intros Hf Hp. destruct (lookup_known_selector _ _ Hf) as (Hl & sel & Hsel & _).
  split; [exact Hl|]. rewrite Hsel. cbn [app].
  rewrite validateHexData_0x,
    (parseHexBody_forallb _ _ (parseHexBody_app _ _ _ _ (parseHexBody_hexBody sel) Hp)),
    (parseHexBody_length _ _ (parseHexBody_app _ _ _ _ (parseHexBody_hexBody sel) Hp)).
  replace (Nat.even (2 * length (sel ++ bs))) with true
    by (symmetry; apply Nat.even_spec; eexists; reflexivity).
  reflexivity.
Qed.

Lemma argumentWord_length (t : abitype) (a : argument) :
  wf_argument t a = true -> length (argumentWord a) = 32%nat.
Proof.
  destruct t, a; try discriminate; cbn [wf_argument argumentWord]; intros H.
  - apply addressWord_length, Nat.eqb_eq, H.
  - apply uintWord_length.
Qed.

Lemma decodeWord_argument (t : abitype) (a : argument) :
  wf_argument t a = true ->
  Ethers.AbiCoder.decodeWord t (argumentWord a) = decodedArgument a.
Proof.
  destruct t, a; try discriminate; cbn [wf_argument argumentWord]; intros H.
  - apply decodeWord_address, Nat.eqb_eq, H.
  - apply decodeWord_uint256, wf_uint256_range, H.
Qed.

Lemma decodeWords_arguments (buffer : list byte) (ts : list abitype)
    (args : list argument) (trailing : list byte) :
  wf_arguments ts args = true ->
  Ethers.AbiCoder.decodeWords buffer ts
    (List.concat (map argumentWord args) ++ trailing)
  = Return (map decodedArgument args).
Proof.
  revert args. induction ts as [|t ts IH]; intros [|a args] H; try discriminate.
  - reflexivity.
  - cbn [wf_arguments] in H. apply andb_prop in H as [Ha Hargs].
    pose proof (argumentWord_length _ _ Ha) as Hl.
    cbn [map List.concat Ethers.AbiCoder.decodeWords]. rewrite <- app_assoc.
    replace (length (argumentWord a ++ List.concat (map argumentWord args) ++ trailing)
               <? 32)%nat with false
      by (symmetry; apply Nat.ltb_ge; rewrite length_app; lia).
    rewrite (firstn_exact _ _ _ Hl), (skipn_exact _ _ _ Hl), (IH _ Hargs).
    cbn [outcome_bind]. rewrite (decodeWord_argument _ _ Ha). reflexivity.
Qed.

(** X8: a call to any of the four known functions, its arguments encoded
    one word each (an address left-padded, an amount big-endian), is
    decoded with the name, the signature as written, the textual
    signature as value, and the arguments in order, each address with its
    checksum; bytes after the last argument are ignored. *)
Theorem decodeFunctionCall_known_function
    (selector : jsstring) (f : KnownFunction) (args : list argument)
    (trailing : list byte) :
  lookup selector knownFunctions = Some f ->
  wf_arguments (types f) args = true ->
  decodeFunctionCall (encodeCall selector args trailing)
  = {| DecodedFunctionResult.success := true;
       DecodedFunctionResult.value :=
         name f ++ js "(" ++ join (js ",") (map typeName (types f)) ++ js ")";
       DecodedFunctionResult.error := None;
       DecodedFunctionResult.signature := Some selector;
       DecodedFunctionResult.name := Some (name f);
       DecodedFunctionResult.params := Some (map decodedArgument args) |}.
Proof.
  intros Hf Hargs. unfold encodeCall.
  destruct (validateHexData_known_selector selector _ f _ Hf
              (parseHexBody_hexBody
                 (List.concat (map argumentWord args) ++ trailing)))
    as [Hl Hv].
  rewrite (decodeFunctionCall_selector _ _ _ Hl Hv (parseHexBody_hexBody _)).
  rewrite Hf, (decodeWords_arguments _ _ _ _ Hargs). reflexivity.
Qed.

Lemma decodeFunctionCall_known_function_witness :
  lookup (js "0x23b872dd") knownFunctions
  = Some {| name := js "transferFrom"; types := [address; address; uint256] |}
  /\ decodeFunctionCall
       (encodeCall (js "0x23b872dd")
          [AddressArg recipient; AddressArg (repeat x00 20); AmountArg 21771955200]
          [xff])
     = {| DecodedFunctionResult.success := true;
          DecodedFunctionResult.value := js "transferFrom(address,address,uint256)";
          DecodedFunctionResult.error := None;
          DecodedFunctionResult.signature := Some (js "0x23b872dd");
          DecodedFunctionResult.name := Some (js "transferFrom");
          DecodedFunctionResult.params :=
            Some (map decodedArgument
                    [AddressArg recipient; AddressArg (repeat x00 20);
                     AmountArg 21771955200]) |}.
Proof.
  split; [reflexivity|].
  apply (decodeFunctionCall_known_function (js "0x23b872dd")
           {| name := js "transferFrom"; types := [address; address; uint256] |}
           [AddressArg recipient; AddressArg (repeat x00 20); AmountArg 21771955200]
           [xff]); reflexivity.
Defined.

(** X9: for valid input whose first ten characters are a known selector,
    the parameters are returned exactly when at least 32 bytes per
    declared parameter follow the selector; there is then one entry per
    parameter and no error note.  With fewer bytes the function is still
    named, with the note that the data ran out. *)
Theorem decodeFunctionCall_parameters_iff_enough_data
    (s : jsstring) (f : KnownFunction) (bs : list byte) :
  ValidationResult.valid (validateHexData s) = true ->
  lookup (firstn 10 s) knownFunctions = Some f ->
  Ethers.getBytesOfString s = Some bs ->
  ((4 + 32 * length (types f) <= length bs)%nat ->
   DecodedFunctionResult.error (decodeFunctionCall s) = None
   /\ exists ps,
        DecodedFunctionResult.params (decodeFunctionCall s) = Some ps
        /\ length ps = length (types f))
  /\ ((length bs < 4 + 32 * length (types f))%nat ->
      DecodedFunctionResult.params (decodeFunctionCall s) = None
      /\ DecodedFunctionResult.name (decodeFunctionCall s) = Some (name f)
      /\ exists details,
           DecodedFunctionResult.error (decodeFunctionCall s)
           = Some (js "Identified function but failed to decode parameters: data out-of-bounds"
                     ++ details)).
Proof.
  intros Hv Hf Hb.
  destruct (lookup_known_selector _ _ Hf) as (Hl & _).
  destruct (validateHexData_valid s Hv) as (d & bs' & Hs & _ & _ & Hp & Hd).
  assert (bs' = bs) by (rewrite Hs, Ethers_getBytes_0x in Hb; congruence).
  subst bs'.
  assert (H10 : (10 <= length s)%nat).
  { rewrite length_firstn in Hl. lia. }
  assert (Hbody : parseHexBody (skipn 10 s) = Some (skipn 4 bs)).
  { rewrite Hs. cbn [skipn]. apply (parseHexBody_skipn 4), Hp. }
  pose proof (firstn_skipn 10 s) as Hsplit.
  rewrite <- Hsplit in Hv |- *.
  rewrite (decodeFunctionCall_selector _ _ _ Hl Hv Hbody), Hf.
  assert (Hlen : length (skipn 4 bs) = (length bs - 4)%nat)
    by apply length_skipn.
  assert (H4 : (4 <= length bs)%nat).
  { rewrite Hs in H10. cbn [length] in H10. lia. }
  split; intros H.
  - destruct (decodeWords_long (skipn 4 bs) (types f) (skipn 4 bs))
      as (ps & -> & Hps); [lia|].
    split; [reflexivity|]. exists ps. split; [reflexivity|exact Hps].
  - destruct (decodeWords_short (skipn 4 bs) (types f) (skipn 4 bs))
      as [offset ->]; [lia|].
    split; [reflexivity|]. split; [reflexivity|].
    destruct (out_of_bounds_note (skipn 4 bs) offset) as [details Hnote].
    exists details. cbn [DecodedFunctionResult.error]. rewrite Hnote.
    reflexivity.
Qed.

Lemma decodeFunctionCall_parameters_iff_enough_data_witness :
  ValidationResult.valid (validateHexData transferData) = true
  /\ lookup (firstn 10 transferData) knownFunctions
     = Some {| name := js "transfer"; types := [address; uint256] |}
  /\ Ethers.getBytesOfString transferData
     = Some ([xa9; x05; x9c; xbb] ++ addressWord recipient
               ++ uintWord 21771955200)
  /\ DecodedFunctionResult.error (decodeFunctionCall transferData) = None
  /\ exists ps,
       DecodedFunctionResult.params (decodeFunctionCall transferData) = Some ps
       /\ length ps = 2%nat.
Proof.
  split; [reflexivity|]. split; [reflexivity|]. split; [vm_compute; reflexivity|].
  apply (decodeFunctionCall_parameters_iff_enough_data transferData
           {| name := js "transfer"; types := [address; uint256] |}
           ([xa9; x05; x9c; xbb] ++ addressWord recipient
              ++ uintWord 21771955200));
    [reflexivity | reflexivity | vm_compute; reflexivity | vm_compute; lia].
Defined.

(** ** Function calls: an address word with bits above the address *)

Lemma Ethers_toBeHex_overflow (v : Z) :
  2 ^ 160 <= v < 2 ^ 256 -> Ethers.toBeHex v 20 = None.
Proof.
  intros [Hlo Hhi]. unfold Ethers.toBeHex.
  assert (0 < 2 ^ 160) by reflexivity.
  replace (v <? 0) with false by (symmetry; apply Z.ltb_ge; lia).
  destruct (toString16_digits v 64 ltac:(lia)) as (j & Hj & Hv & ->).
  { change (16 ^ Z.of_nat 64) with (2 ^ 256). lia. }
  rewrite hexDigits_length.
  destruct (Nat.ltb_spec (2 * 20) j) as [_|Hle]; [reflexivity|].
  exfalso.
  assert (16 ^ Z.of_nat j <= 16 ^ Z.of_nat 40)
    by (apply Z.pow_le_mono_r; lia).
  change (16 ^ Z.of_nat 40) with (2 ^ 160) in *. lia.
Qed.

Lemma known_function_takes_address (selector : jsstring) (f : KnownFunction) :
  lookup selector knownFunctions = Some f ->
  exists ts, types f = address :: ts.
Proof.
  intros H. apply lookup_In in H. unfold knownFunctions in H. cbn [In] in H.
  destruct H as [H|[H|[H|[H|[]]]]]; inversion H; subst; eexists; reflexivity.
Qed.

(** X10: a call to a known function whose first word, an address, has a
    bit set above its twenty bytes is not reported as a failure: with
    enough data [decodeFunctionCall] still succeeds, names the function
    and returns the parameters without an error note.  The first entry of
    the parameters is the error of the address coder, which is raised
    only when the entry is read. *)
Theorem decodeFunctionCall_keeps_quiet_about_dirty_address
    (selector body : jsstring) (f : KnownFunction) (bs : list byte) :
  lookup selector knownFunctions = Some f ->
  parseHexBody body = Some bs ->
  (32 * length (types f) <= length bs)%nat ->
  2 ^ 160 <= be_value (firstn 32 bs) ->
  exists message entries,
    DecodedFunctionResult.success (decodeFunctionCall (selector ++ body)) = true
    /\ DecodedFunctionResult.error (decodeFunctionCall (selector ++ body)) = None
    /\ DecodedFunctionResult.name (decodeFunctionCall (selector ++ body))
       = Some (name f)
    /\ DecodedFunctionResult.params (decodeFunctionCall (selector ++ body))
       = Some (Ethers.AbiCoder.DError message :: entries)
    /\ length (Ethers.AbiCoder.DError message :: entries) = length (types f).
Proof.
  intros Hf Hp Hlen Hdirty.
  destruct (validateHexData_known_selector _ _ _ _ Hf Hp) as [Hl Hv].
  destruct (known_function_takes_address _ _ Hf) as [ts Hts].
  rewrite (decodeFunctionCall_selector _ _ _ Hl Hv Hp), Hf, Hts.
  rewrite Hts in Hlen. cbn [length] in Hlen.
  cbn [Ethers.AbiCoder.decodeWords].
  replace (length bs <? 32)%nat with false by (symmetry; apply Nat.ltb_ge; lia).
  destruct (decodeWords_long bs ts (skipn 32 bs)) as (ps & -> & Hps);
    [rewrite length_skipn; lia|].
  cbn [outcome_bind].
  assert (Hw : exists message,
             Ethers.AbiCoder.decodeWord address (firstn 32 bs)
             = Ethers.AbiCoder.DError message).
  { unfold Ethers.AbiCoder.decodeWord. rewrite Ethers_toBeHex_overflow;
      [eexists; reflexivity|].
    split; [exact Hdirty|].
    pose proof (be_value_range (firstn 32 bs)) as R.
    rewrite length_firstn, Nat.min_l in R by lia.
    change (256 ^ Z.of_nat 32) with (2 ^ 256) in R. lia. }
  destruct Hw as [message ->]. exists message, ps.
  split; [reflexivity|]. split; [reflexivity|]. split; [reflexivity|].
  split; [reflexivity|]. cbn [length]. rewrite Hps. reflexivity.
Qed.

Lemma decodeFunctionCall_keeps_quiet_about_dirty_address_witness :
  dirtyAddressCall = js "0xa9059cbb" ++ skipn 10 dirtyAddressCall
  /\ exists message entries,
       DecodedFunctionResult.success (decodeFunctionCall dirtyAddressCall) = true
       /\ DecodedFunctionResult.error (decodeFunctionCall dirtyAddressCall) = None
       /\ DecodedFunctionResult.name (decodeFunctionCall dirtyAddressCall)
          = Some (js "transfer")
       /\ DecodedFunctionResult.params (decodeFunctionCall dirtyAddressCall)
          = Some (Ethers.AbiCoder.DError message :: entries)
       /\ length (Ethers.AbiCoder.DError message :: entries) = 2%nat.
Proof.
  split; [reflexivity|].
  apply (decodeFunctionCall_keeps_quiet_about_dirty_address
           (js "0xa9059cbb") (skipn 10 dirtyAddressCall)
           {| name := js "transfer"; types := [address; uint256] |}
           (bytesOfHex (js "0x" ++ skipn 10 dirtyAddressCall)));
    [reflexivity | vm_compute; reflexivity | vm_compute; lia
    | vm_compute; discriminate].
Defined.

(** * Further properties of the hashers *)

(** ** Numbers at and beyond the bounds of their types *)

Lemma option_all_nth {A} (l : list (option A)) (k : nat) :
  nth_error l k = Some None -> option_all l = None.
Proof.
  revert k. induction l as [|o l IH]; intros [|k] H; try discriminate.
  - cbn [nth_error] in H. inversion H. reflexivity.
  - cbn [nth_error] in H. cbn [option_all]. rewrite (IH _ H).
    destruct o; reflexivity.
Qed.

Lemma wf_uint8_range (n : Z) : wf_uint8 n = true <-> 0 <= n < 256.
Proof.
  unfold wf_uint8. change (2 ^ 8) with 256.
  rewrite andb_true_iff, Z.leb_le, Z.ltb_lt. tauto.
Qed.

Lemma wf_uint8_uint256 (n : Z) : wf_uint8 n = true -> wf_uint256 n = true.
Proof.
  intros H. apply wf_uint8_range in H. apply wf_uint256_range.
  assert (256 < 2 ^ 256) by reflexivity. lia.
Qed.

Lemma Ethers_encode_uint8 (op : Z) :
  wf_uint8 op = true ->
  Ethers.AbiCoder.encodeValue uint8 (JNumber op) = Some (uintWord op).
Proof.
  intros H. pose proof (proj1 (wf_uint8_range op) H) as R.
  unfold Ethers.AbiCoder.encodeValue, Ethers.AbiCoder.getBigInt.
  replace ((- MAX_SAFE_INTEGER <=? op) && (op <=? MAX_SAFE_INTEGER)) with true
    by (symmetry; apply andb_true_intro; split; apply Z.leb_le;
        unfold MAX_SAFE_INTEGER; lia).
  cbn [option_bind uintBits]. unfold wf_uint8 in H. rewrite H.
  apply Ethers_writeValue_uint, wf_uint8_uint256. exact H.
Qed.

Lemma Viem_encode_uint8 (op : Z) :
  wf_uint8 op = true ->
  Viem.encodeValue uint8 (JNumber op) = Some (48 :: 120 :: hexBody (uintWord op)).
Proof.
  intros H. unfold Viem.encodeValue. cbn [uintBits].
  rewrite (Viem_numberToHex op (wf_uint8_uint256 _ H)).
  unfold wf_uint8 in H. rewrite H. reflexivity.
Qed.

Lemma encodable_fields (tx : SafeTransactionParams) :
  encodable tx = true ->
  wf_address (to tx) = true /\ wf_uint256 (value tx) = true
  /\ wf_data (data tx) = true /\ wf_uint8 (operation tx) = true
  /\ wf_uint256 (safeTxGas tx) = true /\ wf_uint256 (baseGas tx) = true
  /\ wf_uint256 (gasPrice tx) = true /\ wf_address (gasToken tx) = true
  /\ wf_address (refundReceiver tx) = true.
Proof. unfold encodable. rewrite !andb_true_iff. tauto. Qed.

(** The ethers hasher on every record its coder takes. *)
Lemma Ethers_rawHash_encodable (domain : DomainData)
    (h : EthersSafeTransactionHasher.t) (tx : SafeTransactionParams) :
  EthersSafeTransactionHasher.new domain = Some h ->
  encodable tx = true -> wf_number (nonce tx) = true ->
  EthersSafeTransactionHasher.calculateRawSafeTxHash h tx
  = Some (Ethers.hexlify (Keccak.keccak256 (structEncoding tx))).
Proof.
  intros Hnew H Hn. destruct (Ethers_typehashes _ _ Hnew) as (_ & Hth & _).
  destruct (encodable_fields _ H)
    as (Hto & Hval & Hdata & Hop & Hstg & Hbg & Hgp & Hgt & Hrr).
  destruct (wf_data_bytes _ Hdata) as [Hd Hp].
  pose proof (Ethers_keccak256_hex _ _ Hp) as Hk. rewrite <- Hd in Hk.
  unfold EthersSafeTransactionHasher.calculateRawSafeTxHash.
  rewrite Hk, Hth. cbn [option_bind]. unfold Ethers.AbiCoder.encode.
  cbn [length Nat.eqb combine map fst snd option_all].
  rewrite (Ethers_encode_bytes32 _ safeTxTypeHashBytes_length),
    (Ethers_encode_address _ Hto), (Ethers_encode_uint256 _ Hval),
    (Ethers_encode_bytes32 (Keccak.keccak256 (bytesOfHex (data tx)))
       (keccak256_length _)),
    (Ethers_encode_uint8 _ Hop), (Ethers_encode_uint256 _ Hstg),
    (Ethers_encode_uint256 _ Hbg), (Ethers_encode_uint256 _ Hgp),
    (Ethers_encode_address _ Hgt), (Ethers_encode_address _ Hrr),
    (Ethers_encode_number _ Hn).
  cbn [option_bind List.concat]. rewrite hexlify_cons at 1. rewrite app_nil_r.
  apply Ethers_keccak256_hex, parseHexBody_hexBody.
Qed.

(** The viem hasher on every record its coder takes: the nonce is made a
    bigint before it is encoded, so any unsigned 256-bit nonce is taken. *)
Lemma Viem_rawHash_encodable (domain : DomainData)
    (h : ViemSafeTransactionHasher.t) (tx : SafeTransactionParams) :
  ViemSafeTransactionHasher.new domain = Some h ->
  encodable tx = true -> wf_uint256 (nonce tx) = true ->
  ViemSafeTransactionHasher.calculateRawSafeTxHash h tx
  = Some (Viem.bytesToHex (Keccak.keccak256 (structEncoding tx))).
Proof.
  intros Hnew H Hn. destruct (Viem_typehashes _ _ Hnew) as (_ & Hth & _).
  destruct (encodable_fields _ H)
    as (Hto & Hval & Hdata & Hop & Hstg & Hbg & Hgp & Hgt & Hrr).
  destruct (wf_data_bytes _ Hdata) as [Hd Hp].
  pose proof (Viem_keccak256_hex _ _ Hp) as Hk. rewrite <- Hd in Hk.
  unfold ViemSafeTransactionHasher.calculateRawSafeTxHash.
  rewrite Hk, Hth. cbn [option_bind]. unfold Viem.encodeAbiParameters.
  cbn [length Nat.eqb combine map fst snd option_all Viem.BigInt].
  destruct (Viem_encode_address _ Hto) as [Eto Pto].
  destruct (Viem_encode_address _ Hgt) as [Egt Pgt].
  destruct (Viem_encode_address _ Hrr) as [Err Prr].
  rewrite !bytesToHex_cons.
  rewrite (Viem_encode_bytes32 _ safeTxTypeHashBytes_length), Eto,
    (Viem_encode_uint256 _ Hval),
    (Viem_encode_bytes32 (Keccak.keccak256 (bytesOfHex (data tx)))
       (keccak256_length _)),
    (Viem_encode_uint8 _ Hop), (Viem_encode_uint256 _ Hstg),
    (Viem_encode_uint256 _ Hbg), (Viem_encode_uint256 _ Hgp), Egt, Err,
    (Viem_encode_uint256 _ Hn).
  cbn [option_bind]. unfold Viem.concat. rewrite js_0x.
  cbn [map List.concat app]. rewrite !replace0x_0x.
  apply Viem_keccak256_hex. unfold structEncoding. rewrite app_nil_r.
  auto 12 with spells.
Qed.

(** X11: the operation is encoded as a uint8 and not checked against the
    two values of its type: for every operation from 0 to 255 (the other
    fields well-formed) both hashers return the hash of the encoding with
    that operation as a word, and they agree. *)
Theorem any_uint8_operation_is_hashed
    (domain : DomainData) (tx : SafeTransactionParams)
    (he : EthersSafeTransactionHasher.t) (hv : ViemSafeTransactionHasher.t) :
  EthersSafeTransactionHasher.new domain = Some he ->
  ViemSafeTransactionHasher.new domain = Some hv ->
  encodable tx = true -> wf_number (nonce tx) = true ->
  EthersSafeTransactionHasher.calculateRawSafeTxHash he tx
  = Some (Ethers.hexlify (Keccak.keccak256 (structEncoding tx)))
  /\ ViemSafeTransactionHasher.calculateRawSafeTxHash hv tx
     = EthersSafeTransactionHasher.calculateRawSafeTxHash he tx
  /\ 0 <= operation tx <= 255.
Proof.
  intros He Hv H Hn.
  rewrite (Ethers_rawHash_encodable _ _ _ He H Hn),
    (Viem_rawHash_encodable _ _ _ Hv H (wf_number_uint256 _ Hn)).
  split; [reflexivity|]. split; [reflexivity|].
  destruct (encodable_fields _ H) as (_ & _ & _ & Hop & _).
  apply wf_uint8_range in Hop. lia.
Qed.

Lemma any_uint8_operation_is_hashed_witness :
  encodable operationTwoTransaction = true
  /\ wf_tx operationTwoTransaction = false
  /\ exists he hv,
       EthersSafeTransactionHasher.new testDomain = Some he
       /\ ViemSafeTransactionHasher.new testDomain = Some hv
       /\ EthersSafeTransactionHasher.calculateRawSafeTxHash he
            operationTwoTransaction
          = Some (Ethers.hexlify
                    (Keccak.keccak256 (structEncoding operationTwoTransaction)))
       /\ ViemSafeTransactionHasher.calculateRawSafeTxHash hv
            operationTwoTransaction
          = EthersSafeTransactionHasher.calculateRawSafeTxHash he
              operationTwoTransaction
       /\ 0 <= operation operationTwoTransaction <= 255.
Proof.
  split; [vm_compute; reflexivity|]. split; [vm_compute; reflexivity|].
  destruct (Ethers_new_defined testDomain) as (he & He & _);
    [vm_compute; reflexivity|].
  destruct (Viem_new_defined testDomain) as (hv & Hv & _);
    [vm_compute; reflexivity|].
  exists he, hv. split; [exact He|]. split; [exact Hv|].
  apply (any_uint8_operation_is_hashed testDomain operationTwoTransaction he hv
           He Hv); vm_compute; reflexivity.
Defined.

Lemma Ethers_uint256_out_of_range (n : Z) :
  wf_uint256 n = false ->
  Ethers.AbiCoder.encodeValue uint256 (JBigInt n) = None.
Proof.
  intros H. unfold Ethers.AbiCoder.encodeValue, Ethers.AbiCoder.getBigInt.
  cbn [option_bind uintBits]. unfold wf_uint256 in H. rewrite H. reflexivity.
Qed.

Lemma Ethers_number_out_of_range (t : abitype) (n : Z) :
  t = uint256 \/ t = uint8 ->
  (0 <=? n) && (n <? 2 ^ uintBits t) = false ->
  Ethers.AbiCoder.encodeValue t (JNumber n) = None.
Proof.
  intros Ht H. unfold Ethers.AbiCoder.encodeValue, Ethers.AbiCoder.getBigInt.
  destruct Ht as [-> | ->];
    destruct ((- MAX_SAFE_INTEGER <=? n) && (n <=? MAX_SAFE_INTEGER));
    cbn [option_bind]; try reflexivity; rewrite H; reflexivity.
Qed.

Lemma Ethers_unsafe_number (n : Z) :
  MAX_SAFE_INTEGER < n ->
  Ethers.AbiCoder.encodeValue uint256 (JNumber n) = None.
Proof.
  intros H. unfold Ethers.AbiCoder.encodeValue, Ethers.AbiCoder.getBigInt.
  replace (n <=? MAX_SAFE_INTEGER) with false by (symmetry; apply Z.leb_gt, H).
  rewrite andb_false_r. reflexivity.
Qed.

Lemma Viem_uint_out_of_range (t : abitype) (v : jsvalue) (n : Z) :
  t = uint256 \/ t = uint8 -> v = JBigInt n \/ v = JNumber n ->
  (0 <=? n) && (n <? 2 ^ uintBits t) = false ->
  Viem.encodeValue t v = None.
Proof.
  intros [-> | ->] [-> | ->] H; unfold Viem.encodeValue; rewrite H; reflexivity.
Qed.

(** A coder that throws on one of the values makes the struct hash, the
    final hash and [getAllHashes] throw. *)
Lemma Ethers_throws_at (h : EthersSafeTransactionHasher.t)
    (tx : SafeTransactionParams) (k : nat) :
  (forall dataHash,
     nth_error
       (map (fun tv => Ethers.AbiCoder.encodeValue (fst tv) (snd tv))
          (combine
             [ bytes32; address; uint256; bytes32; uint8; uint256; uint256;
               uint256; address; address; uint256 ]
             [ JString (EthersSafeTransactionHasher.SAFE_TX_TYPEHASH h);
               JString (to tx); JBigInt (value tx); JString dataHash;
               JNumber (operation tx); JBigInt (safeTxGas tx);
               JBigInt (baseGas tx); JBigInt (gasPrice tx);
               JString (gasToken tx); JString (refundReceiver tx);
               JNumber (nonce tx) ])) k = Some None) ->
  EthersSafeTransactionHasher.calculateRawSafeTxHash h tx = None
  /\ EthersSafeTransactionHasher.calculateFinalSafeTxHash h tx = None
  /\ EthersSafeTransactionHasher.getAllHashes h tx = None.
Proof.
  intros H.
  assert (Hraw : EthersSafeTransactionHasher.calculateRawSafeTxHash h tx = None).
  { unfold EthersSafeTransactionHasher.calculateRawSafeTxHash.
    destruct (Ethers.keccak256 (Ethers.HexString (data tx))) as [dataHash|];
      [|reflexivity].
    cbn [option_bind]. unfold Ethers.AbiCoder.encode.
    cbn [length Nat.eqb]. rewrite (option_all_nth _ k (H dataHash)). reflexivity. }
  unfold EthersSafeTransactionHasher.calculateFinalSafeTxHash,
    EthersSafeTransactionHasher.getAllHashes.
  rewrite Hraw. repeat split.
Qed.

Lemma Viem_throws_at (h : ViemSafeTransactionHasher.t)
    (tx : SafeTransactionParams) (k : nat) :
  (forall dataHash,
     nth_error
       (map (fun tv => Viem.encodeValue (fst tv) (snd tv))
          (combine
             [ bytes32; address; uint256; bytes32; uint8; uint256; uint256;
               uint256; address; address; uint256 ]
             [ JString (ViemSafeTransactionHasher.SAFE_TX_TYPEHASH h);
               JString (to tx); JBigInt (value tx); JString dataHash;
               JNumber (operation tx); JBigInt (safeTxGas tx);
               JBigInt (baseGas tx); JBigInt (gasPrice tx);
               JString (gasToken tx); JString (refundReceiver tx);
               Viem.BigInt (JNumber (nonce tx)) ])) k = Some None) ->
  ViemSafeTransactionHasher.calculateRawSafeTxHash h tx = None
  /\ ViemSafeTransactionHasher.calculateFinalSafeTxHash h tx = None
  /\ ViemSafeTransactionHasher.getAllHashes h tx = None.
Proof.
  intros H.
  assert (Hraw : ViemSafeTransactionHasher.calculateRawSafeTxHash h tx = None).
  { unfold ViemSafeTransactionHasher.calculateRawSafeTxHash.
    destruct (Viem.keccak256 (data tx)) as [dataHash|]; [|reflexivity].
    cbn [option_bind]. unfold Viem.encodeAbiParameters.
    cbn [length Nat.eqb]. rewrite (option_all_nth _ k (H dataHash)). reflexivity. }
  unfold ViemSafeTransactionHasher.calculateFinalSafeTxHash,
    ViemSafeTransactionHasher.getAllHashes.
  rewrite Hraw. repeat split.
Qed.

Ltac throws_by lemma :=
  intros dataHash; cbn [combine map fst snd nth_error Viem.BigInt];
  f_equal; apply lemma; auto.

(** X12: a number that does not fit its type is never wrapped or cut: when
    the value, one of the three gas fields or the nonce is negative or
    2^256 or more, or the operation is negative or 256 or more, every
    method of both hashers that takes the transaction throws. *)
Theorem out_of_range_numbers_are_rejected
    (tx : SafeTransactionParams)
    (he : EthersSafeTransactionHasher.t) (hv : ViemSafeTransactionHasher.t) :
  out_of_range tx = true ->
  (EthersSafeTransactionHasher.calculateRawSafeTxHash he tx = None
   /\ EthersSafeTransactionHasher.calculateFinalSafeTxHash he tx = None
   /\ EthersSafeTransactionHasher.getAllHashes he tx = None)
  /\ (ViemSafeTransactionHasher.calculateRawSafeTxHash hv tx = None
      /\ ViemSafeTransactionHasher.calculateFinalSafeTxHash hv tx = None
      /\ ViemSafeTransactionHasher.getAllHashes hv tx = None).
Proof.
  unfold out_of_range. rewrite !orb_true_iff, !negb_true_iff.
  intros [[[[[H|H]|H]|H]|H]|H].
  - split; [apply (Ethers_throws_at he tx 2) | apply (Viem_throws_at hv tx 2)].
    + throws_by Ethers_uint256_out_of_range.
    + throws_by (Viem_uint_out_of_range uint256 (JBigInt (value tx)) (value tx)).
  - split; [apply (Ethers_throws_at he tx 4) | apply (Viem_throws_at hv tx 4)].
    + throws_by (Ethers_number_out_of_range uint8).
    + throws_by (Viem_uint_out_of_range uint8 (JNumber (operation tx)) (operation tx)).
  - split; [apply (Ethers_throws_at he tx 5) | apply (Viem_throws_at hv tx 5)].
    + throws_by Ethers_uint256_out_of_range.
    + throws_by (Viem_uint_out_of_range uint256 (JBigInt (safeTxGas tx)) (safeTxGas tx)).
  - split; [apply (Ethers_throws_at he tx 6) | apply (Viem_throws_at hv tx 6)].
    + throws_by Ethers_uint256_out_of_range.
    + throws_by (Viem_uint_out_of_range uint256 (JBigInt (baseGas tx)) (baseGas tx)).
  - split; [apply (Ethers_throws_at he tx 7) | apply (Viem_throws_at hv tx 7)].
    + throws_by Ethers_uint256_out_of_range.
    + throws_by (Viem_uint_out_of_range uint256 (JBigInt (gasPrice tx)) (gasPrice tx)).
  - split; [apply (Ethers_throws_at he tx 10) | apply (Viem_throws_at hv tx 10)].
    + throws_by (Ethers_number_out_of_range uint256).
    + throws_by (Viem_uint_out_of_range uint256 (JBigInt (nonce tx)) (nonce tx)).
Qed.

Lemma out_of_range_numbers_are_rejected_witness :
  out_of_range negativeValueTransaction = true
  /\ forall he hv,
       (EthersSafeTransactionHasher.calculateRawSafeTxHash he
          negativeValueTransaction = None
        /\ EthersSafeTransactionHasher.calculateFinalSafeTxHash he
             negativeValueTransaction = None
        /\ EthersSafeTransactionHasher.getAllHashes he
             negativeValueTransaction = None)
       /\ (ViemSafeTransactionHasher.calculateRawSafeTxHash hv
             negativeValueTransaction = None
           /\ ViemSafeTransactionHasher.calculateFinalSafeTxHash hv
                negativeValueTransaction = None
           /\ ViemSafeTransactionHasher.getAllHashes hv
                negativeValueTransaction = None).
Proof.
  split; [reflexivity|]. intros he hv.
  apply (out_of_range_numbers_are_rejected negativeValueTransaction he hv).
  reflexivity.
Defined.

(** ** Numbers that are not safe integers: where the two hashers part *)

Lemma Viem_domainHash_uint256 (typeHash : list byte) (domain : DomainData) :
  length typeHash = 32%nat ->
  wf_uint256 (chainId domain) = true ->
  wf_address (verifyingContract domain) = true ->
  ViemSafeTransactionHasher.calculateDomainHash (Viem.bytesToHex typeHash) domain
  = Some (Viem.bytesToHex (Keccak.keccak256
       (typeHash ++ uintWord (chainId domain)
          ++ addressWord (bytesOfHex (verifyingContract domain))))).
Proof.
  intros Hl Hc Ha.
  unfold ViemSafeTransactionHasher.calculateDomainHash, Viem.encodeAbiParameters.
  cbn [length Nat.eqb combine map fst snd option_all Viem.BigInt].
  destruct (Viem_encode_address _ Ha) as [Ea Pa].
  rewrite bytesToHex_cons at 1.
  rewrite (Viem_encode_bytes32 _ Hl), (Viem_encode_uint256 _ Hc), Ea.
  cbn [option_bind]. unfold Viem.concat. rewrite js_0x.
  cbn [map List.concat app]. rewrite !replace0x_0x.
  apply Viem_keccak256_hex.
  repeat (apply parseHexBody_app; [apply parseHexBody_hexBody|]).
  rewrite app_nil_r. exact Pa.
Qed.

(** X13: a nonce above [Number.MAX_SAFE_INTEGER] separates the two
    hashers.  The ethers coder is handed the number and refuses it, so
    every method that takes the transaction throws; the viem hasher makes
    it a bigint first and returns the hashes of the encoding. *)
Theorem unsafe_nonce_ethers_throws_viem_hashes
    (domain : DomainData) (tx : SafeTransactionParams) :
  wf_domain domain = true -> encodable tx = true ->
  MAX_SAFE_INTEGER < nonce tx < 2 ^ 256 ->
  (forall he,
     EthersSafeTransactionHasher.calculateRawSafeTxHash he tx = None
     /\ EthersSafeTransactionHasher.calculateFinalSafeTxHash he tx = None
     /\ EthersSafeTransactionHasher.getAllHashes he tx = None)
  /\ exists hv,
       ViemSafeTransactionHasher.new domain = Some hv
       /\ ViemSafeTransactionHasher.getAllHashes hv tx
          = Some {| safeTxHash :=
                      Viem.bytesToHex
                        (Keccak.keccak256
                           (finalEncoding
                              (Keccak.keccak256 (domainEncoding domain))
                              (Keccak.keccak256 (structEncoding tx))));
                    domainHash :=
                      Viem.bytesToHex (Keccak.keccak256 (domainEncoding domain));
                    messageHash :=
                      Viem.bytesToHex (Keccak.keccak256 (structEncoding tx)) |}.
Proof.
  intros Hd H [Hlo Hhi]. split.
  - intros he. apply (Ethers_throws_at he tx 10).
    throws_by Ethers_unsafe_number.
  - destruct (Viem_new_defined _ Hd) as (hv & Hv & Hdv).
    exists hv. split; [exact Hv|].
    assert (Hn : wf_uint256 (nonce tx) = true).
    { apply wf_uint256_range. unfold MAX_SAFE_INTEGER in Hlo. lia. }
    pose proof (Viem_rawHash_encodable _ _ _ Hv H Hn) as Rv.
    pose proof (Viem_finalHash _ _ _ _ Hdv Rv) as Fv.
    unfold ViemSafeTransactionHasher.getAllHashes.
    rewrite Rv, Fv, Hdv. reflexivity.
Qed.

Lemma unsafe_nonce_ethers_throws_viem_hashes_witness :
  wf_domain testDomain = true /\ encodable unsafeNonceTransaction = true
  /\ MAX_SAFE_INTEGER < nonce unsafeNonceTransaction < 2 ^ 256
  /\ (forall he,
        EthersSafeTransactionHasher.calculateRawSafeTxHash he
          unsafeNonceTransaction = None
        /\ EthersSafeTransactionHasher.calculateFinalSafeTxHash he
             unsafeNonceTransaction = None
        /\ EthersSafeTransactionHasher.getAllHashes he
             unsafeNonceTransaction = None)
  /\ exists hv,
       ViemSafeTransactionHasher.new testDomain = Some hv
       /\ ViemSafeTransactionHasher.getAllHashes hv unsafeNonceTransaction
          = Some {| safeTxHash :=
                      Viem.bytesToHex
                        (Keccak.keccak256
                           (finalEncoding
                              (Keccak.keccak256 (domainEncoding testDomain))
                              (Keccak.keccak256
                                 (structEncoding unsafeNonceTransaction))));
                    domainHash :=
                      Viem.bytesToHex
                        (Keccak.keccak256 (domainEncoding testDomain));
                    messageHash :=
                      Viem.bytesToHex
                        (Keccak.keccak256
                           (structEncoding unsafeNonceTransaction)) |}.
Proof.
  split; [vm_compute; reflexivity|]. split; [vm_compute; reflexivity|].
  split; [split; reflexivity|].
  apply (unsafe_nonce_ethers_throws_viem_hashes testDomain unsafeNonceTransaction);
    [vm_compute; reflexivity | vm_compute; reflexivity | split; reflexivity].
Defined.

(** X14: a chain id above [Number.MAX_SAFE_INTEGER] separates the two
    constructors, which both encode it: the ethers constructor is handed
    the number and throws, and the viem constructor, which makes it a
    bigint first, builds the hasher, with the domain hash of the
    encoding. *)
Theorem unsafe_chain_id_ethers_throws_viem_builds (domain : DomainData) :
  wf_address (verifyingContract domain) = true ->
  MAX_SAFE_INTEGER < chainId domain < 2 ^ 256 ->
  EthersSafeTransactionHasher.new domain = None
  /\ exists hv,
       ViemSafeTransactionHasher.new domain = Some hv
       /\ ViemSafeTransactionHasher.getDomainHash hv
          = Viem.bytesToHex (Keccak.keccak256 (domainEncoding domain)).
Proof.
  intros Ha [Hlo Hhi]. split.
  - unfold EthersSafeTransactionHasher.new, Ethers.keccak256 at 1 2,
      Ethers.getBytes.
    cbn [option_bind].
    unfold EthersSafeTransactionHasher.calculateDomainHash,
      Ethers.AbiCoder.encode.
    cbn [length Nat.eqb]. rewrite (option_all_nth _ 1); [reflexivity|].
    cbn [combine map fst snd nth_error]. f_equal.
    apply Ethers_unsafe_number, Hlo.
  - assert (Hc : wf_uint256 (chainId domain) = true).
    { apply wf_uint256_range. unfold MAX_SAFE_INTEGER in Hlo. lia. }
    unfold ViemSafeTransactionHasher.new. rewrite !Viem_typehash.
    cbn [option_bind]. fold domainTypeHashBytes safeTxTypeHashBytes.
    rewrite (Viem_domainHash_uint256 _ _ domainTypeHashBytes_length Hc Ha).
    cbn [option_bind]. eexists. split; reflexivity.
Qed.

Lemma unsafe_chain_id_ethers_throws_viem_builds_witness :
  wf_address (verifyingContract unsafeChainDomain) = true
  /\ MAX_SAFE_INTEGER < chainId unsafeChainDomain < 2 ^ 256
  /\ EthersSafeTransactionHasher.new unsafeChainDomain = None
  /\ exists hv,
       ViemSafeTransactionHasher.new unsafeChainDomain = Some hv
       /\ ViemSafeTransactionHasher.getDomainHash hv
          = Viem.bytesToHex (Keccak.keccak256 (domainEncoding unsafeChainDomain)).
Proof.
  split; [vm_compute; reflexivity|]. split; [split; reflexivity|].
  apply (unsafe_chain_id_ethers_throws_viem_builds unsafeChainDomain);
    [vm_compute; reflexivity | split; reflexivity].
Defined.

(** ** Addresses the libraries refuse *)

Lemma Ethers_encode_rejected_address (a : jsstring) :
  Ethers.getAddress a = None ->
  Ethers.AbiCoder.encodeValue address (JString a) = None.
Proof. intros H. unfold Ethers.AbiCoder.encodeValue. rewrite H. reflexivity. Qed.

Lemma Viem_encode_rejected_address (a : jsstring) :
  Viem.isAddress a = false -> Viem.encodeValue address (JString a) = None.
Proof. intros H. unfold Viem.encodeValue. rewrite H. reflexivity. Qed.

(** With its prefix, an address that ethers refuses is one that viem
    refuses. *)
Lemma Ethers_rejects_Viem_rejects (a : jsstring) :
  startsWith a (js "0x") = true -> Ethers.getAddress a = None ->
  Viem.isAddress a = false.
Proof.
  intros Hp H. unfold Viem.isAddress. rewrite Hp. cbn [andb].
  destruct (Ethers.is40Hex (skipn 2 a)) eqn:E40; [|reflexivity].
  assert (Hlen : length (skipn 2 a) = 40%nat).
  { unfold Ethers.is40Hex in E40. apply andb_prop in E40 as [E _].
    apply Nat.eqb_eq, E. }
  unfold Ethers.getAddress in H. rewrite Hp, E40 in H. cbn [andb] in H.
  rewrite (getChecksumAddress_40 _ Hlen) in H.
  destruct (Ethers.hasUpperHex a) eqn:Eu; [|discriminate H].
  destruct (Ethers.hasLowerHex a); [|discriminate H].
  cbn [andb] in H.
  destruct (jseqb (EIP55.checksumAddress a) a); [discriminate H|].
  rewrite orb_false_r.
  destruct (jseqb (toLowerCase a) a) eqn:El; [|reflexivity].
  apply jseqb_eq in El. rewrite (lower_case_no_upper _ El) in Eu. discriminate.
Qed.

Lemma Ethers_new_rejects (domain : DomainData) :
  Ethers.getAddress (verifyingContract domain) = None ->
  EthersSafeTransactionHasher.new domain = None.
Proof.
  intros H. unfold EthersSafeTransactionHasher.new, Ethers.keccak256 at 1 2,
    Ethers.getBytes.
  cbn [option_bind].
  unfold EthersSafeTransactionHasher.calculateDomainHash, Ethers.AbiCoder.encode.
  cbn [length Nat.eqb]. rewrite (option_all_nth _ 2); [reflexivity|].
  cbn [combine map fst snd nth_error]. f_equal.
  apply Ethers_encode_rejected_address, H.
Qed.

Lemma Viem_new_rejects (domain : DomainData) :
  Viem.isAddress (verifyingContract domain) = false ->
  ViemSafeTransactionHasher.new domain = None.
Proof.
  intros H. unfold ViemSafeTransactionHasher.new. rewrite !Viem_typehash.
  cbn [option_bind].
  unfold ViemSafeTransactionHasher.calculateDomainHash, Viem.encodeAbiParameters.
  cbn [length Nat.eqb]. rewrite (option_all_nth _ 2); [reflexivity|].
  cbn [combine map fst snd nth_error]. f_equal.
  apply Viem_encode_rejected_address, H.
Qed.

(** X15: an address with the 0x prefix that ethers refuses (not forty
    hexadecimal digits, or mixed case that is not the EIP-55 checksum) is
    refused by viem as well.  As the Safe address it makes both
    constructors throw; as [to], [gasToken] or [refundReceiver] it makes
    every method of both hashers that takes the transaction throw. *)
Theorem rejected_address_makes_both_hashers_throw (a : EthAddress) :
  startsWith a (js "0x") = true -> Ethers.getAddress a = None ->
  Viem.isAddress a = false
  /\ (forall domain, verifyingContract domain = a ->
        EthersSafeTransactionHasher.new domain = None
        /\ ViemSafeTransactionHasher.new domain = None)
  /\ (forall tx he hv,
        to tx = a \/ gasToken tx = a \/ refundReceiver tx = a ->
        (EthersSafeTransactionHasher.calculateRawSafeTxHash he tx = None
         /\ EthersSafeTransactionHasher.calculateFinalSafeTxHash he tx = None
         /\ EthersSafeTransactionHasher.getAllHashes he tx = None)
        /\ (ViemSafeTransactionHasher.calculateRawSafeTxHash hv tx = None
            /\ ViemSafeTransactionHasher.calculateFinalSafeTxHash hv tx = None
            /\ ViemSafeTransactionHasher.getAllHashes hv tx = None)).
Proof.
  intros Hp He. pose proof (Ethers_rejects_Viem_rejects a Hp He) as Hv.
  split; [exact Hv|]. split.
  - intros domain Hd. subst a.
    split; [apply Ethers_new_rejects, He | apply Viem_new_rejects, Hv].
  - intros tx he hv [H|[H|H]]; subst a.
    + split; [apply (Ethers_throws_at he tx 1) | apply (Viem_throws_at hv tx 1)].
      * throws_by Ethers_encode_rejected_address.
      * throws_by Viem_encode_rejected_address.
    + split; [apply (Ethers_throws_at he tx 8) | apply (Viem_throws_at hv tx 8)].
      * throws_by Ethers_encode_rejected_address.
      * throws_by Viem_encode_rejected_address.
    + split; [apply (Ethers_throws_at he tx 9) | apply (Viem_throws_at hv tx 9)].
      * throws_by Ethers_encode_rejected_address.
      * throws_by Viem_encode_rejected_address.
Qed.

Lemma rejected_address_makes_both_hashers_throw_witness :
  startsWith badChecksumAddress (js "0x") = true
  /\ Ethers.getAddress badChecksumAddress = None
  /\ toLowerCase badChecksumAddress = toLowerCase (verifyingContract testDomain)
  /\ Viem.isAddress badChecksumAddress = false
  /\ (forall domain, verifyingContract domain = badChecksumAddress ->
        EthersSafeTransactionHasher.new domain = None
        /\ ViemSafeTransactionHasher.new domain = None)
  /\ (forall tx he hv,
        to tx = badChecksumAddress \/ gasToken tx = badChecksumAddress
        \/ refundReceiver tx = badChecksumAddress ->
        (EthersSafeTransactionHasher.calculateRawSafeTxHash he tx = None
         /\ EthersSafeTransactionHasher.calculateFinalSafeTxHash he tx = None
         /\ EthersSafeTransactionHasher.getAllHashes he tx = None)
        /\ (ViemSafeTransactionHasher.calculateRawSafeTxHash hv tx = None
            /\ ViemSafeTransactionHasher.calculateFinalSafeTxHash hv tx = None
            /\ ViemSafeTransactionHasher.getAllHashes hv tx = None)).
Proof.
  split; [reflexivity|]. split; [vm_compute; reflexivity|].
  split; [reflexivity|].
  apply (rejected_address_makes_both_hashers_throw badChecksumAddress);
    [reflexivity | vm_compute; reflexivity].
Defined.

Lemma hexDigit_not_x (n : Z) : 0 <= n < 16 -> (hexDigit n =? 120) = false.
Proof.
  intros H. unfold hexDigit. apply Z.eqb_neq.
  destruct (Z.ltb_spec n 10); lia.
Qed.

Lemma hexlify_wf_address (addr : list byte) :
  length addr = 20%nat -> wf_address (Ethers.hexlify addr) = true.
Proof.
  intros H. destruct (hexBody_lower addr) as [Hl _].
  unfold wf_address, Viem.isAddress. rewrite hexlify_cons, startsWith_0x_cons.
  rewrite !Z.eqb_refl. cbn [andb skipn]. unfold Ethers.is40Hex.
  rewrite hexBody_length, H, (parseHexBody_forallb _ _ (parseHexBody_hexBody addr)).
  rewrite toLowerCase_0x, Hl, jseqb_refl. reflexivity.
Qed.

(** Without the prefix, ethers reads the forty digits of an address as it
    reads them with the prefix. *)
Lemma Ethers_getAddress_unprefixed (addr : list byte) :
  length addr = 20%nat ->
  Ethers.getAddress (hexBody addr) = Ethers.getAddress (Ethers.hexlify addr)
  /\ startsWith (hexBody addr) (js "0x") = false.
Proof.
  intros H.
  assert (Hs : startsWith (hexBody addr) (js "0x") = false).
  { destruct addr as [|b addr]; [discriminate H|].
    rewrite hexBody_cons. unfold hexOfByte. cbn [app].
    rewrite startsWith_0x_cons.
    destruct (byte_nibbles b) as [_ Hlo]. rewrite (hexDigit_not_x _ Hlo).
    apply andb_false_r. }
  split; [|exact Hs].
  rewrite (Ethers_getAddress_hexlify _ H).
  destruct (hexBody_lower addr) as [_ Hu].
  unfold Ethers.getAddress. rewrite Hs. cbn [andb]. unfold Ethers.is40Hex.
  rewrite hexBody_length, H, (parseHexBody_forallb _ _ (parseHexBody_hexBody addr)).
  cbn [Nat.mul Nat.add Nat.eqb andb option_bind].
  fold (Ethers.hexlify addr). rewrite hexlify_cons.
  rewrite (getChecksumAddress_40 (48 :: 120 :: hexBody addr))
    by (cbn [skipn]; rewrite hexBody_length, H; reflexivity).
  unfold Ethers.hasUpperHex in *. cbn [existsb]. rewrite Hu. reflexivity.
Qed.

Lemma Ethers_calculateDomainHash_unprefixed (typeHash : HashValue) (chain : Z)
    (addr : list byte) :
  length addr = 20%nat ->
  EthersSafeTransactionHasher.calculateDomainHash typeHash
    {| chainId := chain; verifyingContract := hexBody addr |}
  = EthersSafeTransactionHasher.calculateDomainHash typeHash
      {| chainId := chain; verifyingContract := Ethers.hexlify addr |}.
Proof.
  intros Hl. destruct (Ethers_getAddress_unprefixed addr Hl) as [Hg _].
  unfold EthersSafeTransactionHasher.calculateDomainHash, Ethers.AbiCoder.encode.
  cbn [length Nat.eqb combine map fst snd chainId verifyingContract].
  unfold Ethers.AbiCoder.encodeValue at 3 6. rewrite Hg. reflexivity.
Qed.

(** X16: the twenty bytes of the Safe address written without the 0x
    prefix.  ethers reads the forty digits as it reads them with the
    prefix, so the ethers constructor builds a hasher with the same domain
    hash; viem refuses an address without the prefix, so the viem
    constructor throws. *)
Theorem unprefixed_address_ethers_builds_viem_throws
    (chain : Z) (addr : list byte) :
  wf_number chain = true -> length addr = 20%nat ->
  ViemSafeTransactionHasher.new
    {| chainId := chain; verifyingContract := hexBody addr |} = None
  /\ exists he he',
       EthersSafeTransactionHasher.new
         {| chainId := chain; verifyingContract := hexBody addr |} = Some he
       /\ EthersSafeTransactionHasher.new
            {| chainId := chain; verifyingContract := Ethers.hexlify addr |}
          = Some he'
       /\ EthersSafeTransactionHasher.getDomainHash he
          = EthersSafeTransactionHasher.getDomainHash he'
       /\ EthersSafeTransactionHasher.getTypeHashes he
          = EthersSafeTransactionHasher.getTypeHashes he'.
Proof.
  intros Hc Hl. destruct (Ethers_getAddress_unprefixed addr Hl) as [Hg Hs].
  split.
  - apply Viem_new_rejects. cbn [verifyingContract]. unfold Viem.isAddress.
    rewrite Hs. reflexivity.
  - assert (Hwf : wf_domain {| chainId := chain;
                               verifyingContract := Ethers.hexlify addr |} = true).
    { unfold wf_domain. cbn [chainId verifyingContract].
      rewrite Hc, (hexlify_wf_address _ Hl). reflexivity. }
    destruct (Ethers_new_defined _ Hwf) as (he' & He' & _).
    destruct (Ethers_typehashes _ _ He') as (Hdt & Hst & Hcalc).
    rewrite <- (Ethers_calculateDomainHash_unprefixed _ chain addr Hl) in Hcalc.
    exists {| EthersSafeTransactionHasher.DOMAIN_SEPARATOR_TYPEHASH :=
                Ethers.hexlify domainTypeHashBytes;
              EthersSafeTransactionHasher.SAFE_TX_TYPEHASH :=
                Ethers.hexlify safeTxTypeHashBytes;
              EthersSafeTransactionHasher.domain :=
                {| chainId := chain; verifyingContract := hexBody addr |};
              EthersSafeTransactionHasher.domainHash :=
                EthersSafeTransactionHasher.domainHash he' |}, he'.
    split.
    { unfold EthersSafeTransactionHasher.new, Ethers.keccak256 at 1 2,
        Ethers.getBytes, Ethers.toUtf8Bytes.
      cbn [option_bind]. fold domainTypeHashBytes safeTxTypeHashBytes.
      rewrite Hcalc. reflexivity. }
    split; [exact He'|]. split; [reflexivity|].
    unfold EthersSafeTransactionHasher.getTypeHashes.
    cbn [EthersSafeTransactionHasher.SAFE_TX_TYPEHASH
           EthersSafeTransactionHasher.DOMAIN_SEPARATOR_TYPEHASH].
    rewrite Hdt, Hst. reflexivity.
Qed.

Lemma unprefixed_address_ethers_builds_viem_throws_witness :
  wf_number 59144 = true /\ length recipient = 20%nat
  /\ ViemSafeTransactionHasher.new
       {| chainId := 59144; verifyingContract := hexBody recipient |} = None
  /\ exists he he',
       EthersSafeTransactionHasher.new
         {| chainId := 59144; verifyingContract := hexBody recipient |} = Some he
       /\ EthersSafeTransactionHasher.new
            {| chainId := 59144; verifyingContract := Ethers.hexlify recipient |}
          = Some he'
       /\ EthersSafeTransactionHasher.getDomainHash he
          = EthersSafeTransactionHasher.getDomainHash he'
       /\ EthersSafeTransactionHasher.getTypeHashes he
          = EthersSafeTransactionHasher.getTypeHashes he'.
Proof.
  split; [reflexivity|]. split; [reflexivity|].
  apply (unprefixed_address_ethers_builds_viem_throws 59144 recipient);
    reflexivity.
Defined.

(** ** What the hashes depend on *)

Lemma Ethers_getAllHashes_wf (domain : DomainData) (tx : SafeTransactionParams) :
  wf_domain domain = true -> wf_tx tx = true ->
  (h <- EthersSafeTransactionHasher.new domain ;;
   EthersSafeTransactionHasher.getAllHashes h tx)
  = Some {| safeTxHash :=
              Ethers.hexlify
                (Keccak.keccak256
                   (finalEncoding (Keccak.keccak256 (domainEncoding domain))
                      (Keccak.keccak256 (structEncoding tx))));
            domainHash := Ethers.hexlify (Keccak.keccak256 (domainEncoding domain));
            messageHash := Ethers.hexlify (Keccak.keccak256 (structEncoding tx)) |}.
Proof.
  intros Hd Ht. destruct (Ethers_new_defined _ Hd) as (he & He & Hde).
  pose proof (Ethers_rawHash _ _ _ He Ht) as Re.
  pose proof (Ethers_finalHash _ _ _ _ Hde Re) as Fe.
  rewrite He. cbn [option_bind]. unfold EthersSafeTransactionHasher.getAllHashes.
  rewrite Re, Fe, Hde. reflexivity.
Qed.

Lemma Viem_getAllHashes_wf (domain : DomainData) (tx : SafeTransactionParams) :
  wf_domain domain = true -> wf_tx tx = true ->
  (h <- ViemSafeTransactionHasher.new domain ;;
   ViemSafeTransactionHasher.getAllHashes h tx)
  = Some {| safeTxHash :=
              Viem.bytesToHex
                (Keccak.keccak256
                   (finalEncoding (Keccak.keccak256 (domainEncoding domain))
                      (Keccak.keccak256 (structEncoding tx))));
            domainHash := Viem.bytesToHex (Keccak.keccak256 (domainEncoding domain));
            messageHash := Viem.bytesToHex (Keccak.keccak256 (structEncoding tx)) |}.
Proof.
  intros Hd Ht. destruct (Viem_new_defined _ Hd) as (hv & Hv & Hdv).
  pose proof (Viem_rawHash _ _ _ Hv Ht) as Rv.
  pose proof (Viem_finalHash _ _ _ _ Hdv Rv) as Fv.
  rewrite Hv. cbn [option_bind]. unfold ViemSafeTransactionHasher.getAllHashes.
  rewrite Rv, Fv, Hdv. reflexivity.
Qed.

(** The bytes a text spells do not depend on the case of its digits. *)
Lemma bytesOfHex_sameText (a b : jsstring) :
  sameText a b -> bytesOfHex a = bytesOfHex b.
Proof.
  assert (H : forall s, bytesOfHex (toLowerCase s) = bytesOfHex s).
  { intros s. unfold bytesOfHex, toLowerCase. rewrite skipn_map.
    rewrite (parseHexBody_map lowerChar _ hexDigitValue_lowerChar). reflexivity. }
  unfold sameText. intros E. rewrite <- (H a), <- (H b), E. reflexivity.
Qed.

Lemma structEncoding_sameTransaction (tx tx' : SafeTransactionParams) :
  sameTransaction tx tx' -> structEncoding tx = structEncoding tx'.
Proof.
  intros (Hto & Hv & Hd & Ho & Hs & Hb & Hg & Hgt & Hrr & Hn).
  unfold structEncoding.
  rewrite (bytesOfHex_sameText _ _ Hto), (bytesOfHex_sameText _ _ Hd),
    (bytesOfHex_sameText _ _ Hgt), (bytesOfHex_sameText _ _ Hrr),
    Hv, Ho, Hs, Hb, Hg, Hn.
  reflexivity.
Qed.

Lemma domainEncoding_sameDomain (d d' : DomainData) :
  sameDomain d d' -> domainEncoding d = domainEncoding d'.
Proof.
  intros [Hc Ha]. unfold domainEncoding.
  rewrite (bytesOfHex_sameText _ _ Ha), Hc. reflexivity.
Qed.

(** X17: the hashes do not depend on the case in which the hexadecimal
    digits of the addresses and of the data are written: two well-formed
    domains and two well-formed transactions that differ only in that case
    get the same three hashes, from either hasher. *)
Theorem hashes_do_not_depend_on_letter_case
    (d d' : DomainData) (tx tx' : SafeTransactionParams) :
  wf_domain d = true -> wf_domain d' = true ->
  wf_tx tx = true -> wf_tx tx' = true ->
  sameDomain d d' -> sameTransaction tx tx' ->
  exists hashes,
    (h <- EthersSafeTransactionHasher.new d ;;
     EthersSafeTransactionHasher.getAllHashes h tx) = Some hashes
    /\ (h <- EthersSafeTransactionHasher.new d' ;;
        EthersSafeTransactionHasher.getAllHashes h tx') = Some hashes
    /\ (h <- ViemSafeTransactionHasher.new d ;;
        ViemSafeTransactionHasher.getAllHashes h tx) = Some hashes
    /\ (h <- ViemSafeTransactionHasher.new d' ;;
        ViemSafeTransactionHasher.getAllHashes h tx') = Some hashes.
Proof.
  intros Hd Hd' Ht Ht' Sd St.
  rewrite (Ethers_getAllHashes_wf _ _ Hd Ht), (Ethers_getAllHashes_wf _ _ Hd' Ht'),
    (Viem_getAllHashes_wf _ _ Hd Ht), (Viem_getAllHashes_wf _ _ Hd' Ht').
  rewrite (domainEncoding_sameDomain _ _ Sd), (structEncoding_sameTransaction _ _ St).
  eexists. repeat split; reflexivity.
Qed.

Lemma hashes_do_not_depend_on_letter_case_witness :
  wf_domain testDomain = true /\ wf_domain lowerCaseDomain = true
  /\ wf_tx testSafeTransaction = true /\ wf_tx otherCaseTransaction = true
  /\ sameDomain testDomain lowerCaseDomain
  /\ sameTransaction testSafeTransaction otherCaseTransaction
  /\ verifyingContract testDomain <> verifyingContract lowerCaseDomain
  /\ to testSafeTransaction <> to otherCaseTransaction
  /\ data testSafeTransaction <> data otherCaseTransaction
  /\ exists hashes,
       (h <- EthersSafeTransactionHasher.new testDomain ;;
        EthersSafeTransactionHasher.getAllHashes h testSafeTransaction)
       = Some hashes
       /\ (h <- EthersSafeTransactionHasher.new lowerCaseDomain ;;
           EthersSafeTransactionHasher.getAllHashes h otherCaseTransaction)
          = Some hashes
       /\ (h <- ViemSafeTransactionHasher.new testDomain ;;
           ViemSafeTransactionHasher.getAllHashes h testSafeTransaction)
          = Some hashes
       /\ (h <- ViemSafeTransactionHasher.new lowerCaseDomain ;;
           ViemSafeTransactionHasher.getAllHashes h otherCaseTransaction)
          = Some hashes.
Proof.
  split; [vm_compute; reflexivity|]. split; [vm_compute; reflexivity|].
  split; [vm_compute; reflexivity|]. split; [vm_compute; reflexivity|].
  split; [split; reflexivity|].
  split; [repeat split; reflexivity|].
  split; [discriminate|]. split; [discriminate|]. split; [discriminate|].
  apply (hashes_do_not_depend_on_letter_case testDomain lowerCaseDomain
           testSafeTransaction otherCaseTransaction);
    try (vm_compute; reflexivity);
    [split; reflexivity | repeat split; reflexivity].
Defined.

(** X18: the struct hash (the message hash) is the same for every Safe
    and every chain: [calculateRawSafeTxHash] reads nothing of the domain.
    Only the domain hash, and through it the final hash, is bound to the
    Safe.  This holds for every transaction, also one on which the method
    throws. *)
Theorem struct_hash_does_not_depend_on_domain
    (d1 d2 : DomainData) (tx : SafeTransactionParams)
    (he1 he2 : EthersSafeTransactionHasher.t)
    (hv1 hv2 : ViemSafeTransactionHasher.t) :
  EthersSafeTransactionHasher.new d1 = Some he1 ->
  EthersSafeTransactionHasher.new d2 = Some he2 ->
  ViemSafeTransactionHasher.new d1 = Some hv1 ->
  ViemSafeTransactionHasher.new d2 = Some hv2 ->
  EthersSafeTransactionHasher.calculateRawSafeTxHash he1 tx
  = EthersSafeTransactionHasher.calculateRawSafeTxHash he2 tx
  /\ ViemSafeTransactionHasher.calculateRawSafeTxHash hv1 tx
     = ViemSafeTransactionHasher.calculateRawSafeTxHash hv2 tx
  /\ EthersSafeTransactionHasher.getTypeHashes he1
     = EthersSafeTransactionHasher.getTypeHashes he2
  /\ ViemSafeTransactionHasher.getTypeHashes hv1
     = ViemSafeTransactionHasher.getTypeHashes hv2.
Proof.
  intros He1 He2 Hv1 Hv2.
  destruct (Ethers_typehashes _ _ He1) as (Ed1 & Es1 & _).
  destruct (Ethers_typehashes _ _ He2) as (Ed2 & Es2 & _).
  destruct (Viem_typehashes _ _ Hv1) as (Vd1 & Vs1 & _).
  destruct (Viem_typehashes _ _ Hv2) as (Vd2 & Vs2 & _).
  unfold EthersSafeTransactionHasher.calculateRawSafeTxHash,
    ViemSafeTransactionHasher.calculateRawSafeTxHash,
    EthersSafeTransactionHasher.getTypeHashes,
    ViemSafeTransactionHasher.getTypeHashes.
  rewrite Ed1, Es1, Ed2, Es2, Vd1, Vs1, Vd2, Vs2. repeat split.
Qed.

Lemma struct_hash_does_not_depend_on_domain_witness :
  exists he1 he2 hv1 hv2,
    EthersSafeTransactionHasher.new testDomain = Some he1
    /\ EthersSafeTransactionHasher.new defaultDomain = Some he2
    /\ ViemSafeTransactionHasher.new testDomain = Some hv1
    /\ ViemSafeTransactionHasher.new defaultDomain = Some hv2
    /\ EthersSafeTransactionHasher.getDomainHash he1
       <> EthersSafeTransactionHasher.getDomainHash he2
    /\ EthersSafeTransactionHasher.calculateRawSafeTxHash he1 exampleSafeTransaction
       = EthersSafeTransactionHasher.calculateRawSafeTxHash he2 exampleSafeTransaction
    /\ ViemSafeTransactionHasher.calculateRawSafeTxHash hv1 exampleSafeTransaction
       = ViemSafeTransactionHasher.calculateRawSafeTxHash hv2 exampleSafeTransaction
    /\ EthersSafeTransactionHasher.getTypeHashes he1
       = EthersSafeTransactionHasher.getTypeHashes he2
    /\ ViemSafeTransactionHasher.getTypeHashes hv1
       = ViemSafeTransactionHasher.getTypeHashes hv2.
Proof.
  destruct (EthersSafeTransactionHasher.new testDomain) as [he1|] eqn:He1;
    [|vm_compute in He1; discriminate He1].
  destruct (EthersSafeTransactionHasher.new defaultDomain) as [he2|] eqn:He2;
    [|vm_compute in He2; discriminate He2].
  destruct (ViemSafeTransactionHasher.new testDomain) as [hv1|] eqn:Hv1;
    [|vm_compute in Hv1; discriminate Hv1].
  destruct (ViemSafeTransactionHasher.new defaultDomain) as [hv2|] eqn:Hv2;
    [|vm_compute in Hv2; discriminate Hv2].
  exists he1, he2, hv1, hv2.
  split; [reflexivity|]. split; [reflexivity|]. split; [reflexivity|].
  split; [reflexivity|]. split.
  - vm_compute in He1, He2. inversion He1; inversion He2; subst.
    vm_compute. discriminate.
  - apply (struct_hash_does_not_depend_on_domain testDomain defaultDomain
             exampleSafeTransaction he1 he2 hv1 hv2 He1 He2 Hv1 Hv2).
Defined.

(** ** The encoding determines the transaction *)

Lemma app_inj_length {A} (a a' b b' : list A) :
  length a = length a' -> a ++ b = a' ++ b' -> a = a' /\ b = b'.
Proof.
  revert a'. induction a as [|x a IH]; intros [|y a'] Hl H; try discriminate.
  - split; [reflexivity|exact H].
  - cbn [app] in H. inversion H; subst. cbn [length] in Hl.
    destruct (IH a' ltac:(lia) ltac:(assumption)) as [-> ->]. split; reflexivity.
Qed.

Lemma uintWord_inj (n m : Z) :
  wf_uint256 n = true -> wf_uint256 m = true -> uintWord n = uintWord m -> n = m.
Proof.
  intros Hn Hm H. apply wf_uint256_range in Hn, Hm.
  apply (f_equal be_value) in H. unfold uintWord in H.
  rewrite !be_value_be_bytes in H. change (256 ^ Z.of_nat 32) with (2 ^ 256) in H.
  rewrite !Z.mod_small in H by assumption. exact H.
Qed.

Lemma addressWord_inj (a a' : list byte) :
  length a = 20%nat -> length a' = 20%nat ->
  addressWord a = addressWord a' -> a = a'.
Proof.
  unfold addressWord. intros -> -> H. apply app_inv_head in H. exact H.
Qed.

Lemma hexDigit_of_value (c v : Z) :
  hexDigitValue c = Some v -> hexDigit v = lowerChar c.
Proof.
  unfold hexDigitValue, hexDigit, lowerChar.
  destruct (char_ranges c) as [H|[H|[H|[H|[H|[H|[H|[H|H]]]]]]]];
    decide_bounds; cbn [andb]; intros Hv; inversion Hv; subst;
    destruct (Z.ltb_spec (c - 48) 10); destruct (Z.ltb_spec (c - 87) 10);
    destruct (Z.ltb_spec (c - 55) 10); lia.
Qed.

(** Printing the bytes a text spells gives the text in lower case. *)
Lemma hexBody_of_parse (s : jsstring) (bs : list byte) :
  parseHexBody s = Some bs -> hexBody bs = toLowerCase s.
Proof.
  revert bs. induction s as [|c|h l rest IH] using pair_induction; intros bs H.
  - inversion H. reflexivity.
  - discriminate H.
  - rewrite parseHexBody_cons2 in H.
    destruct (hexDigitValue h) as [a|] eqn:Eh; [|discriminate H].
    destruct (hexDigitValue l) as [b|] eqn:El; [|discriminate H].
    destruct (parseHexBody rest) as [bs'|] eqn:Er; [|discriminate H].
    assert (E : bs = byte_of_Z (16 * a + b) :: bs') by congruence.
    subst bs. clear H. rewrite hexBody_cons, (IH _ eq_refl).
    pose proof (hexDigitValue_range _ _ Eh) as Ra.
    pose proof (hexDigitValue_range _ _ El) as Rb.
    unfold hexOfByte. rewrite Z_of_byte_of_Z.
    rewrite (Z.mod_small (16 * a + b) 256) by lia.
    replace ((16 * a + b) / 16) with a
      by (apply (Z.div_unique _ 16 a b); lia).
    replace ((16 * a + b) mod 16) with b
      by (apply (Z.mod_unique _ 16 a b); lia).
    rewrite (hexDigit_of_value _ _ Eh), (hexDigit_of_value _ _ El). reflexivity.
Qed.

Lemma wf_address_sameText (a a' : EthAddress) :
  wf_address a = true -> wf_address a' = true ->
  bytesOfHex a = bytesOfHex a' -> sameText a a'.
Proof.
  intros H H' E.
  destruct (wf_address_bytes a H) as (Ea & Pa & _).
  destruct (wf_address_bytes a' H') as (Ea' & Pa' & _).
  unfold sameText. rewrite Ea, Ea', !toLowerCase_0x.
  rewrite <- (hexBody_of_parse _ _ Pa), <- (hexBody_of_parse _ _ Pa'), E.
  reflexivity.
Qed.

Lemma wf_operation_uint256 (op : Z) :
  wf_operation op = true -> wf_uint256 op = true.
Proof.
  unfold wf_operation. intros H.
  apply orb_prop in H as [H|H]; apply Z.eqb_eq in H; subst; reflexivity.
Qed.

Ltac next_word H Hw :=
  apply app_inj_length in H;
  [ destruct H as [Hw H]
  | rewrite ?addressWord_length, ?uintWord_length, ?keccak256_length,
      ?safeTxTypeHashBytes_length by assumption; reflexivity ].

(** X19: the bytes that are hashed determine the transaction.  The
    encodings of two well-formed transactions are equal exactly when the
    two have the same numbers, the same addresses up to the case of their
    digits, and data with the same hash: eleven words of fixed width leave
    no room for two readings. *)
Theorem struct_encoding_determines_the_transaction
    (domain : DomainData) (he : EthersSafeTransactionHasher.t)
    (hv : ViemSafeTransactionHasher.t) (tx tx' : SafeTransactionParams) :
  EthersSafeTransactionHasher.new domain = Some he ->
  ViemSafeTransactionHasher.new domain = Some hv ->
  wf_tx tx = true -> wf_tx tx' = true ->
  EthersSafeTransactionHasher.calculateRawSafeTxHash he tx
  = Some (Ethers.hexlify (Keccak.keccak256 (structEncoding tx)))
  /\ ViemSafeTransactionHasher.calculateRawSafeTxHash hv tx
     = Some (Viem.bytesToHex (Keccak.keccak256 (structEncoding tx)))
  /\ (structEncoding tx = structEncoding tx' <-> sameWords tx tx').
Proof.
  intros He Hv Ht Ht'.
  split; [apply (Ethers_rawHash _ _ _ He Ht)|].
  split; [apply (Viem_rawHash _ _ _ Hv Ht)|].
  destruct (wf_tx_fields _ Ht)
    as (Hto & Hval & Hdata & Hop & Hstg & Hbg & Hgp & Hgt & Hrr & Hn).
  destruct (wf_tx_fields _ Ht')
    as (Hto' & Hval' & Hdata' & Hop' & Hstg' & Hbg' & Hgp' & Hgt' & Hrr' & Hn').
  destruct (wf_address_bytes _ Hto) as (_ & _ & Lto & _).
  destruct (wf_address_bytes _ Hgt) as (_ & _ & Lgt & _).
  destruct (wf_address_bytes _ Hrr) as (_ & _ & Lrr & _).
  destruct (wf_address_bytes _ Hto') as (_ & _ & Lto' & _).
  destruct (wf_address_bytes _ Hgt') as (_ & _ & Lgt' & _).
  destruct (wf_address_bytes _ Hrr') as (_ & _ & Lrr' & _).
  split.
  - unfold structEncoding. intros H.
    next_word H W0. next_word H W1. next_word H W2. next_word H W3.
    next_word H W4. next_word H W5. next_word H W6. next_word H W7.
    next_word H W8. next_word H W9.
    repeat split.
    + apply wf_address_sameText; try assumption.
      apply (addressWord_inj _ _ Lto Lto' W1).
    + apply (uintWord_inj _ _ Hval Hval' W2).
    + exact W3.
    + apply (uintWord_inj _ _ (wf_operation_uint256 _ Hop)
               (wf_operation_uint256 _ Hop') W4).
    + apply (uintWord_inj _ _ Hstg Hstg' W5).
    + apply (uintWord_inj _ _ Hbg Hbg' W6).
    + apply (uintWord_inj _ _ Hgp Hgp' W7).
    + apply wf_address_sameText; try assumption.
      apply (addressWord_inj _ _ Lgt Lgt' W8).
    + apply wf_address_sameText; try assumption.
      apply (addressWord_inj _ _ Lrr Lrr' W9).
    + apply (uintWord_inj _ _ (wf_number_uint256 _ Hn) (wf_number_uint256 _ Hn') H).
  - intros (Sto & Sv & Sd & So & Ss & Sb & Sg & Sgt & Srr & Sn).
    unfold structEncoding.
    rewrite (bytesOfHex_sameText _ _ Sto), (bytesOfHex_sameText _ _ Sgt),
      (bytesOfHex_sameText _ _ Srr), Sv, Sd, So, Ss, Sb, Sg, Sn.
    reflexivity.
Qed.

Lemma struct_encoding_determines_the_transaction_witness :
  wf_tx testSafeTransaction = true /\ wf_tx otherCaseTransaction = true
  /\ exists he hv,
       EthersSafeTransactionHasher.new testDomain = Some he
       /\ ViemSafeTransactionHasher.new testDomain = Some hv
       /\ EthersSafeTransactionHasher.calculateRawSafeTxHash he testSafeTransaction
          = Some (Ethers.hexlify
                    (Keccak.keccak256 (structEncoding testSafeTransaction)))
       /\ ViemSafeTransactionHasher.calculateRawSafeTxHash hv testSafeTransaction
          = Some (Viem.bytesToHex
                    (Keccak.keccak256 (structEncoding testSafeTransaction)))
       /\ (structEncoding testSafeTransaction = structEncoding otherCaseTransaction
           <-> sameWords testSafeTransaction otherCaseTransaction).
Proof.
  split; [vm_compute; reflexivity|]. split; [vm_compute; reflexivity|].
  destruct (Ethers_new_defined testDomain) as (he & He & _);
    [vm_compute; reflexivity|].
  destruct (Viem_new_defined testDomain) as (hv & Hv & _);
    [vm_compute; reflexivity|].
  exists he, hv. split; [exact He|]. split; [exact Hv|].
  apply (struct_encoding_determines_the_transaction testDomain he hv
           testSafeTransaction otherCaseTransaction He Hv);
    vm_compute; reflexivity.
Defined.

(** ** The type hashes and the domain hash *)

(** X21: whatever the domain, a hasher that was built returns the two
    type hashes of the Safe contract: the keccak256 of the two EIP-712
    type strings, the same from both hashers. *)
Theorem type_hashes_are_the_constants_of_the_contract
    (domain : DomainData) :
  (forall he, EthersSafeTransactionHasher.new domain = Some he ->
     EthersSafeTransactionHasher.getTypeHashes he = safeTypeHashes)
  /\ (forall hv, ViemSafeTransactionHasher.new domain = Some hv ->
        ViemSafeTransactionHasher.getTypeHashes hv = safeTypeHashes)
  /\ safeTxTypeHash safeTypeHashes
     = Ethers.hexlify (Keccak.keccak256 (list_byte_of_string SafeTx_type))
  /\ domainSeparatorTypeHash safeTypeHashes
     = Ethers.hexlify (Keccak.keccak256 (list_byte_of_string EIP712Domain_type)).
Proof.
  assert (Hs : Ethers.hexlify safeTxTypeHashBytes = safeTxTypeHash safeTypeHashes)
    by (vm_compute; reflexivity).
  assert (Hd : Ethers.hexlify domainTypeHashBytes
               = domainSeparatorTypeHash safeTypeHashes)
    by (vm_compute; reflexivity).
  split; [|split; [|split; symmetry; assumption]].
  - intros he He. destruct (Ethers_typehashes _ _ He) as (Ed & Es & _).
    unfold EthersSafeTransactionHasher.getTypeHashes. rewrite Ed, Es, Hs, Hd.
    reflexivity.
  - intros hv Hv. destruct (Viem_typehashes _ _ Hv) as (Ed & Es & _).
    unfold ViemSafeTransactionHasher.getTypeHashes. rewrite Ed, Es.
    change Viem.bytesToHex with Ethers.hexlify. rewrite Hs, Hd. reflexivity.
Qed.

Lemma domainEncoding_length (d : DomainData) :
  wf_domain d = true -> length (domainEncoding d) = 96%nat.
Proof.
  intros H. destruct (wf_domain_fields _ H) as [_ Ha].
  destruct (wf_address_bytes _ Ha) as (_ & _ & La & _).
  unfold domainEncoding.
  rewrite !length_app, domainTypeHashBytes_length, uintWord_length,
    (addressWord_length _ La).
  reflexivity.
Qed.

(** X22: for a well-formed domain both constructors succeed, and the
    domain hash of both is the keccak256 of 96 bytes: the domain type
    hash, the chain id as a word, the Safe address left-padded to a word.
    Two well-formed domains have the same 96 bytes exactly when they have
    the same chain id and the same Safe address, up to the case of its
    digits. *)
Theorem domain_hash_is_keccak_of_domain_encoding (d d' : DomainData) :
  wf_domain d = true -> wf_domain d' = true ->
  (exists he hv,
     EthersSafeTransactionHasher.new d = Some he
     /\ ViemSafeTransactionHasher.new d = Some hv
     /\ EthersSafeTransactionHasher.getDomainHash he
        = Ethers.hexlify (Keccak.keccak256 (domainEncoding d))
     /\ ViemSafeTransactionHasher.getDomainHash hv
        = Viem.bytesToHex (Keccak.keccak256 (domainEncoding d)))
  /\ length (domainEncoding d) = 96%nat
  /\ Ethers.getBytesOfString (verifyingContract d)
     = Some (bytesOfHex (verifyingContract d))
  /\ (domainEncoding d = domainEncoding d' <-> sameDomain d d').
Proof.
  intros Hd Hd'.
  destruct (Ethers_new_defined _ Hd) as (he & He & Hde).
  destruct (Viem_new_defined _ Hd) as (hv & Hv & Hdv).
  destruct (wf_domain_fields _ Hd) as [Hc Ha].
  destruct (wf_domain_fields _ Hd') as [Hc' Ha'].
  destruct (wf_address_bytes _ Ha) as (Ea & Pa & La & _).
  destruct (wf_address_bytes _ Ha') as (_ & _ & La' & _).
  split; [exists he, hv; repeat split; assumption|].
  split; [apply domainEncoding_length, Hd|].
  split; [rewrite Ea at 1; rewrite Ethers_getBytes_0x; exact Pa|].
  split.
  - unfold domainEncoding. intros H.
    apply app_inv_head in H. apply app_inj_length in H;
      [|rewrite !uintWord_length; reflexivity].
    destruct H as [Hw Haw]. split.
    + apply (uintWord_inj _ _ (wf_number_uint256 _ Hc) (wf_number_uint256 _ Hc') Hw).
    + apply wf_address_sameText; try assumption.
      apply (addressWord_inj _ _ La La' Haw).
  - apply domainEncoding_sameDomain.
Qed.

Lemma domain_hash_is_keccak_of_domain_encoding_witness :
  wf_domain testDomain = true /\ wf_domain lowerCaseDomain = true
  /\ (exists he hv,
        EthersSafeTransactionHasher.new testDomain = Some he
        /\ ViemSafeTransactionHasher.new testDomain = Some hv
        /\ EthersSafeTransactionHasher.getDomainHash he
           = Ethers.hexlify (Keccak.keccak256 (domainEncoding testDomain))
        /\ ViemSafeTransactionHasher.getDomainHash hv
           = Viem.bytesToHex (Keccak.keccak256 (domainEncoding testDomain)))
  /\ length (domainEncoding testDomain) = 96%nat
  /\ Ethers.getBytesOfString (verifyingContract testDomain)
     = Some (bytesOfHex (verifyingContract testDomain))
  /\ (domainEncoding testDomain = domainEncoding lowerCaseDomain
      <-> sameDomain testDomain lowerCaseDomain).
Proof.
  split; [vm_compute; reflexivity|]. split; [vm_compute; reflexivity|].
  apply (domain_hash_is_keccak_of_domain_encoding testDomain lowerCaseDomain);
    vm_compute; reflexivity.
Defined.
